(** * KMRL document backend: ingestion pipeline, query facade, access gate

    A shallow embedding of the TypeScript backend
    (controllers/DocumentController, services/ProcessingQueue,
    services/AIService, utils/fileUpload, middleware/auth) and of the
    in-memory store of the demo backend (models/InMemoryDocument), together
    with the properties its specification states about it and further
    properties of the code.

    Conventions of the embedding
    - JavaScript strings are [string]s (sequences of 8-bit characters); case
      folding and white space are the ASCII ones.
    - JavaScript numbers that carry a confidence are rationals ([Q]); a
      [DECIMAL(5,4)] column holds an integer count of ten-thousandths.
    - [async] functions run to completion one after another (every call in
      the source is awaited), so they are state transformers over a [World]
      that holds the disk, the documents table and the logger output; a
      thrown exception is the [Threw] result and leaves the effects made so
      far in place.
    - What the network and the database engine decide is read from an
      [Env]: the reply to the n-th HTTP call, and whether the n-th SQL
      statement goes through. *)

From Stdlib Require Import ZArith QArith String Ascii List Sorted Lia.
From stdpp Require Import base option list gmap strings pretty.

Local Open Scope string_scope.
Local Open Scope list_scope.

(** ** JavaScript string primitives *)

Module Js.

Definition is_upper (c : ascii) : bool :=
  let n := nat_of_ascii c in (65 <=? n)%nat && (n <=? 90)%nat.

Definition lower_char (c : ascii) : ascii :=
  if is_upper c then ascii_of_nat (nat_of_ascii c + 32) else c.

(** [String.prototype.toLowerCase]. *)
Fixpoint toLowerCase (s : string) : string :=
  match s with
  | EmptyString => EmptyString
  | String c s' => String (lower_char c) (toLowerCase s')
  end.

(** [String.prototype.includes]: [sub] occurs in [s] as a contiguous run. *)
Fixpoint includes (s sub : string) : bool :=
  String.prefix sub s ||
  match s with
  | EmptyString => false
  | String _ s' => includes s' sub
  end.

(** The class [\s]: tab, line feed, vertical tab, form feed, carriage
    return, space. *)
Definition is_space (c : ascii) : bool :=
  let n := nat_of_ascii c in
  ((9 <=? n)%nat && (n <=? 13)%nat) || (n =? 32)%nat.

Fixpoint trimStart (s : string) : string :=
  match s with
  | String c s' => if is_space c then trimStart s' else s
  | EmptyString => EmptyString
  end.

Fixpoint trimEnd (s : string) : string :=
  match s with
  | EmptyString => EmptyString
  | String c s' =>
      match trimEnd s' with
      | EmptyString => if is_space c then EmptyString else String c EmptyString
      | t => String c t
      end
  end.

(** [String.prototype.trim]. *)
Definition trim (s : string) : string := trimEnd (trimStart s).

(** [s.split(/\s+/)]: the pieces between maximal runs of white space; a
    leading or trailing run leaves an empty first or last piece, and the
    empty string splits into one empty piece.  [cur] is the piece being
    read, [in_run] tells that the previous character was white space. *)
Fixpoint split_ws_from (cur : string) (in_run : bool) (s : string) : list string :=
  match s with
  | EmptyString => [cur]
  | String c s' =>
      if is_space c
      then if in_run then split_ws_from cur true s'
           else cur :: split_ws_from EmptyString true s'
      else split_ws_from (cur ++ String c EmptyString) false s'
  end.

Definition split_ws (s : string) : list string :=
  split_ws_from EmptyString false s.

(** [s.replace(a, b)] for one-character [a] and [b]: only the first
    occurrence is replaced. *)
Fixpoint replace_first (a b : ascii) (s : string) : string :=
  match s with
  | EmptyString => EmptyString
  | String c s' =>
      if Ascii.eqb c a then String b s' else String c (replace_first a b s')
  end.

(** Truthiness of a possibly [undefined] string, and the [||] on such
    values: the left operand when it is truthy, else the right one. *)
Definition truthy (v : option string) : bool :=
  match v with
  | Some s => negb (String.eqb s EmptyString)
  | None => false
  end.

Definition or_else (a b : option string) : option string :=
  if truthy a then a else b.

(** Template-literal rendering of a possibly [undefined] string. *)
Definition show (v : option string) : string :=
  match v with Some s => s | None => "undefined" end.

End Js.

(** ** Node's [path] module (POSIX flavour) *)

Module Path.

Definition slash : ascii := "/"%char.
Definition dot : ascii := "."%char.

(** The text after the last ['/'] ([acc] is the candidate so far). *)
Fixpoint after_last_slash (acc s : string) : string :=
  match s with
  | EmptyString => acc
  | String c s' =>
      if Ascii.eqb c slash then after_last_slash s' s'
      else after_last_slash acc s'
  end.

(** [path.basename] of a path that does not end in a separator. *)
Definition basename (p : string) : string := after_last_slash p p.

(** The suffix of [s] that starts at its last ['.'], if it has one. *)
Fixpoint from_last_dot (s : string) : option string :=
  match s with
  | EmptyString => None
  | String c s' =>
      match from_last_dot s' with
      | Some e => Some e
      | None => if Ascii.eqb c dot then Some s else None
      end
  end.

(** [path.extname]: from the last ['.'] of the base name to its end; empty
    when there is no dot or when the only dot opens the base name. *)
Definition extname (p : string) : string :=
  match basename p with
  | EmptyString => EmptyString
  | String c rest =>
      match from_last_dot rest with
      | Some e => e
      | None => EmptyString
      end
  end.

(** [path.join dir name] for segments that need no normalisation. *)
Definition join (dir name : string) : string :=
  dir ++ String slash name.

(** [s.substring(1)]. *)
Definition drop_first (s : string) : string :=
  match s with
  | EmptyString => EmptyString
  | String _ s' => s'
  end.

End Path.

(** [parseInt]: leading white space, an optional sign, then the longest run
    of digits (hexadecimal after a [0x] prefix); [NaN] when there is none. *)
Module ParseInt.

Inductive number := NaN | Num (z : Z).

Definition digit (radix : Z) (c : ascii) : option Z :=
  let n := Z.of_nat (nat_of_ascii c) in
  let v := if (48 <=? n)%Z && (n <=? 57)%Z then Some (n - 48)%Z
           else if (97 <=? n)%Z && (n <=? 102)%Z then Some (n - 87)%Z
           else if (65 <=? n)%Z && (n <=? 70)%Z then Some (n - 55)%Z
           else None in
  match v with
  | Some d => if (d <? radix)%Z then Some d else None
  | None => None
  end.

Fixpoint digits (radix : Z) (acc : option Z) (s : string) : option Z :=
  match s with
  | EmptyString => acc
  | String c s' =>
      match digit radix c with
      | Some d => digits radix (Some (default 0%Z acc * radix + d)%Z) s'
      | None => acc
      end
  end.

Definition magnitude (s : string) : option Z :=
  match s with
  | String "0" (String "x" s') | String "0" (String "X" s') => digits 16 None s'
  | _ => digits 10 None s
  end.

Definition parseInt (s : string) : number :=
  let t := Js.trimStart s in
  let '(neg, body) :=
    match t with
    | String "-" t' => (true, t')
    | String "+" t' => (false, t')
    | _ => (false, t)
    end in
  match magnitude body with
  | Some m => Num (if neg then - m else m)%Z
  | None => NaN
  end.

End ParseInt.

(** ** Data model *)

(** [processing_status]. *)
Inductive Status := pending | processing | completed | failed.

#[global] Instance Status_eq_dec : EqDecision Status.
Proof. solve_decision. Defined.

(** A row of the [documents] table: the [Document] interface of
    types/index.ts with the columns that migration_v2.sql adds.  The two
    confidence columns are [DECIMAL(5,4)]: the number of ten-thousandths.
    Time stamps and the JSONB copies of the service replies are left out;
    rows are kept in insertion order, which is creation order. *)
Module Doc.
Record t := mk {
  id : nat;
  filename : string;
  original_filename : string;
  file_size : nat;
  mime_type : string;
  file_path : string;
  file_hash : string;
  project_id : option Z;
  department : string;
  uploaded_by : nat;
  urgency_level : string;
  processing_status : Status;
  ai_classification : option string;
  classification_confidence : option Z;
  ai_summary : option string;
  summary_confidence : option Z;
  ai_keywords : option (list string)
}.
End Doc.

(** [Express.Multer.File], as the disk storage of utils/fileUpload fills it. *)
Module File.
Record t := mk {
  filename : string;
  originalname : string;
  size : nat;
  mimetype : string;
  path : string
}.
End File.

(** [req.user]. *)
Module User.
Record t := mk {
  id : nat;
  email : string;
  department : string;
  role : string
}.
End User.

Inductive LogLevel := LogInfo | LogWarn | LogError.

#[global] Instance LogLevel_eq_dec : EqDecision LogLevel.
Proof. solve_decision. Defined.

Record LogEntry := { level : LogLevel; text : string }.

(** The state the backend reads and writes.
    - [disk]: the regular files, by path;
    - [documents], [next_id]: the table and its [SERIAL] counter;
    - [logs]: what [logger] has printed, oldest first;
    - [status_writes]: every [processing_status] value a statement has
      stored, with the row it went to, oldest first;
    - the three counters number the SQL statements and the HTTP calls. *)
Record World := {
  disk : gmap string (list Byte.byte);
  documents : list Doc.t;
  next_id : nat;
  logs : list LogEntry;
  status_writes : list (nat * Status);
  db_calls : nat;
  classify_calls : nat;
  summary_calls : nat
}.

(** ** The outside world *)

(** An [axios.post]: the promise rejects (no connection, time-out, status
    outside 2xx) or resolves with [response.data]. *)
Inductive HttpReply (A : Type) := Rejected (reason : string) | Resolved (data : A).
Arguments Rejected {A} reason.
Arguments Resolved {A} data.

Record ClassifyData := {
  c_success : bool;
  c_error : option string;
  c_category : option string;
  c_document_type : option string;
  c_classification : option string;
  c_confidence : option Q;
  c_summary : option string;
  c_keywords : option (list string)
}.

Record SummaryData := {
  s_success : bool;
  s_error : option string;
  s_summary : option string;
  s_keywords : option (list string);
  s_confidence : option Q
}.

(** What the backend does not decide itself.
    - [uploadDir]: [config.upload.uploadDir];
    - [sha256]: the digest of [crypto.createHash('sha256')], in hex;
    - [show_number]: how a number prints inside a template literal;
    - [db_up n]: the n-th SQL statement reaches the database and is not
      refused for a reason outside this model;
    - [classify_reply n], [summary_reply n]: the outcome of the n-th call to
      the classification and to the summary service;
    - [text_summary]: the summary and key words [fallbackSummary] derives
      from a non-empty text (the pipeline always passes the empty text). *)
Record Env := {
  uploadDir : string;
  sha256 : list Byte.byte → string;
  show_number : option Q → string;
  db_up : nat → bool;
  classify_reply : nat → HttpReply ClassifyData;
  summary_reply : nat → HttpReply SummaryData;
  text_summary : string → string * list string
}.

(** ** Effects: state and exceptions *)

Inductive Outcome (A : Type) := Ok (a : A) | Threw (e : string).
Arguments Ok {A} a.
Arguments Threw {A} e.

Definition M (A : Type) : Type := World → World * Outcome A.

Definition ret {A} (a : A) : M A := λ w, (w, Ok a).

Definition throw {A} (e : string) : M A := λ w, (w, Threw e).

Definition bind {A B} (m : M A) (k : A → M B) : M B :=
  λ w, match m w with
       | (w', Ok a) => k a w'
       | (w', Threw e) => (w', Threw e)
       end.

(** [try { m } catch (e) { h e }]. *)
Definition try_catch {A} (m : M A) (h : string → M A) : M A :=
  λ w, match m w with
       | (w', Ok a) => (w', Ok a)
       | (w', Threw e) => h e w'
       end.

Notation "'let*' x ':=' m 'in' k" := (bind m (λ x, k))
  (at level 10, x name, m at level 100, k at level 200, only parsing).
Notation "m ';;' k" := (bind m (λ _, k))
  (at level 100, k at level 200, right associativity, only parsing).

Definition when_ (b : bool) (m : M unit) : M unit := if b then m else ret tt.

(** *** logger *)

Definition log_line (l : LogLevel) (msg : string) : M unit :=
  λ w, ({| disk := disk w; documents := documents w; next_id := next_id w;
           logs := logs w ++ [{| level := l; text := msg |}];
           status_writes := status_writes w; db_calls := db_calls w;
           classify_calls := classify_calls w; summary_calls := summary_calls w |},
        Ok tt).

Module logger.
Definition info := log_line LogInfo.
Definition warn := log_line LogWarn.
Definition error := log_line LogError.
End logger.

(** *** fs *)

Definition set_disk (d : gmap string (list Byte.byte)) (w : World) : World :=
  {| disk := d; documents := documents w; next_id := next_id w;
     logs := logs w; status_writes := status_writes w; db_calls := db_calls w;
     classify_calls := classify_calls w; summary_calls := summary_calls w |}.

Module fs.

Definition existsSync (p : string) : M bool :=
  λ w, (w, Ok (bool_decide (is_Some (disk w !! p)))).

Definition readFileSync (p : string) : M (list Byte.byte) :=
  λ w, match disk w !! p with
       | Some c => (w, Ok c)
       | None => (w, Threw "ENOENT: no such file or directory")
       end.

(** [fs.statSync(p).size]. *)
Definition statSync_size (p : string) : M nat :=
  λ w, match disk w !! p with
       | Some c => (w, Ok (length c))
       | None => (w, Threw "ENOENT: no such file or directory")
       end.

(** [fs.renameSync]: the file leaves [src] and replaces whatever [dst]
    held. *)
Definition renameSync (src dst : string) : M unit :=
  λ w, match disk w !! src with
       | Some c => (set_disk (<[dst := c]> (delete src (disk w))) w, Ok tt)
       | None => (w, Threw "ENOENT: no such file or directory")
       end.

Definition unlinkSync (p : string) : M unit :=
  λ w, match disk w !! p with
       | Some _ => (set_disk (delete p (disk w)) w, Ok tt)
       | None => (w, Threw "ENOENT: no such file or directory")
       end.

End fs.

(** ** The documents table *)

(** The value a [DECIMAL(5,4)] column takes for a number: the nearest
    multiple of 0.0001, ties away from zero, in ten-thousandths. *)
Definition to_decimal_5_4 (q : Q) : Z :=
  let n := Qnum q in
  let d := Zpos (Qden q) in
  if (0 <=? n)%Z then ((2 * 10000 * n + d) / (2 * d))%Z
  else (- ((2 * 10000 * (- n) + d) / (2 * d)))%Z.

(** [CHECK (classification_confidence >= 0 AND classification_confidence <= 1)]
    and the same on [summary_confidence] (migration_v2.sql); a [NULL]
    passes. *)
Definition check_confidence (c : option Z) : bool :=
  match c with
  | Some z => (0 <=? z)%Z && (z <=? 10000)%Z
  | None => true
  end.

Definition check_row (d : Doc.t) : bool :=
  check_confidence (Doc.classification_confidence d) &&
  check_confidence (Doc.summary_confidence d).

(** The object literal [uploadDocuments] hands to [DocumentModel.create]. *)
Record documentData := {
  dd_filename : string;
  dd_original_filename : string;
  dd_file_size : nat;
  dd_mime_type : string;
  dd_file_path : string;
  dd_file_hash : string;
  dd_project_id : option ParseInt.number;
  dd_department : string;
  dd_uploaded_by : nat;
  dd_urgency_level : string;
  dd_processing_status : Status
}.

(** The object literal handed to [DocumentModel.updateAIProcessingResults];
    a field that is missing or [undefined] is [None]. *)
Record AIProcessingUpdate := {
  up_processing_status : option Status;
  up_ai_classification : option string;
  up_classification_confidence : option Q;
  up_ai_summary : option string;
  up_summary_confidence : option Q;
  up_ai_keywords : option (list string)
}.

Definition status_only (s : Status) : AIProcessingUpdate :=
  {| up_processing_status := Some s; up_ai_classification := None;
     up_classification_confidence := None; up_ai_summary := None;
     up_summary_confidence := None; up_ai_keywords := None |}.

(** The [filters] object of the list and search queries. *)
Record Filters := {
  f_department : option string;
  f_project_id : option ParseInt.number;
  f_urgency_level : option string;
  f_processing_status : option string;
  f_document_type : option string
}.

Definition Status_name (s : Status) : string :=
  match s with
  | pending => "pending"
  | processing => "processing"
  | completed => "completed"
  | failed => "failed"
  end.

Definition set_table (rows : list Doc.t) (nid : nat) (sw : list (nat * Status))
    (w : World) : World :=
  {| disk := disk w; documents := rows; next_id := nid;
     logs := logs w; status_writes := sw; db_calls := db_calls w;
     classify_calls := classify_calls w; summary_calls := summary_calls w |}.

Definition tick_db (w : World) : World :=
  {| disk := disk w; documents := documents w; next_id := next_id w;
     logs := logs w; status_writes := status_writes w; db_calls := S (db_calls w);
     classify_calls := classify_calls w; summary_calls := summary_calls w |}.

(** Modelled from the spec: [DocumentModel] (models/Document.ts), which the
    controller and the processing queue import, is missing from the sources.
    It is the "Document Record Store": typed CRUD over the documents table,
    every write atomic per record, a lookup that finds nothing is an outcome
    and not an error, a storage fault is an exception; listing is filtered,
    newest first and paginated, with a total that ignores the page window;
    keyword search is a substring match over file name, summary and key
    words.  The [CHECK] constraints are those of migration_v2.sql. *)
Module DocumentModel.

(** One SQL statement: it throws when the database does not take it. *)
Definition statement {A} (env : Env) (run : M A) : M A :=
  λ w, if db_up env (db_calls w) then run (tick_db w)
       else (tick_db w, Threw "database error").

(** The row an [INSERT] of [data] adds under the identifier [id]: the
    enrichment columns are [NULL]. *)
Definition inserted (id : nat) (data : documentData) : Doc.t :=
  Doc.mk id (dd_filename data) (dd_original_filename data)
    (dd_file_size data) (dd_mime_type data) (dd_file_path data)
    (dd_file_hash data)
    (match dd_project_id data with Some (ParseInt.Num z) => Some z | _ => None end)
    (dd_department data) (dd_uploaded_by data) (dd_urgency_level data)
    (dd_processing_status data) None None None None None.

Definition create (env : Env) (data : documentData) : M Doc.t :=
  statement env (λ w,
    match dd_project_id data with
    | Some ParseInt.NaN => (w, Threw "invalid input syntax for type integer")
    | _ =>
        let row := inserted (next_id w) data in
        (set_table (documents w ++ [row]) (S (next_id w))
           (status_writes w ++ [(next_id w, dd_processing_status data)]) w,
         Ok row)
    end).

Definition has_id (z : Z) (d : Doc.t) : bool := (Z.of_nat (Doc.id d) =? z)%Z.

Definition findById (env : Env) (id : Z) : M (option Doc.t) :=
  statement env (λ w, (w, Ok (List.find (has_id id) (documents w)))).

(** The row after [UPDATE documents SET ... ]: the fields given replace the
    columns, the others stay. *)
Definition apply_update (u : AIProcessingUpdate) (d : Doc.t) : Doc.t :=
  Doc.mk (Doc.id d) (Doc.filename d) (Doc.original_filename d) (Doc.file_size d)
    (Doc.mime_type d) (Doc.file_path d) (Doc.file_hash d) (Doc.project_id d)
    (Doc.department d) (Doc.uploaded_by d) (Doc.urgency_level d)
    (default (Doc.processing_status d) (up_processing_status u))
    (match up_ai_classification u with Some c => Some c | None => Doc.ai_classification d end)
    (match up_classification_confidence u with
     | Some q => Some (to_decimal_5_4 q)
     | None => Doc.classification_confidence d
     end)
    (match up_ai_summary u with Some c => Some c | None => Doc.ai_summary d end)
    (match up_summary_confidence u with
     | Some q => Some (to_decimal_5_4 q)
     | None => Doc.summary_confidence d
     end)
    (match up_ai_keywords u with Some c => Some c | None => Doc.ai_keywords d end).

Definition update_rows (id : nat) (u : AIProcessingUpdate) (rows : list Doc.t) : list Doc.t :=
  List.map (λ d, if (Doc.id d =? id)%nat then apply_update u d else d) rows.

Definition updateAIProcessingResults (env : Env) (id : nat) (u : AIProcessingUpdate) : M unit :=
  statement env (λ w,
    let rows := update_rows id u (documents w) in
    if forallb (λ d, check_row (apply_update u d))
         (List.filter (λ d, (Doc.id d =? id)%nat) (documents w)) then
      let written :=
        match up_processing_status u with
        | Some s => if existsb (λ d, (Doc.id d =? id)%nat) (documents w) then [(id, s)] else []
        | None => []
        end in
      (set_table rows (next_id w) (status_writes w ++ written) w, Ok tt)
    else (w, Threw "new row violates check constraint")).

Definition deleteDocument (env : Env) (id : Z) : M unit :=
  statement env (λ w,
    (set_table (List.filter (λ d, negb (has_id id d)) (documents w))
       (next_id w) (status_writes w) w, Ok tt)).

Definition opt_matches (f : option string) (v : string) : bool :=
  match f with Some x => String.eqb x v | None => true end.

Definition matches (f : Filters) (d : Doc.t) : bool :=
  opt_matches (f_department f) (Doc.department d) &&
  match f_project_id f with
  | Some (ParseInt.Num z) =>
      match Doc.project_id d with Some p => (p =? z)%Z | None => false end
  | Some ParseInt.NaN => false
  | None => true
  end &&
  opt_matches (f_urgency_level f) (Doc.urgency_level d) &&
  opt_matches (f_processing_status f) (Status_name (Doc.processing_status d)) &&
  match f_document_type f with
  | Some t => match Doc.ai_classification d with Some c => String.eqb c t | None => false end
  | None => true
  end.

(** The page window: [limit] rows after the first [(page - 1) * limit]. *)
Definition window (page limit : Z) (rows : list Doc.t) : list Doc.t :=
  take (Z.to_nat limit) (drop (Z.to_nat ((page - 1) * limit)) rows).

Definition paginated (page limit : ParseInt.number) (rows : list Doc.t)
    : M (list Doc.t * nat) :=
  match page, limit with
  | ParseInt.Num p, ParseInt.Num l => ret (window p l rows, length rows)
  | _, _ => throw "invalid input syntax for type bigint"
  end.

Definition getDocuments (env : Env) (f : Filters) (page limit : ParseInt.number)
    : M (list Doc.t * nat) :=
  statement env (λ w,
    paginated page limit (List.rev (List.filter (matches f) (documents w))) w).

Definition keyword_hit (query : string) (d : Doc.t) : bool :=
  let q := Js.toLowerCase query in
  Js.includes (Js.toLowerCase (Doc.original_filename d)) q ||
  Js.includes (Js.toLowerCase (default EmptyString (Doc.ai_summary d))) q ||
  existsb (λ k, Js.includes (Js.toLowerCase k) q) (default [] (Doc.ai_keywords d)).

Definition searchDocuments (env : Env) (query : string) (f : Filters)
    (page limit : ParseInt.number) : M (list Doc.t * nat) :=
  statement env (λ w,
    paginated page limit
      (List.rev (List.filter (λ d, matches f d && keyword_hit query d) (documents w))) w).

End DocumentModel.

(** ** utils/fileUpload: the multer disk storage *)

Module Multer.

(** [originalname.replace(/[^a-zA-Z0-9.-]/g, '_')]. *)
Definition safe_char (c : ascii) : ascii :=
  let n := nat_of_ascii c in
  if ((97 <=? n)%nat && (n <=? 122)%nat) || ((65 <=? n)%nat && (n <=? 90)%nat)
     || ((48 <=? n)%nat && (n <=? 57)%nat) || (n =? 46)%nat || (n =? 45)%nat
  then c else "_"%char.

Fixpoint safeName (originalname : string) : string :=
  match originalname with
  | EmptyString => EmptyString
  | String c s => String (safe_char c) (safeName s)
  end.

(** The [filename] callback: [timestamp] is the date part of
    [new Date().toISOString()], [uniqueId] the first eight characters of a
    version-4 UUID. *)
Definition filename (timestamp uniqueId originalname : string) : string :=
  timestamp ++ "_" ++ uniqueId ++ "_" ++ safeName originalname.

(** The [destination] callback: [req.body.department || 'documents'], in
    lower case, under [uploadDir]/documents. *)
Definition destination (env : Env) (department : option string) : string :=
  Path.join (Path.join (uploadDir env) "documents")
    (Js.toLowerCase (default "documents" (Js.or_else department (Some "documents")))).

(** The file object multer hands to the route. *)
Definition stored (env : Env) (department : option string)
    (timestamp uniqueId originalname mimetype : string) (size : nat) : File.t :=
  File.mk (filename timestamp uniqueId originalname) originalname size mimetype
    (Path.join (destination env department) (filename timestamp uniqueId originalname)).

End Multer.

(** ** utils/fileUpload: [FileValidator] and [DocumentProcessor] *)

Module FileValidator.

Definition getFileType (filename : string) : string :=
  let extension := Js.toLowerCase (Path.extname filename) in
  if existsb (String.eqb extension) [".pdf"; ".doc"; ".docx"] then "document"
  else if existsb (String.eqb extension) [".jpg"; ".jpeg"; ".png"; ".bmp"; ".tiff"] then "image"
  else if String.eqb extension ".xlsx" then "spreadsheet"
  else if existsb (String.eqb extension) [".dwg"; ".dxf"] then "cad"
  else "unknown".

End FileValidator.

(** What [extractMetadata] returns (the two time stamps left out). *)
Record Metadata := {
  md_size : nat;
  md_type : string;
  md_extension : string;
  md_originalName : string;
  md_hash : string
}.

Module DocumentProcessor.

Definition generateFileHash (env : Env) (filePath : string) : M string :=
  try_catch
    (let* fileBuffer := fs.readFileSync filePath in
     ret (sha256 env fileBuffer))
    (λ error,
       logger.error ("Error generating file hash: " ++ error);;
       throw error).

Definition extractMetadata (env : Env) (filePath : string) : M Metadata :=
  try_catch
    (let* size := fs.statSync_size filePath in
     let* hash := generateFileHash env filePath in
     ret {| md_size := size;
            md_type := FileValidator.getFileType filePath;
            md_extension := Js.toLowerCase (Path.extname filePath);
            md_originalName := Path.basename filePath;
            md_hash := hash |})
    (λ error,
       logger.error ("Error extracting document metadata: " ++ error);;
       throw error).

Definition validateDocument (filePath : string) : M bool :=
  try_catch
    (let* present := fs.existsSync filePath in
     if negb present then ret false
     else
       let* size := fs.statSync_size filePath in
       ret (0 <? size)%nat)
    (λ error,
       logger.error ("Error validating document: " ++ error);;
       ret false).

(** Directories are not files of [disk]: the [mkdirSync] of a missing
    target directory changes nothing that is modelled. *)
Definition moveToProcessingQueue (filePath targetDir : string) : M string :=
  try_catch
    (let filename := Path.basename filePath in
     let targetPath := Path.join targetDir filename in
     fs.renameSync filePath targetPath;;
     logger.info ("Document moved to processing queue: " ++ targetPath);;
     ret targetPath)
    (λ error,
       logger.error ("Error moving document to processing queue: " ++ error);;
       throw error).

Definition mlQueueDir (env : Env) : string := Path.join (uploadDir env) "ml-queue".

Definition prepareDocumentForMLProcessing (env : Env) (filePath : string)
    : M (string * Metadata) :=
  try_catch
    (let* isValidDocument := validateDocument filePath in
     when_ (negb isValidDocument) (throw "Invalid document file");;
     let* metadata := extractMetadata env filePath in
     let* processedPath := moveToProcessingQueue filePath (mlQueueDir env) in
     logger.info ("Document prepared for ML processing: " ++ processedPath);;
     ret (processedPath, metadata))
    (λ error,
       logger.error ("Error preparing document for ML processing: " ++ error);;
       throw error).

End DocumentProcessor.

(** ** services/AIService *)

(** [AIProcessingResult] (language, entities and processing time left out:
    nothing downstream reads them but the JSONB copy). *)
Record AIProcessingResult := {
  document_type : option string;
  confidence : option Q;
  summary : option string;
  keywords : option (list string);
  key_points : option (list string);
  compliance_flags : option (list string);
  department_relevance : option (list string)
}.

Record SummaryResult := {
  sr_summary : string;
  sr_keywords : list string;
  sr_confidence : Q
}.

Module AIService.

Definition any_includes (s : string) (needles : list string) : bool :=
  existsb (Js.includes s) needles.

(** [fallbackClassification]: the first rule that fires, in source order. *)
Definition fallbackClassification (text filePath : string) (department : option string)
    : AIProcessingResult :=
  let filename := Js.toLowerCase (Path.basename filePath) in
  let extension := Js.toLowerCase (Path.drop_first (Path.extname filePath)) in
  let content := Js.toLowerCase text in
  let '(documentType, confidence, keyPoints, complianceFlags, departmentRelevance) :=
    if any_includes filename ["maintenance"; "inspection"; "repair"; "operation"; "schedule"]
       || any_includes content ["maintenance"; "operation"]
       || existsb (String.eqb extension) ["dwg"; "dxf"]
    then ("maintenance&operation", 85 # 100,
          ["Maintenance activity"; "Operational procedure"; "Equipment status"; "Technical drawing"],
          @nil string,
          ["MAINTENANCE"; "OPERATIONS"; "METRO_ENGINEERING"])
    else if any_includes filename ["bill"; "invoice"; "purchase"; "budget"; "financial"; "audit"]
       || any_includes content ["payment"; "procurement"; "budget"]
       || String.eqb extension "xlsx"
    then ("finance&procurement", 85 # 100,
          ["Financial transaction"; "Purchase order"; "Budget allocation"; "Vendor payment"],
          [],
          ["FINANCE"; "PROCUREMENT"])
    else if any_includes filename ["compliance"; "regulation"; "standard"; "audit"]
       || any_includes content ["regulation"; "mandatory"; "compliance"; "standard"]
    then ("compliance&regulatory", 90 # 100,
          ["Regulatory requirement"; "Compliance standard"; "Legal obligation"; "Audit findings"],
          ["regulation"; "compliance"; "mandatory"],
          ["LEGAL"; "ADMINISTRATION"; "QUALITY_ASSURANCE"])
    else if any_includes filename ["safety"; "training"; "hazard"; "incident"; "emergency"]
       || any_includes content ["safety"; "training"; "emergency"]
    then ("safety&training", 90 # 100,
          ["Safety protocol"; "Training material"; "Hazard identification"; "Emergency procedure"],
          ["safety"; "mandatory"],
          ["SAFETY"; "HR"; "OPERATIONS"])
    else if any_includes filename ["hr"; "employee"; "policy"; "staff"; "personnel"]
       || any_includes content ["employee"; "policy"; "personnel"]
    then ("humanresources", 85 # 100,
          ["HR policy"; "Employee guidelines"; "Personnel management"; "Organizational procedure"],
          [],
          ["HR"; "ADMINISTRATION"])
    else if any_includes filename ["legal"; "contract"; "agreement"; "board"; "minutes"; "governance"]
       || any_includes content ["contract"; "board"; "legal"]
    then ("legal&governance", 85 # 100,
          ["Legal analysis"; "Contract terms"; "Board decision"; "Governance framework"],
          ["legal"; "contract"],
          ["LEGAL"; "ADMINISTRATION"])
    else ("general communication", 60 # 100,
          ["Document communication"; "Information sharing"; "General correspondence"],
          [],
          ["ADMINISTRATION"]) in
  let departmentRelevance :=
    match department with
    | Some d =>
        if Js.truthy department && negb (existsb (String.eqb d) departmentRelevance)
        then d :: departmentRelevance else departmentRelevance
    | None => departmentRelevance
    end in
  {| document_type := Some documentType;
     confidence := Some confidence;
     summary := Some (Js.replace_first "_" " " documentType ++ " document: "
                      ++ Path.basename filePath)%string;
     keywords := Some (take 5 keyPoints);
     key_points := Some keyPoints;
     compliance_flags := Some complianceFlags;
     department_relevance := Some (remove_dups departmentRelevance) |}.

(** The text before the first ['.']: [filename.split('.')[0]]. *)
Fixpoint before_first_dot (s : string) : string :=
  match s with
  | EmptyString => EmptyString
  | String c s' => if Ascii.eqb c Path.dot then EmptyString else String c (before_first_dot s')
  end.

Definition fallbackSummary (env : Env) (text filePath : string) : SummaryResult :=
  let filename := Path.basename filePath in
  let '(summary, keywords) :=
    if negb (String.eqb text EmptyString) then text_summary env text
    else (("Document summary for " ++ filename)%string,
          ["document"; "file";
           default "unknown" (Js.or_else (Some (before_first_dot filename)) (Some "unknown"))]) in
  {| sr_summary := summary; sr_keywords := keywords; sr_confidence := 60 # 100 |}.

Definition post_classification (env : Env) : M ClassifyData :=
  λ w, let w' := {| disk := disk w; documents := documents w; next_id := next_id w;
                    logs := logs w; status_writes := status_writes w; db_calls := db_calls w;
                    classify_calls := S (classify_calls w);
                    summary_calls := summary_calls w |} in
       match classify_reply env (classify_calls w) with
       | Rejected reason => (w', Threw reason)
       | Resolved data => (w', Ok data)
       end.

Definition post_summary (env : Env) : M SummaryData :=
  λ w, let w' := {| disk := disk w; documents := documents w; next_id := next_id w;
                    logs := logs w; status_writes := status_writes w; db_calls := db_calls w;
                    classify_calls := classify_calls w;
                    summary_calls := S (summary_calls w) |} in
       match summary_reply env (summary_calls w) with
       | Rejected reason => (w', Threw reason)
       | Resolved data => (w', Ok data)
       end.

Definition classifyDocument (env : Env) (text filePath : string) : M AIProcessingResult :=
  try_catch
    (logger.info ("Starting document classification for: " ++ Path.basename filePath);;
     let* data := post_classification env in
     if c_success data then
       let result :=
         {| document_type :=
              Js.or_else (Js.or_else (c_category data) (c_document_type data))
                (c_classification data);
            confidence := c_confidence data;
            summary := Js.or_else (c_summary data) (Some EmptyString);
            keywords := Some (default [] (c_keywords data));
            key_points := None;
            compliance_flags := None;
            department_relevance := None |} in
       logger.info ("Document classification completed for " ++ Path.basename filePath
                    ++ ": " ++ Js.show (document_type result)
                    ++ " (confidence: " ++ show_number env (confidence result) ++ ")");;
       ret result
     else
       throw ("Classification API failed: "
              ++ default "Unknown error" (Js.or_else (c_error data) (Some "Unknown error"))))
    (λ error,
       logger.error ("External document classification failed: " ++ error);;
       let result := fallbackClassification text filePath None in
       logger.info ("Enhanced fallback classification: " ++ Js.show (document_type result)
                    ++ " (" ++ show_number env (confidence result) ++ ") for "
                    ++ Js.toLowerCase (Path.basename filePath));;
       ret result).

(** [response.data.confidence || 0.8]: a missing or zero confidence
    becomes 0.8. *)
Definition confidence_or_default (c : option Q) : Q :=
  match c with
  | Some q => if Qeq_bool q 0 then 80 # 100 else q
  | None => 80 # 100
  end.

Definition generateSummary (env : Env) (text filePath : string)
    (documentType : option string) : M SummaryResult :=
  try_catch
    (logger.info ("Starting document summary generation for: " ++ Path.basename filePath);;
     let* data := post_summary env in
     if s_success data then
       match s_summary data with
       | None => throw "TypeError: Cannot read properties of undefined (reading 'length')"
       | Some text_of_summary =>
           let result :=
             {| sr_summary := text_of_summary;
                sr_keywords := default [] (s_keywords data);
                sr_confidence := confidence_or_default (s_confidence data) |} in
           logger.info ("Document summary generated for " ++ Path.basename filePath
                        ++ " (" ++ pretty (String.length text_of_summary) ++ " chars)");;
           ret result
       end
     else
       throw ("Summary API failed: "
              ++ default "Unknown error" (Js.or_else (s_error data) (Some "Unknown error"))))
    (λ error,
       logger.error ("External document summary generation failed: " ++ error);;
       let result := fallbackSummary env text filePath in
       logger.info ("Fallback summary generated for " ++ Path.basename filePath
                    ++ " (" ++ pretty (String.length (sr_summary result)) ++ " chars)");;
       ret result).

End AIService.

(** ** services/ProcessingQueue *)

Record ProcessingJobData := {
  documentId : nat;
  filePath : string;
  userId : nat;
  job_department : string
}.

Module ProcessingQueue.

(** The two object literals that carry enrichment results to the store. *)
Definition combined_results (c : AIProcessingResult) (s : SummaryResult) : AIProcessingUpdate :=
  {| up_processing_status := Some completed;
     up_ai_classification := document_type c;
     up_classification_confidence := confidence c;
     up_ai_summary := Some (sr_summary s);
     up_summary_confidence := Some (sr_confidence s);
     up_ai_keywords := Some (sr_keywords s) |}.

Definition fallback_results (c : AIProcessingResult) : AIProcessingUpdate :=
  {| up_processing_status := Some completed;
     up_ai_classification := document_type c;
     up_classification_confidence := confidence c;
     up_ai_summary := Js.or_else (summary c) (Some EmptyString);
     up_summary_confidence := None;
     up_ai_keywords := Some (default [] (keywords c)) |}.

(** The inner [try] block of [processDocument]: steps 1 to 4. *)
Definition enrich (env : Env) (documentId : nat) (filePath : string) : M unit :=
  DocumentModel.updateAIProcessingResults env documentId (status_only processing);;
  logger.info ("Calling external classification API for document " ++ pretty documentId);;
  let* classificationResult := AIService.classifyDocument env EmptyString filePath in
  logger.info ("Calling external summary API for document " ++ pretty documentId);;
  let* summaryResult :=
    AIService.generateSummary env EmptyString filePath (document_type classificationResult) in
  DocumentModel.updateAIProcessingResults env documentId
    (combined_results classificationResult summaryResult);;
  logger.info ("AI processing completed and saved: "
               ++ Js.show (document_type classificationResult)
               ++ " (classification: " ++ show_number env (confidence classificationResult)
               ++ ", summary: " ++ show_number env (Some (sr_confidence summaryResult))
               ++ ")").

(** Its [catch (aiError)] block. *)
Definition fall_back (env : Env) (documentId : nat) (filePath : string) (aiError : string)
    : M unit :=
  logger.warn ("External AI processing failed, using basic classification: " ++ aiError);;
  DocumentModel.updateAIProcessingResults env documentId (status_only failed);;
  try_catch
    (let* fallbackResult := AIService.classifyDocument env EmptyString filePath in
     DocumentModel.updateAIProcessingResults env documentId
       (fallback_results fallbackResult);;
     logger.info ("Fallback processing completed and saved: "
                  ++ Js.show (document_type fallbackResult)))
    (λ fallbackError,
       logger.error ("Fallback processing also failed: " ++ fallbackError);;
       throw fallbackError).

Definition processDocument (env : Env) (data : ProcessingJobData) : M unit :=
  let documentId := documentId data in
  let filePath := filePath data in
  try_catch
    (logger.info ("Starting processing for document " ++ pretty documentId);;
     let* present := fs.existsSync filePath in
     when_ (negb present) (throw "File not found");;
     let* fileHash := DocumentProcessor.generateFileHash env filePath in
     let* metadata := DocumentProcessor.extractMetadata env filePath in
     let* preparedData := DocumentProcessor.prepareDocumentForMLProcessing env filePath in
     try_catch (enrich env documentId filePath) (fall_back env documentId filePath);;
     logger.info ("Processing completed for document " ++ pretty documentId))
    (λ error,
       logger.error ("Processing failed for " ++ pretty documentId ++ ": " ++ error);;
       throw error).

Definition addDocumentForProcessing (env : Env) (data : ProcessingJobData) : M unit :=
  try_catch
    (processDocument env data)
    (λ error,
       logger.error ("Failed to process document: " ++ error);;
       throw error).

End ProcessingQueue.

(** ** controllers/DocumentController *)

(** A JSON response: the status code, the [success] flag, the optional
    [message] and [error] strings and what else the body carries (the time
    stamp left out). *)
Record Json (P : Type) := {
  status : nat;
  success : bool;
  message : option string;
  error : option string;
  payload : option P
}.
Arguments status {P} _.
Arguments success {P} _.
Arguments message {P} _.
Arguments error {P} _.
Arguments payload {P} _.

Definition json_ok {P} (code : nat) (msg : option string) (body : P) : Json P :=
  {| status := code; success := true; message := msg; error := None; payload := Some body |}.

Definition json_fail {P} (code : nat) (msg : string) (err : option string) : Json P :=
  {| status := code; success := false; message := Some msg; error := err; payload := None |}.

(** An entry of the [documents] array of the upload response. *)
Record UploadedDocument := {
  ud_id : nat;
  ud_filename : string;
  ud_original_filename : string;
  ud_file_size : nat;
  ud_mime_type : string;
  ud_department : string;
  ud_urgency_level : string;
  ud_processing_status : Status
}.

Record UploadRequest := {
  ur_files : list File.t;
  ur_project_id : option string;
  ur_department : option string;
  ur_urgency_level : option string;
  ur_user : User.t
}.

(** [req.query] of the list and search routes. *)
Record ListQuery := {
  q_q : option string;
  q_department : option string;
  q_project_id : option string;
  q_document_type : option string;
  q_urgency_level : option string;
  q_status : option string;
  q_page : option string;
  q_limit : option string
}.

Record Pagination := {
  pg_page : ParseInt.number;
  pg_limit : ParseInt.number;
  pg_total : nat
}.

Record DocumentList := {
  dl_documents : list Doc.t;
  dl_pagination : Pagination
}.

(** A search result: the row with its score and highlights. *)
Record SearchHit := {
  hit_document : Doc.t;
  relevance_score : nat
}.

Record SearchResults := {
  search_query : string;
  results : list SearchHit;
  total_found : nat
}.

(** What the download route sends: a JSON error, or the headers and the
    bytes piped from the file. *)
Inductive Download :=
| DownloadJson (r : Json unit)
| DownloadStream (content_type content_disposition : string) (body : list Byte.byte).

Module DocumentController.

Definition dquote : ascii := ascii_of_nat 34.

Definition truthy_or (v : option string) (d : string) : string :=
  default d (Js.or_else v (Some d)).

Definition if_truthy (v : option string) : option string :=
  if Js.truthy v then v else None.

(** The body of the [for (const file of files)] loop, with its own
    [try]/[catch]: the entry is pushed only when nothing threw. *)
Definition upload_one (env : Env) (req : UploadRequest) (department : string)
    (file : File.t) (uploadedDocuments : list UploadedDocument)
    : M (list UploadedDocument) :=
  let user := ur_user req in
  try_catch
    (let documentData :=
       {| dd_filename := File.filename file;
          dd_original_filename := File.originalname file;
          dd_file_size := File.size file;
          dd_mime_type := File.mimetype file;
          dd_file_path := File.path file;
          dd_file_hash := EmptyString;
          dd_project_id :=
            match if_truthy (ur_project_id req) with
            | Some p => Some (ParseInt.parseInt p)
            | None => None
            end;
          dd_department := department;
          dd_uploaded_by := User.id user;
          dd_urgency_level := truthy_or (ur_urgency_level req) "routine";
          dd_processing_status := pending |} in
     let* document := DocumentModel.create env documentData in
     ProcessingQueue.addDocumentForProcessing env
       {| documentId := Doc.id document; filePath := File.path file;
          userId := User.id user; job_department := department |};;
     logger.info ("Document uploaded: " ++ File.originalname file
                  ++ " by user " ++ User.email user);;
     ret (uploadedDocuments ++
          [{| ud_id := Doc.id document;
              ud_filename := Doc.filename document;
              ud_original_filename := Doc.original_filename document;
              ud_file_size := Doc.file_size document;
              ud_mime_type := Doc.mime_type document;
              ud_department := Doc.department document;
              ud_urgency_level := Doc.urgency_level document;
              ud_processing_status := Doc.processing_status document |}]))
    (λ error,
       logger.error ("Failed to process file " ++ File.originalname file ++ ": " ++ error);;
       ret uploadedDocuments).

Fixpoint upload_each (env : Env) (req : UploadRequest) (department : string)
    (files : list File.t) (uploadedDocuments : list UploadedDocument)
    : M (list UploadedDocument) :=
  match files with
  | [] => ret uploadedDocuments
  | file :: rest =>
      let* uploadedDocuments := upload_one env req department file uploadedDocuments in
      upload_each env req department rest uploadedDocuments
  end.

Definition uploadDocuments (env : Env) (req : UploadRequest)
    : M (Json (list UploadedDocument)) :=
  try_catch
    (let files := ur_files req in
     if (length files =? 0)%nat then ret (json_fail 400 "No files uploaded" None)
     else
       match if_truthy (ur_department req) with
       | None => ret (json_fail 400 "Department is required" None)
       | Some department =>
           let* uploadedDocuments := upload_each env req department files [] in
           ret (json_ok 201
                  (Some (pretty (length uploadedDocuments)
                         ++ " document(s) uploaded successfully")%string)
                  uploadedDocuments)
       end)
    (λ error,
       logger.error ("Document upload failed: " ++ error);;
       ret (json_fail 500 "Document upload failed" (Some error))).

Definition scoped_department (user : User.t) (department : option string) : option string :=
  if negb (String.eqb (User.role user) "admin") then Some (User.department user)
  else if_truthy department.

Definition parse_or (v : option string) (d : Z) : ParseInt.number :=
  match v with
  | Some s => ParseInt.parseInt s
  | None => ParseInt.Num d
  end.

Definition getDocuments (env : Env) (user : User.t) (query : ListQuery)
    : M (Json DocumentList) :=
  try_catch
    (let filters :=
       {| f_department := scoped_department user (q_department query);
          f_project_id :=
            match if_truthy (q_project_id query) with
            | Some p => Some (ParseInt.parseInt p)
            | None => None
            end;
          f_urgency_level := if_truthy (q_urgency_level query);
          f_processing_status := if_truthy (q_status query);
          f_document_type := None |} in
     let page := parse_or (q_page query) 1 in
     let limit := parse_or (q_limit query) 20 in
     let* result := DocumentModel.getDocuments env filters page limit in
     ret (json_ok 200 None
            {| dl_documents := result.1;
               dl_pagination := {| pg_page := page; pg_limit := limit; pg_total := result.2 |} |}))
    (λ error,
       logger.error ("Failed to retrieve documents: " ++ error);;
       ret (json_fail 500 "Failed to retrieve documents" (Some error))).

(** The opening of every [/:id] handler: the parameter must be there and
    must parse. *)
Definition with_document_id {P} (idParam : option string) (k : Z → M (Json P)) : M (Json P) :=
  match if_truthy idParam with
  | None => ret (json_fail 400 "Document ID is required" None)
  | Some p =>
      match ParseInt.parseInt p with
      | ParseInt.NaN => ret (json_fail 400 "Invalid document ID" None)
      | ParseInt.Num documentId => k documentId
      end
  end.

Definition department_denied (user : User.t) (document : Doc.t) : bool :=
  negb (String.eqb (User.role user) "admin") &&
  negb (String.eqb (Doc.department document) (User.department user)).

Definition getDocumentById (env : Env) (user : User.t) (idParam : option string)
    : M (Json Doc.t) :=
  try_catch
    (with_document_id idParam (λ documentId,
       let* found := DocumentModel.findById env documentId in
       match found with
       | None => ret (json_fail 404 "Document not found" None)
       | Some document =>
           if department_denied user document
           then ret (json_fail 403 "Access denied - document not in your department" None)
           else ret (json_ok 200 None document)
       end))
    (λ error,
       logger.error ("Failed to retrieve document: " ++ error);;
       ret (json_fail 500 "Failed to retrieve document" (Some error))).

Definition downloadDocument (env : Env) (user : User.t) (idParam : option string)
    : M Download :=
  try_catch
    (match if_truthy idParam with
     | None => ret (DownloadJson (json_fail 400 "Document ID is required" None))
     | Some p =>
         match ParseInt.parseInt p with
         | ParseInt.NaN => ret (DownloadJson (json_fail 400 "Invalid document ID" None))
         | ParseInt.Num documentId =>
             let* found := DocumentModel.findById env documentId in
             match found with
             | None => ret (DownloadJson (json_fail 404 "Document not found" None))
             | Some document =>
                 if department_denied user document
                 then ret (DownloadJson
                             (json_fail 403 "Access denied - document not in your department" None))
                 else
                   let* present := fs.existsSync (Doc.file_path document) in
                   if negb present
                   then ret (DownloadJson (json_fail 404 "File not found on disk" None))
                   else
                     let* body := fs.readFileSync (Doc.file_path document) in
                     logger.info ("Document downloaded: " ++ Doc.original_filename document
                                  ++ " by user " ++ User.email user);;
                     ret (DownloadStream (Doc.mime_type document)
                            ("attachment; filename=" ++ String dquote
                               (Doc.original_filename document ++ String dquote EmptyString))
                            body)
             end
         end
     end)
    (λ error,
       logger.error ("Failed to download document: " ++ error);;
       ret (DownloadJson (json_fail 500 "Failed to download document" (Some error)))).

Definition deleteDocument (env : Env) (user : User.t) (idParam : option string)
    : M (Json unit) :=
  try_catch
    (with_document_id idParam (λ documentId,
       let* found := DocumentModel.findById env documentId in
       match found with
       | None => ret (json_fail 404 "Document not found" None)
       | Some document =>
           if negb (String.eqb (User.role user) "admin")
              && negb (Doc.uploaded_by document =? User.id user)%nat
           then ret (json_fail 403 "Access denied - you can only delete your own documents" None)
           else
             let* present := fs.existsSync (Doc.file_path document) in
             when_ present (fs.unlinkSync (Doc.file_path document));;
             DocumentModel.deleteDocument env documentId;;
             logger.info ("Document deleted: " ++ Doc.original_filename document
                          ++ " by user " ++ User.email user);;
             ret {| status := 200; success := true;
                    message := Some "Document deleted successfully";
                    error := None; payload := Some tt |}
       end))
    (λ error,
       logger.error ("Failed to delete document: " ++ error);;
       ret (json_fail 500 "Failed to delete document" (Some error))).

(** The manual trigger, [POST /documents/:id/process]: it classifies and
    answers; it stores nothing. *)
Definition processDocument (env : Env) (user : User.t) (idParam : option string)
    : M (Json AIProcessingResult) :=
  try_catch
    (with_document_id idParam (λ documentId,
       let* found := DocumentModel.findById env documentId in
       match found with
       | None => ret (json_fail 404 "Document not found" None)
       | Some document =>
           if department_denied user document
           then ret (json_fail 403 "Access denied - document not in your department" None)
           else
             try_catch
               (let* aiResult :=
                  AIService.classifyDocument env EmptyString (Doc.file_path document) in
                ret (json_ok 200 (Some "Document processed successfully") aiResult))
               (λ aiError,
                  logger.error ("AI processing failed: " ++ aiError);;
                  ret (json_fail 500 "AI processing failed" (Some aiError)))
       end))
    (λ error,
       logger.error ("Failed to process document: " ++ error);;
       ret (json_fail 500 "Failed to process document" (Some error))).

(** [l.forEach(body)] around a running [score]. *)
Definition forEach {A} (l : list A) (body : A → nat → nat) (score : nat) : nat :=
  fold_left (λ acc a, body a acc) l score.

Definition calculateRelevanceScore (query : string) (document : Doc.t) : nat :=
  let queryWords := Js.split_ws (Js.toLowerCase query) in
  let score := 0 in
  let filename := Js.toLowerCase (Doc.original_filename document) in
  let score :=
    forEach queryWords (λ word score,
      if Js.includes filename word then score + 3 else score) score in
  let score :=
    if Js.truthy (Doc.ai_summary document) then
      let summary := Js.toLowerCase (default EmptyString (Doc.ai_summary document)) in
      forEach queryWords (λ word score,
        if Js.includes summary word then score + 2 else score) score
    else score in
  let score :=
    match Doc.ai_keywords document with
    | Some ai_keywords =>
        forEach queryWords (λ word score,
          forEach ai_keywords (λ keyword score,
            if Js.includes (Js.toLowerCase keyword) word then score + 4 else score) score) score
    | None => score
    end in
  let score :=
    if Js.includes (Js.toLowerCase (Doc.department document)) (Js.toLowerCase query)
    then score + 1 else score in
  score.

(** [Array.prototype.sort(compare)]: the stable sort; an element goes in
    front of the first later one it does not compare greater than. *)
Fixpoint sort_insert {A} (compare : A → A → Z) (x : A) (l : list A) : list A :=
  match l with
  | [] => [x]
  | y :: l' =>
      if (compare x y <=? 0)%Z then x :: y :: l' else y :: sort_insert compare x l'
  end.

Fixpoint Array_sort {A} (compare : A → A → Z) (l : list A) : list A :=
  match l with
  | [] => []
  | x :: l' => sort_insert compare x (Array_sort compare l')
  end.

Definition by_relevance (a b : SearchHit) : Z :=
  (Z.of_nat (relevance_score b) - Z.of_nat (relevance_score a))%Z.

(** The search filters and the call to the store, as [searchDocuments]
    makes it. *)
Definition search_filters (user : User.t) (query : ListQuery) : Filters :=
  {| f_department := scoped_department user (q_department query);
     f_project_id := None;
     f_urgency_level := if_truthy (q_urgency_level query);
     f_processing_status := None;
     f_document_type := if_truthy (q_document_type query) |}.

Definition search_store (env : Env) (user : User.t) (query : ListQuery) (searchQuery : string)
    : M (list Doc.t * nat) :=
  DocumentModel.searchDocuments env searchQuery (search_filters user query)
    (parse_or (q_page query) 1) (parse_or (q_limit query) 20).

(** Highlights and suggestions are left out of the response: they do not
    enter the score or the order. *)
Definition searchDocuments (env : Env) (user : User.t) (query : ListQuery)
    : M (Json SearchResults) :=
  try_catch
    (match q_q query with
     | None => ret (json_fail 400 "Search query (q) is required" None)
     | Some q =>
         if (String.length (Js.trim q) =? 0)%nat
         then ret (json_fail 400 "Search query (q) is required" None)
         else
           let searchQuery := Js.trim q in
           logger.info ("Smart search initiated by user " ++ User.email user ++ ": "
                        ++ String dquote (searchQuery ++ String dquote EmptyString));;
           let* searchResults := search_store env user query searchQuery in
           let enhancedResults :=
             List.map (λ doc,
               {| hit_document := doc;
                  relevance_score := calculateRelevanceScore searchQuery doc |})
               searchResults.1 in
           let enhancedResults := Array_sort by_relevance enhancedResults in
           ret (json_ok 200 None
                  {| search_query := searchQuery;
                     results := enhancedResults;
                     total_found := searchResults.2 |})
     end)
    (λ error,
       logger.error ("Smart search failed: " ++ error);;
       ret (json_fail 500 "Search failed" (Some error))).

End DocumentController.

(** ** The weighted sum the specification gives for the relevance score *)

(** How many elements of [l] satisfy [P]. *)
Definition count {A} (P : A → bool) (l : list A) : nat :=
  length (List.filter P l).

Module RelevanceSpec.






End RelevanceSpec.

(** ** The status life cycle the specification gives *)

(** The [processing_status] values that [m], started in [w], has stored, in
    the order it stored them. *)
Definition statuses_written {A} (m : M A) (w : World) : list Status :=
  List.map snd (drop (length (status_writes w)) (status_writes (m w).1)).

Module StatusSpec.

(** pending → processing → {completed, failed}: what a status may be
    replaced by.  Writing the same status again changes nothing; a
    completed or failed record keeps its status; nothing goes back to
    pending. *)
Definition may_become (a b : Status) : bool :=
  match a, b with
  | pending, _ => true
  | processing, (processing | completed | failed) => true
  | completed, completed => true
  | failed, failed => true
  | _, _ => false
  end.

(** A sequence of writes in which every write may follow the one before
    it, and none is [pending]. *)
Fixpoint forward_only (l : list Status) : bool :=
  match l with
  | [] => true
  | a :: l' =>
      negb (bool_decide (a = pending)) &&
      match l' with
      | [] => true
      | b :: _ => may_become a b
      end && forward_only l'
  end.

End StatusSpec.

(** ** A concrete deployment, for the examples *)

Module Scenario.

Definition stored_name : string := "2024-05-01_0a1b2c3d_safety_notice.pdf".

Definition stored_path : string :=
  "/srv/uploads/documents/safety/2024-05-01_0a1b2c3d_safety_notice.pdf".

(** The bytes of the uploaded file. *)
Definition notice_bytes : list Byte.byte := [Byte.x25; Byte.x50; Byte.x44; Byte.x46].

Definition notice : File.t :=
  File.mk stored_name "safety_notice.pdf" 4 "application/pdf" stored_path.

Definition officer : User.t := User.mk 7 "officer@kmrl.example" "SAFETY" "safety_officer".

Definition engineer : User.t := User.mk 8 "engineer@kmrl.example" "ELECTRICAL" "engineer".

(** No AI service can be reached; the database takes every statement. *)
Definition offline : Env :=
  {| uploadDir := "/srv/uploads";
     sha256 := λ _, "00";
     show_number := λ _, "n";
     db_up := λ _, true;
     classify_reply := λ _, Rejected "connect ECONNREFUSED";
     summary_reply := λ _, Rejected "connect ECONNREFUSED";
     text_summary := λ t, (t, []) |}.

(** As [offline], but the summary service answers, with a confidence
    of 1.5. *)
Definition overconfident : Env :=
  {| uploadDir := "/srv/uploads";
     sha256 := λ _, "00";
     show_number := λ _, "n";
     db_up := λ _, true;
     classify_reply := λ _, Rejected "connect ECONNREFUSED";
     summary_reply := λ _,
       Resolved {| s_success := true; s_error := None;
                   s_summary := Some "Safety notice.";
                   s_keywords := Some ["safety"];
                   s_confidence := Some (3 # 2) |};
     text_summary := λ t, (t, []) |}.

(** As [offline], and the database is down as well. *)
Definition database_down : Env :=
  {| uploadDir := "/srv/uploads";
     sha256 := λ _, "00";
     show_number := λ _, "n";
     db_up := λ _, false;
     classify_reply := λ _, Rejected "connect ECONNREFUSED";
     summary_reply := λ _, Rejected "connect ECONNREFUSED";
     text_summary := λ t, (t, []) |}.

(** An empty table, and the disk as multer leaves it: the uploaded bytes
    under the stored path. *)
Definition after_multer (bytes : list Byte.byte) : World :=
  {| disk := {[ stored_path := bytes ]}; documents := []; next_id := 1; logs := [];
     status_writes := []; db_calls := 0; classify_calls := 0; summary_calls := 0 |}.

Definition upload_request : UploadRequest :=
  {| ur_files := [notice]; ur_project_id := None; ur_department := Some "SAFETY";
     ur_urgency_level := None; ur_user := officer |}.

End Scenario.

(** ** Log entries that report an anomaly *)

(** What [m], started in [w], has logged. *)
Definition new_logs {A} (m : M A) (w : World) : list LogEntry :=
  drop (length (logs w)) (logs (m w).1).

Module LogSpec.

(** An anomaly is reported at level [warn] or [error]. *)
Definition is_anomaly (e : LogEntry) : bool :=
  match level e with
  | LogInfo => false
  | LogWarn | LogError => true
  end.

Definition anomaly_logged {A} (m : M A) (w : World) : bool :=
  existsb is_anomaly (new_logs m w).

(** [text] opens with [opening]. *)
Fixpoint opens_with (opening text : string) : bool :=
  match opening with
  | EmptyString => true
  | String a opening' =>
      match text with
      | EmptyString => false
      | String b text' => Ascii.eqb a b && opens_with opening' text'
      end
  end.

(** The two lines by which [uploadDocuments] closes the handling of a file:
    the info line of a file that went through, the error line of one that
    did not. *)
Definition reports_upload (e : LogEntry) : bool :=
  match level e with
  | LogInfo => opens_with "Document uploaded: " (text e)
  | _ => false
  end.

Definition reports_failure (e : LogEntry) : bool :=
  match level e with
  | LogError => opens_with "Failed to process file " (text e)
  | _ => false
  end.

(** Any other line. *)
Definition inner_line (e : LogEntry) : Prop :=
  reports_upload e = false ∧ reports_failure e = false.

End LogSpec.

Module Library.

(** A table with three processed documents of two departments; the file
    of the first one is no longer on disk. *)
Definition drill : Doc.t :=
  Doc.mk 1 "2024-04-02_11aa22bb_fire_safety_drill.pdf" "fire_safety_drill.pdf" 2048
    "application/pdf" "/srv/uploads/documents/safety/2024-04-02_11aa22bb_fire_safety_drill.pdf"
    EmptyString None "SAFETY" 7 "routine" completed
    (Some "safety&training") (Some 9000%Z) (Some "Quarterly fire drill schedule")
    (Some 6000%Z) (Some ["fire"; "drill"]).

Definition budget : Doc.t :=
  Doc.mk 2 "2024-04-03_33cc44dd_budget.xlsx" "budget.xlsx" 4096
    "application/vnd.openxmlformats-officedocument.spreadsheetml.sheet"
    "/srv/uploads/documents/finance/2024-04-03_33cc44dd_budget.xlsx"
    EmptyString None "FINANCE" 9 "priority" completed
    (Some "finance&procurement") (Some 8500%Z) (Some "Safety equipment budget")
    (Some 6000%Z) (Some ["budget"; "safety"]).

Definition manual : Doc.t :=
  Doc.mk 3 "2024-04-04_55ee66ff_Safety_manual.pdf" "Safety_manual.pdf" 1024
    "application/pdf" "/srv/uploads/documents/safety/2024-04-04_55ee66ff_Safety_manual.pdf"
    EmptyString None "SAFETY" 7 "urgent" completed
    (Some "safety&training") (Some 9000%Z) (Some "Station safety manual, safety rules")
    (Some 6000%Z) (Some ["safety"; "station safety"]).

Definition world : World :=
  {| disk := {[ Doc.file_path budget := [Byte.x50; Byte.x4b];
                Doc.file_path manual := [Byte.x25; Byte.x50] ]};
     documents := [drill; budget; manual]; next_id := 4; logs := [];
     status_writes := []; db_calls := 0; classify_calls := 0; summary_calls := 0 |}.


End Library.

(** ** Vocabulary of the proofs *)

(** [m] keeps [R] between the state it starts in and the one it leaves. *)
Definition preserves (R : relation World) {A} (m : M A) : Prop :=
  ∀ w, R w (m w).1.

(** A field that is the same before and after. *)
Definition same {X} (field : World → X) : relation World :=
  λ w w', field w' = field w.

(** The log has grown, by entries that satisfy [P] only. *)
Definition log_grows (P : LogEntry → Prop) : relation World :=
  λ w w', ∃ l, logs w' = logs w ++ l ∧ Forall P l.

(** [m] never throws. *)
Definition total {A} (m : M A) : Prop := ∀ w, ∃ a, (m w).2 = Ok a.


(** [m] appends some list [l] to a trace of the state (the status writes,
    the log), and [Q] relates [l] to the way [m] ends. *)
Definition emits {X} (trace : World → list X) {A} (m : M A)
    (Q : list X → Outcome A → Prop) : Prop :=
  ∀ w, ∃ l, trace (m w).1 = trace w ++ l ∧ Q l (m w).2.


(** A store update writes at most the status it carries, and nothing when
    it throws. *)
Definition writes_at_most (w : nat * Status) {A} : list (nat * Status) → Outcome A → Prop :=
  λ l o, match o with
         | Ok _ => l = [] ∨ l = [w]
         | Threw _ => l = []
         end.


(** Everything but the three store writes leaves the table as it is. *)
Definition table_fields_kept {A} (m : M A) : Prop :=
  preserves (same documents) m ∧ preserves (same next_id) m ∧
  preserves (same status_writes) m.






Definition deleted_line (user : User.t) (d : Doc.t) : LogEntry :=
  {| level := LogInfo;
     text := "Document deleted: " ++ Doc.original_filename d ++ " by user " ++ User.email user |}.


(** How the handling of one file ends: the entry is pushed and the info
    line written, or nothing is pushed and the error line written. *)
Definition one_outcome (acc : list UploadedDocument) (l : list LogEntry)
    (o : Outcome (list UploadedDocument)) : Prop :=
  ∃ docs, o = Ok docs ∧
    ((∃ x, docs = acc ++ [x]) ∧ count LogSpec.reports_upload l = 1 ∧ count LogSpec.reports_failure l = 0
     ∨ docs = acc ∧ count LogSpec.reports_upload l = 0 ∧ count LogSpec.reports_failure l = 1).


(** The disk is as it was, or the file under [src] has moved to [dst]. *)
Definition moved (src dst : string) : relation World :=
  λ w w', disk w' = disk w
          ∨ ∃ c, disk w !! src = Some c ∧ disk w' = <[dst := c]> (delete src (disk w)).

(** Where [processDocument] puts the file stored under [p]. *)
Definition queued (env : Env) (p : string) : string :=
  Path.join (DocumentProcessor.mlQueueDir env) (Path.basename p).

Fixpoint slash_free (s : string) : bool :=
  match s with
  | EmptyString => true
  | String c s' => negb (Ascii.eqb c Path.slash) && slash_free s'
  end.

(** The base name of the stored file. *)
Definition stored_as (file : File.t) : string := Path.basename (File.path file).

(** The [message] of the 201 answer. *)
Definition uploaded_message (n : nat) : string :=
  (pretty n ++ " document(s) uploaded successfully")%string.

(** [m], started in a state that satisfies [P], ends in a state and with an
    outcome related by [Q]. *)
Definition hoare {A} (P : World → Prop) (m : M A) (Q : Outcome A → World → Prop) : Prop :=
  ∀ w, P w → Q (m w).2 (m w).1.

(** The table is [front] followed by the one row [r], and the next
    identifier is [n]. *)
Definition last_row (front : list Doc.t) (n : nat) (r : Doc.t) (w : World) : Prop :=
  documents w = front ++ [r] ∧ next_id w = n.

(** A row the enrichment has not written to. *)
Definition unscored (r : Doc.t) : Prop :=
  Doc.classification_confidence r = None ∧ Doc.summary_confidence r = None.


(** The identifiers in use are below the next one of the sequence. *)
Definition ids_below (w : World) : Prop :=
  Forall (λ d, Doc.id d < next_id w) (documents w).

(** Every SQL statement goes through. *)
Definition database_up (env : Env) : Prop := ∀ n, db_up env n = true.

(** No call to the AI service is answered. *)
Definition ai_unreachable (env : Env) : Prop :=
  (∀ n, ∃ reason, classify_reply env n = Rejected reason)
  ∧ (∀ n, ∃ reason, summary_reply env n = Rejected reason).

(** Every character of [s] satisfies [P]. *)
Fixpoint all_chars (P : ascii → bool) (s : string) : bool :=
  match s with
  | EmptyString => true
  | String c s' => P c && all_chars P s'
  end.

Definition is_digit (c : ascii) : bool :=
  let n := nat_of_ascii c in (48 <=? n)%nat && (n <=? 57)%nat.

(** The characters of a date stamp [YYYY-MM-DD]. *)
Definition is_date_char (c : ascii) : bool := is_digit c || Ascii.eqb c "-".

(** The characters of the head of a UUID: lower-case hexadecimal digits. *)
Definition is_hex_char (c : ascii) : bool :=
  let n := nat_of_ascii c in is_digit c || ((97 <=? n)%nat && (n <=? 102)%nat).

(** The characters in front of the safe name in a stored file name. *)
Definition is_prefix_char (c : ascii) : bool :=
  is_date_char c || is_hex_char c || Ascii.eqb c "_".

(** [word] cannot begin inside a run of prefix characters and end inside
    it or in the [rest] that follows the run.  [word_from] is the part of
    the word that is left once its head lies in the run. *)
Fixpoint cannot_end (rest word_from : string) : bool :=
  negb (String.prefix word_from rest) &&
  match word_from with
  | EmptyString => true
  | String c word' => if is_prefix_char c then cannot_end rest word' else true
  end.

Definition cannot_begin (rest word : string) : bool :=
  match word with
  | EmptyString => false
  | String c word' => if is_prefix_char c then cannot_end rest word' else true
  end.

(** The words the three rules in front of the safety rule look for in a
    file name. *)
Definition earlier_words : list string :=
  ["maintenance"; "inspection"; "repair"; "operation"; "schedule";
   "bill"; "invoice"; "purchase"; "budget"; "financial"; "audit";
   "compliance"; "regulation"; "standard"].

(** The object literal [upload_one] builds for [DocumentModel.create]. *)
Definition document_data (req : UploadRequest) (department : string) (file : File.t)
    : documentData :=
  {| dd_filename := File.filename file;
     dd_original_filename := File.originalname file;
     dd_file_size := File.size file;
     dd_mime_type := File.mimetype file;
     dd_file_path := File.path file;
     dd_file_hash := EmptyString;
     dd_project_id :=
       match DocumentController.if_truthy (ur_project_id req) with
       | Some p => Some (ParseInt.parseInt p)
       | None => None
       end;
     dd_department := department;
     dd_uploaded_by := User.id (ur_user req);
     dd_urgency_level := DocumentController.truthy_or (ur_urgency_level req) "routine";
     dd_processing_status := pending |}.


(** The row after an enrichment that had to fall back on the local rules
    for both calls. *)
Definition enriched_offline (env : Env) (p : string) (r0 : Doc.t) : Doc.t :=
  DocumentModel.apply_update
    (ProcessingQueue.combined_results
       (AIService.fallbackClassification EmptyString p None)
       (AIService.fallbackSummary env EmptyString p))
    (DocumentModel.apply_update (status_only processing) r0).

(** The number a [DECIMAL(5,4)] column holds. *)
Definition decimal_value (z : Z) : Q := z # 10000.

(** A confidence column that is [NULL] or holds a number of [0, 1]. *)
Definition in_unit_interval (c : option Z) : Prop :=
  ∀ z, c = Some z → (0 <= decimal_value z)%Q ∧ (decimal_value z <= 1)%Q.

(** Every record's two confidences, when present, lie in [0, 1]. *)
Definition confidences_in_range (w : World) : Prop :=
  Forall (λ d, in_unit_interval (Doc.classification_confidence d)
               ∧ in_unit_interval (Doc.summary_confidence d))
    (documents w).

(** [confidences_in_range] holds after if it held before. *)
Definition keeps_range : relation World :=
  λ w w', confidences_in_range w → confidences_in_range w'.

(** A computation that writes no status. *)
Abbreviation silent := (preserves (same status_writes)).

(** ** controllers/DocumentController: the helpers of the summary route *)

(** The [aiSummary] object of [getDocumentSummary], with the fields its
    helpers read. *)
Record AiSummary := {
  as_keywords : option (list string);
  as_document_type : option string;
  as_compliance_tags : option (list string);
  as_related_departments : option (list string)
}.

Module DocumentInsights.

(** [Math.ceil((fileSize / (1024 * 1024)) * 5)].  For a size below 2^50 the
    division by a power of two and the product by 5 are exact in double
    precision, so the result is the ceiling of the rational number. *)
Definition minutes_of (fileSize : N) : N :=
  ((fileSize * 5 + 1048575) / 1048576)%N.

Definition estimateReadTime (fileSize : N) : string :=
  let minutes := minutes_of fileSize in
  if (minutes <? 60)%N then (pretty minutes ++ " min")%string
  else (pretty (minutes / 60)%N ++ "h " ++ pretty (minutes mod 60)%N ++ "m")%string.

Definition categorizeDocument (document : Doc.t) : string :=
  let filename := Js.toLowerCase (Doc.original_filename document) in
  if Js.includes filename "safety" || Js.includes filename "emergency"
  then "Safety Critical"
  else if Js.includes filename "maintenance" || Js.includes filename "inspection"
  then "Maintenance"
  else if Js.includes filename "drawing" || Js.includes filename "design"
  then "Engineering"
  else if Js.includes filename "invoice" || Js.includes filename "bill"
          || Js.includes filename "payment"
  then "Financial"
  else if Js.includes filename "policy" || Js.includes filename "procedure"
  then "Administrative"
  else if Js.includes filename "training" || Js.includes filename "manual"
  then "Training Material"
  else "General Document".

(** The [switch] on [document.urgency_level]: no case, no points. *)
Definition urgency_points (urgency_level : string) : nat :=
  if String.eqb urgency_level "critical" then 10
  else if String.eqb urgency_level "urgent" then 7
  else if String.eqb urgency_level "priority" then 5
  else if String.eqb urgency_level "routine" then 2
  else 0.

Definition safetyKeywords : list string :=
  ["safety"; "emergency"; "critical"; "urgent"; "compliance"].

Definition calculatePriorityScore (document : Doc.t) (aiSummary : AiSummary) : nat :=
  let score := 0 in
  let score := score + urgency_points (Doc.urgency_level document) in
  let score :=
    match as_compliance_tags aiSummary with
    | Some compliance_tags =>
        if (0 <? length compliance_tags)%nat then score + length compliance_tags * 2
        else score
    | None => score
    end in
  let score :=
    match as_keywords aiSummary with
    | Some keywords =>
        DocumentController.forEach keywords
          (λ keyword score,
             if existsb (λ sk, Js.includes (Js.toLowerCase keyword) sk) safetyKeywords
             then score + 3 else score)
          score
    | None => score
    end in
  Nat.min score 100.

(** [recommendations.push(...)] under a condition. *)
Definition push_if (b : bool) (items recommendations : list string) : list string :=
  if b then recommendations ++ items else recommendations.

(** [Array.prototype.join(', ')]. *)
Definition join_comma (l : list string) : string := String.concat ", " l.

Definition getSharingRecommendations (document : Doc.t) (aiSummary : AiSummary)
    : list string :=
  let recommendations := [] in
  let recommendations :=
    push_if (bool_decide (as_document_type aiSummary = Some "SAFETY_NOTICE"))
      ["Share with all station controllers"; "Add to safety training materials"]
      recommendations in
  let recommendations :=
    push_if (bool_decide (as_document_type aiSummary = Some "MAINTENANCE_REPORT"))
      ["Forward to preventive maintenance team"; "Archive in maintenance knowledge base"]
      recommendations in
  let recommendations :=
    match as_related_departments aiSummary with
    | Some related_departments =>
        push_if (0 <? length related_departments)%nat
          [("Notify: " ++ join_comma related_departments)%string]
          recommendations
    | None => recommendations
    end in
  take 3 recommendations.

Definition kmrlTerms : list string :=
  ["safety protocol"; "maintenance report"; "engineering drawing";
   "vendor invoice"; "board meeting"; "track inspection";
   "electrical system"; "rolling stock"; "emergency procedure";
   "monsoon operations"; "fire safety"; "passenger safety";
   "procurement order"; "budget allocation"; "training manual"].

(** [term.split(' ')[0]]: the text before the first space. *)
Fixpoint first_word (term : string) : string :=
  match term with
  | EmptyString => EmptyString
  | String c s => if Ascii.eqb c " " then EmptyString else String c (first_word s)
  end.

(** The test of the [forEach] over the terms. *)
Definition suggests (queryLower term : string) : bool :=
  let firstWord := first_word term in
  negb (String.eqb firstWord EmptyString)
  && (Js.includes term queryLower || Js.includes queryLower firstWord).

Definition generateSearchSuggestions (query : string) : list string :=
  let queryLower := Js.toLowerCase query in
  let suggestions :=
    fold_left
      (λ suggestions term,
         if suggests queryLower term then suggestions ++ [term] else suggestions)
      kmrlTerms [] in
  take 5 suggestions.

(** The [aiSummary] that [getDocumentSummary] builds from a classification
    result. *)
Definition summary_of_result (aiResult : AIProcessingResult) : AiSummary :=
  {| as_keywords := keywords aiResult;
     as_document_type := document_type aiResult;
     as_compliance_tags := Some (default [] (compliance_flags aiResult));
     as_related_departments := Some (default [] (department_relevance aiResult)) |}.

End DocumentInsights.

(** ** utils/fileUpload: the file filter and the rest of [FileValidator] *)

Module FileFilter.

Definition allowedExtensions : list string :=
  [".pdf"; ".doc"; ".docx"; ".jpg"; ".jpeg"; ".png"; ".xlsx"; ".dwg"; ".dxf"; ".bmp"; ".tiff"].

(** [Array.prototype.includes] on strings. *)
Definition Array_includes (l : list string) (x : string) : bool :=
  existsb (String.eqb x) l.

(** multer's [fileFilter]: the file is taken, or the upload is refused with
    the error. *)
Definition fileFilter (originalname : string) : Outcome bool :=
  let fileExtension := Js.toLowerCase (Path.extname originalname) in
  if Array_includes allowedExtensions fileExtension then Ok true
  else Threw ("File type " ++ fileExtension ++ " is not supported. Allowed types: "
              ++ String.concat ", " allowedExtensions).

Definition isValidFileType (filename : string) : bool :=
  let extension := Js.toLowerCase (Path.extname filename) in
  Array_includes allowedExtensions extension.

(** A look-up in an object literal used as a table. *)
Fixpoint lookup_key (table : list (string * string)) (key : string) : option string :=
  match table with
  | [] => None
  | (k, v) :: rest => if String.eqb key k then Some v else lookup_key rest key
  end.

Definition mimeMap : list (string * string) :=
  [(".pdf", "application/pdf");
   (".doc", "application/msword");
   (".docx", "application/vnd.openxmlformats-officedocument.wordprocessingml.document");
   (".jpg", "image/jpeg");
   (".jpeg", "image/jpeg");
   (".png", "image/png");
   (".bmp", "image/bmp");
   (".tiff", "image/tiff");
   (".xlsx", "application/vnd.openxmlformats-officedocument.spreadsheetml.sheet");
   (".dwg", "application/acad");
   (".dxf", "application/dxf")].

Definition getMimeType (filename : string) : string :=
  let extension := Js.toLowerCase (Path.extname filename) in
  default "application/octet-stream"
    (Js.or_else (lookup_key mimeMap extension) (Some "application/octet-stream")).

End FileFilter.

(** ** middleware/auth *)

Module Auth.

(** [req.kmrlUser]. *)
Record KmrlUser := {
  userId : nat;
  username : string;
  ku_department : string;
  ku_role : string
}.

(** What a middleware does with a request: it calls [next()], or it
    answers with a status and a message. *)
Inductive Step := Next | Respond (code : nat) (msg : string).

(** How [jwt.verify] ends: the decoded claims, or one of the errors the
    middleware tells apart by name. *)
Inductive Verified :=
| Decoded (claims : KmrlUser)
| TokenExpiredError
| JsonWebTokenError
| OtherError (name : string).

(** [authHeader.startsWith('Bearer ')] and [authHeader.substring(7)]. *)
Fixpoint startsWith (s start : string) {struct start} : bool :=
  match start, s with
  | EmptyString, _ => true
  | String a start', String c s' => Ascii.eqb a c && startsWith s' start'
  | String _ _, EmptyString => false
  end.

Fixpoint substring_from (n : nat) (s : string) : string :=
  match n, s with
  | 0, _ => s
  | S n', String _ s' => substring_from n' s'
  | S _, EmptyString => EmptyString
  end.

(** [authenticateToken]: the step, the user it attaches to the request and
    what it logs. *)
Definition authenticateToken (verify : string → Verified) (authorization : option string)
    : Step * option KmrlUser * list LogEntry :=
  match authorization with
  | Some authHeader =>
      if negb (String.eqb authHeader EmptyString) && startsWith authHeader "Bearer "
      then
        let token := substring_from 7 authHeader in
        match verify token with
        | Decoded decoded => (Next, Some decoded, [])
        | TokenExpiredError => (Respond 401 "Token has expired", None, [])
        | JsonWebTokenError => (Respond 401 "Invalid token", None, [])
        | OtherError name =>
            (Respond 500 "Authentication error", None,
             [{| level := LogError; text := "Auth middleware error: " ++ name |}])
        end
      else (Respond 401 "Authorization header with Bearer token required", None, [])
  | None => (Respond 401 "Authorization header with Bearer token required", None, [])
  end.

Definition requireRole (allowedRoles : list string) (kmrlUser : option KmrlUser) : Step :=
  match kmrlUser with
  | None => Respond 401 "Authentication required"
  | Some user =>
      if negb (FileFilter.Array_includes allowedRoles (ku_role user))
      then Respond 403 "Insufficient permissions"
      else Next
  end.

Definition requireDepartment (allowedDepartments : list string)
    (kmrlUser : option KmrlUser) : Step :=
  match kmrlUser with
  | None => Respond 401 "Authentication required"
  | Some user =>
      if negb (FileFilter.Array_includes allowedDepartments (ku_department user))
      then Respond 403 "Department access denied"
      else Next
  end.

Definition requireAdmin : option KmrlUser → Step := requireRole ["director"; "manager"].

Definition requireManager : option KmrlUser → Step :=
  requireRole ["director"; "manager"; "senior_officer"].

(** A route behind [authenticateToken] and then a second middleware: the
    second one runs only when the first has called [next()]. *)
Definition behind (verify : string → Verified) (guard : option KmrlUser → Step)
    (authorization : option string) : Step :=
  match authenticateToken verify authorization with
  | (Next, kmrlUser, _) => guard kmrlUser
  | (answer, _, _) => answer
  end.

End Auth.

(** A character other than the ['_'] that separates the parts of a stored
    name. *)
Definition is_part_char (c : ascii) : bool := negb (Ascii.eqb c "_").

(** The seven labels of the local classification rules. *)
Definition fallback_labels : list string :=
  ["maintenance&operation"; "finance&procurement"; "compliance&regulatory";
   "safety&training"; "humanresources"; "legal&governance"; "general communication"].

(** The three confidences of the local classification rules. *)
Definition fallback_confidences : list Q := [60 # 100; 85 # 100; 90 # 100].

(** What [extractMetadata] reports for the file stored under [p] with the
    content [c]. *)
Definition metadata_of (env : Env) (p : string) (c : list Byte.byte) : Metadata :=
  {| md_size := length c;
     md_type := FileValidator.getFileType p;
     md_extension := Js.toLowerCase (Path.extname p);
     md_originalName := Path.basename p;
     md_hash := sha256 env c |}.

(** A file that is not there, or is there without content. *)
Definition no_content (w : World) (p : string) : Prop :=
  disk w !! p = None ∨ disk w !! p = Some [].

(** A record as the processing leaves it when both calls to the AI service
    fall back on the local rules: completed, labelled by the rules from its
    own path, with the confidence of the rule and the summary confidence
    0.6000. *)
Definition labelled_offline (r : Doc.t) : Prop :=
  Doc.processing_status r = completed
  ∧ Doc.ai_classification r
    = document_type (AIService.fallbackClassification EmptyString (Doc.file_path r) None)
  ∧ (∃ z, Doc.classification_confidence r = Some z ∧ In z [6000; 8500; 9000]%Z)
  ∧ Doc.summary_confidence r = Some 6000%Z
  ∧ Doc.ai_summary r
    = Some ("Document summary for " ++ Path.basename (Doc.file_path r))%string.

(** An [id] route parameter that is missing, or does not start with a
    number. *)
Definition malformed_id (idParam : option string) : Prop :=
  DocumentController.if_truthy idParam = None
  ∨ ∃ s, DocumentController.if_truthy idParam = Some s
         ∧ ParseInt.parseInt s = ParseInt.NaN.

(** The message of the 400 answer to such a parameter. *)
Definition malformed_id_message (idParam : option string) : string :=
  match DocumentController.if_truthy idParam with
  | None => "Document ID is required"
  | Some _ => "Invalid document ID"
  end.

(** The user may read the record: an admin, or someone of its department. *)
Definition may_read (user : User.t) (d : Doc.t) : Prop :=
  User.role user = "admin" ∨ Doc.department d = User.department user.

(** The user may delete the record: an admin, or its uploader. *)
Definition may_delete (user : User.t) (d : Doc.t) : Prop :=
  User.role user = "admin" ∨ Doc.uploaded_by d = User.id user.

(** The entry of the upload response for a file of the request. *)
Definition entry_of (req : UploadRequest) (department : string) (file : File.t)
    (e : UploadedDocument) : Prop :=
  ud_filename e = File.filename file
  ∧ ud_original_filename e = File.originalname file
  ∧ ud_file_size e = File.size file
  ∧ ud_mime_type e = File.mimetype file
  ∧ ud_department e = department
  ∧ ud_urgency_level e = DocumentController.truthy_or (ur_urgency_level req) "routine"
  ∧ ud_processing_status e = pending.

(** The ways a delete request ends. *)
Inductive delete_run (env : Env) (user : User.t) (idParam : option string) (w : World)
    : World → Json unit → Prop :=
| delete_malformed :
    malformed_id idParam →
    delete_run env user idParam w w (json_fail 400 (malformed_id_message idParam) None)
| delete_lookup_failed s z w' e :
    idParam = Some s → ParseInt.parseInt s = ParseInt.Num z →
    db_up env (db_calls w) = false →
    documents w' = documents w → disk w' = disk w →
    delete_run env user idParam w w' (json_fail 500 "Failed to delete document" (Some e))
| delete_not_found s z :
    idParam = Some s → ParseInt.parseInt s = ParseInt.Num z →
    List.find (DocumentModel.has_id z) (documents w) = None →
    delete_run env user idParam w (tick_db w) (json_fail 404 "Document not found" None)
| delete_denied s z d :
    idParam = Some s → ParseInt.parseInt s = ParseInt.Num z →
    List.find (DocumentModel.has_id z) (documents w) = Some d →
    ¬ may_delete user d →
    delete_run env user idParam w (tick_db w)
      (json_fail 403 "Access denied - you can only delete your own documents" None)
| delete_statement_failed s z d w' e :
    idParam = Some s → ParseInt.parseInt s = ParseInt.Num z →
    List.find (DocumentModel.has_id z) (documents w) = Some d →
    may_delete user d →
    db_up env (db_calls w) = true → db_up env (S (db_calls w)) = false →
    documents w' = documents w → disk w' = delete (Doc.file_path d) (disk w) →
    delete_run env user idParam w w' (json_fail 500 "Failed to delete document" (Some e))
| delete_done s z d w' :
    idParam = Some s → ParseInt.parseInt s = ParseInt.Num z →
    List.find (DocumentModel.has_id z) (documents w) = Some d →
    may_delete user d →
    documents w' = List.filter (λ d, negb (DocumentModel.has_id z d)) (documents w) →
    disk w' = delete (Doc.file_path d) (disk w) →
    db_calls w' = S (S (db_calls w)) →
    delete_run env user idParam w w'
      {| status := 200; success := true;
         message := Some "Document deleted successfully";
         error := None; payload := Some tt |}.

(** ** models/InMemoryDocument: the in-memory store of the demo backend *)

Module InMemoryDocument.

(** A stored document (the upload date left out). *)
Record Document := {
  id : nat;
  filename : string;
  department : string;
  extracted_text : option string;
  validation_status : string
}.

(** The two module variables, [documents] and [nextId]. *)
Record Store := {
  documents : list Document;
  nextId : nat
}.

(** The module as it is loaded. *)
Definition initial : Store := {| documents := []; nextId := 1 |}.

Record documentData := {
  dd_filename : string;
  dd_department : string;
  dd_extracted_text : option string
}.

Definition create (data : documentData) (s : Store) : Document * Store :=
  let document :=
    {| id := nextId s;
       filename := dd_filename data;
       department := dd_department data;
       extracted_text := dd_extracted_text data;
       validation_status := "pending" |} in
  (document, {| documents := documents s ++ [document]; nextId := S (nextId s) |}).

(** [s.substring(0, n)]. *)
Fixpoint substring_to (n : nat) (s : string) : string :=
  match n, s with
  | S n', String c s' => String c (substring_to n' s')
  | _, _ => EmptyString
  end.

(** [findAll]: every document with its [text_preview]. *)
Definition findAll (s : Store) : list (Document * string) :=
  List.map
    (λ doc, (doc,
             if Js.truthy (extracted_text doc)
             then substring_to 100 (default EmptyString (extracted_text doc))
             else EmptyString))
    (documents s).

(** [doc.id === parseInt(id)]: never true of [NaN]. *)
Definition is_id (parsed : ParseInt.number) (doc : Document) : bool :=
  match parsed with
  | ParseInt.Num z => (Z.of_nat (id doc) =? z)%Z
  | ParseInt.NaN => false
  end.

Definition findById (idParam : string) (s : Store) : option Document :=
  List.find (is_id (ParseInt.parseInt idParam)) (documents s).

Definition with_status (status : string) (doc : Document) : Document :=
  {| id := id doc; filename := filename doc; department := department doc;
     extracted_text := extracted_text doc; validation_status := status |}.

(** The first document with the identifier gets the status. *)
Fixpoint set_status (parsed : ParseInt.number) (status : string) (docs : list Document)
    : list Document :=
  match docs with
  | [] => []
  | doc :: rest =>
      if is_id parsed doc then with_status status doc :: rest
      else doc :: set_status parsed status rest
  end.

Definition updateValidationStatus (idParam status : string) (s : Store)
    : option Document * Store :=
  match List.find (is_id (ParseInt.parseInt idParam)) (documents s) with
  | Some doc =>
      (Some (with_status status doc),
       {| documents := set_status (ParseInt.parseInt idParam) status (documents s);
          nextId := nextId s |})
  | None => (None, s)
  end.

Record Stats := {
  total_documents : nat;
  storage_type : string;
  departments : list string;
  status_pending : nat;
  status_processed : nat;
  status_failed : nat
}.

(** [[...new Set(l)]]: the elements in the order of their first occurrence. *)
Fixpoint unique (seen l : list string) : list string :=
  match l with
  | [] => []
  | x :: rest =>
      if existsb (String.eqb x) seen then unique seen rest
      else x :: unique (x :: seen) rest
  end.

Definition with_validation_status (status : string) (doc : Document) : bool :=
  String.eqb (validation_status doc) status.

Definition getStats (s : Store) : Stats :=
  {| total_documents := length (documents s);
     storage_type := "in-memory";
     departments := unique [] (List.map department (documents s));
     status_pending := length (List.filter (with_validation_status "pending") (documents s));
     status_processed :=
       length (List.filter (with_validation_status "processed") (documents s));
     status_failed := length (List.filter (with_validation_status "failed") (documents s)) |}.

End InMemoryDocument.

(** The identifiers of the in-memory store are distinct and below the next
    one. *)
Definition in_memory_ids_fresh (s : InMemoryDocument.Store) : Prop :=
  NoDup (List.map InMemoryDocument.id (InMemoryDocument.documents s))
  ∧ Forall (λ doc, InMemoryDocument.id doc < InMemoryDocument.nextId s)
      (InMemoryDocument.documents s).

(** What may follow the digits of an [id] parameter without changing the
    number [parseInt] reads: nothing, or text that opens with a character
    which is neither a digit nor the [x] of a hexadecimal prefix. *)
Definition trailing_text (rest : string) : Prop :=
  match rest with
  | EmptyString => True
  | String c _ => is_digit c = false ∧ c ≠ "x"%char ∧ c ≠ "X"%char
  end.

(** * Properties *)

(** ** Strings: white space, trimming and the pieces of a split *)

Section Splitting.













End Splitting.

(** ** Relevance score and ranking *)

Section Relevance.

Import DocumentController RelevanceSpec.

Lemma forEach_count {A} (P : A → bool) (k : nat) (l : list A) (score : nat) :
  forEach l (λ a score, if P a then score + k else score) score
  = score + k * count P l.
Proof.
  unfold forEach, count. revert score.
  induction l as [|a l IH]; intros score; simpl; [lia|].
  rewrite IH. destruct (P a); simpl; lia.
Qed.

Lemma count_app {A} (P : A → bool) (l1 l2 : list A) :
  count P (l1 ++ l2) = count P l1 + count P l2.
Proof. unfold count. by rewrite List.filter_app, length_app. Qed.



Lemma count_none {A} (P : A → bool) (l : list A) :
  Forall (λ a, P a = false) l → count P l = 0.
Proof.
  unfold count. induction 1 as [|a l Ha _ IH]; simpl; [done|]. by rewrite Ha.
Qed.




(** *** The stable sort *)

Lemma sort_insert_perm {A} (compare : A → A → Z) (x : A) (l : list A) :
  sort_insert compare x l ≡ₚ x :: l.
Proof.
  induction l as [|y l IH]; simpl; [done|].
  destruct (compare x y <=? 0)%Z; [done|]. rewrite IH. apply Permutation_swap.
Qed.

Lemma Array_sort_perm {A} (compare : A → A → Z) (l : list A) :
  Array_sort compare l ≡ₚ l.
Proof.
  induction l as [|x l IH]; simpl; [done|]. by rewrite sort_insert_perm, IH.
Qed.






End Relevance.

(** ** Reasoning about effects *)

#[global] Instance same_preorder {X} (field : World → X) : PreOrder (same field).
Proof. split; [by intros w|]. intros w1 w2 w3 H1 H2. unfold same in *. congruence. Qed.

#[global] Instance log_grows_preorder (P : LogEntry → Prop) : PreOrder (log_grows P).
Proof.
  split.
  - intros w. exists []. by rewrite app_nil_r.
  - intros w1 w2 w3 (l1 & H1 & F1) (l2 & H2 & F2). exists (l1 ++ l2). split.
    + by rewrite H2, H1, app_assoc.
    + by apply Forall_app.
Qed.

Section Preservation.

Context (R : relation World) `{!PreOrder R}.

Lemma preserves_ret {A} (a : A) : preserves R (ret a).
Proof. by intros w. Qed.

Lemma preserves_throw {A} (e : string) : preserves R (@throw A e).
Proof. by intros w. Qed.

Lemma preserves_bind {A B} (m : M A) (k : A → M B) :
  preserves R m → (∀ a, preserves R (k a)) → preserves R (bind m k).
Proof.
  intros Hm Hk w. unfold bind. specialize (Hm w).
  destruct (m w) as [w1 [a|e]]; simpl in *; [|done].
  by etransitivity; [|apply Hk].
Qed.

Lemma preserves_try {A} (m : M A) (h : string → M A) :
  preserves R m → (∀ e, preserves R (h e)) → preserves R (try_catch m h).
Proof.
  intros Hm Hh w. unfold try_catch. specialize (Hm w).
  destruct (m w) as [w1 [a|e]]; simpl in *; [done|].
  by etransitivity; [|apply Hh].
Qed.

Lemma preserves_when (b : bool) (m : M unit) :
  preserves R m → preserves R (when_ b m).
Proof. destruct b; simpl; [done|]. intros _. apply preserves_ret. Qed.

Lemma preserves_statement {A} (env : Env) (run : M A) :
  (∀ w, R w (tick_db w)) → preserves R run →
  preserves R (DocumentModel.statement env run).
Proof.
  intros Ht Hr w. unfold DocumentModel.statement.
  destruct (db_up env (db_calls w)); simpl; [|apply Ht].
  etransitivity; [apply Ht|apply Hr].
Qed.

End Preservation.

Lemma total_ret {A} (a : A) : total (ret a).
Proof. intros w. by exists a. Qed.

Lemma total_bind {A B} (m : M A) (k : A → M B) :
  total m → (∀ a, total (k a)) → total (bind m k).
Proof.
  intros Hm Hk w. unfold bind. destruct (Hm w) as [a Ha].
  destruct (m w) as [w1 o]; simpl in *; subst o. apply Hk.
Qed.

Lemma total_try {A} (m : M A) (h : string → M A) :
  (∀ e, total (h e)) → total (try_catch m h).
Proof.
  intros Hh w. unfold try_catch. destruct (m w) as [w1 [a|e]]; [by exists a|apply Hh].
Qed.

Lemma total_log (l : LogLevel) (msg : string) : total (log_line l msg).
Proof. intros w. by exists tt. Qed.

(** One step of a preservation proof: split the computation at its binds,
    handlers and case distinctions. *)
Ltac keeps_step :=
  first
    [ apply preserves_ret; apply _
    | apply preserves_throw; apply _
    | apply preserves_bind; [apply _| |intros ?]
    | apply preserves_try; [apply _| |intros ?]
    | apply preserves_when; [apply _|]
    | apply preserves_statement; [apply _|intros ?|]
    | match goal with
      | |- preserves _ (match ?x with _ => _ end) => destruct x
      | |- preserves _ (let '(_, _) := ?x in _) => destruct x
      end ].

(** A primitive keeps a field it does not assign. *)
Ltac keeps_field :=
  let w := fresh "w" in
  intros w; unfold same;
  cbv [fs.existsSync fs.readFileSync fs.statSync_size fs.renameSync fs.unlinkSync
       log_line logger.info logger.warn logger.error
       AIService.post_classification AIService.post_summary];
  repeat match goal with
         | |- context [match ?x with _ => _ end] => destruct x
         end;
  reflexivity.

Create HintDb keeps discriminated.

Ltac keeps := repeat keeps_step; eauto with keeps; try solve [keeps_field | reflexivity].

(** ** What the components leave alone *)

Section Components.

Context (env : Env).

Lemma log_line_keeps {X} (field : World → X) (l : LogLevel) (msg : string) :
  (∀ w, field (log_line l msg w).1 = field w) →
  preserves (same field) (log_line l msg).
Proof. intros H w. apply H. Qed.

Lemma generateFileHash_table (p : string) :
  table_fields_kept (DocumentProcessor.generateFileHash env p).
Proof. repeat split; unfold DocumentProcessor.generateFileHash; keeps. Qed.

Lemma extractMetadata_table (p : string) :
  table_fields_kept (DocumentProcessor.extractMetadata env p).
Proof.
  repeat split; unfold DocumentProcessor.extractMetadata,
    DocumentProcessor.generateFileHash; keeps.
Qed.

Lemma prepare_table (p : string) :
  table_fields_kept (DocumentProcessor.prepareDocumentForMLProcessing env p).
Proof.
  repeat split; unfold DocumentProcessor.prepareDocumentForMLProcessing,
    DocumentProcessor.validateDocument, DocumentProcessor.moveToProcessingQueue,
    DocumentProcessor.extractMetadata, DocumentProcessor.generateFileHash; keeps.
Qed.

Lemma classifyDocument_table (text p : string) :
  table_fields_kept (AIService.classifyDocument env text p).
Proof. repeat split; unfold AIService.classifyDocument; keeps. Qed.

Lemma generateSummary_table (text p : string) (t : option string) :
  table_fields_kept (AIService.generateSummary env text p t).
Proof. repeat split; unfold AIService.generateSummary; keeps. Qed.

End Components.

(** ** The status writes of one processing run *)

Section Emission.

Context {X : Type} (trace : World → list X).

Lemma emits_silent {A} (m : M A) (Q : list X → Outcome A → Prop) :
  preserves (same trace) m → (∀ o, Q [] o) → emits trace m Q.
Proof.
  intros Hm HQ w. exists []. rewrite app_nil_r. split; [apply Hm|apply HQ].
Qed.

Lemma emits_bind {A B} (m : M A) (k : A → M B) Q1 Q2
    (Q : list X → Outcome B → Prop) :
  emits trace m Q1 → (∀ a, emits trace (k a) (Q2 a)) →
  (∀ l e, Q1 l (Threw e) → Q l (Threw e)) →
  (∀ a l1 l2 o, Q1 l1 (Ok a) → Q2 a l2 o → Q (l1 ++ l2) o) →
  emits trace (bind m k) Q.
Proof.
  intros Hm Hk Hthrew Hok w. unfold bind.
  destruct (Hm w) as (l1 & E1 & H1). destruct (m w) as [w1 [a|e]]; simpl in *.
  - destruct (Hk a w1) as (l2 & E2 & H2). exists (l1 ++ l2). split.
    + by rewrite E2, E1, app_assoc.
    + by eapply Hok.
  - exists l1. split; [done|]. by apply Hthrew.
Qed.

Lemma emits_try {A} (m : M A) (h : string → M A) Q1 Q2
    (Q : list X → Outcome A → Prop) :
  emits trace m Q1 → (∀ e, emits trace (h e) (Q2 e)) →
  (∀ l a, Q1 l (Ok a) → Q l (Ok a)) →
  (∀ e l1 l2 o, Q1 l1 (Threw e) → Q2 e l2 o → Q (l1 ++ l2) o) →
  emits trace (try_catch m h) Q.
Proof.
  intros Hm Hh Hok Hthrew w. unfold try_catch.
  destruct (Hm w) as (l1 & E1 & H1). destruct (m w) as [w1 [a|e]]; simpl in *.
  - exists l1. split; [done|]. by apply Hok.
  - destruct (Hh e w1) as (l2 & E2 & H2). exists (l1 ++ l2). split.
    + by rewrite E2, E1, app_assoc.
    + by eapply Hthrew.
Qed.

Lemma emits_weaken {A} (m : M A) (Q Q' : list X → Outcome A → Prop) :
  emits trace m Q → (∀ l o, Q l o → Q' l o) → emits trace m Q'.
Proof. intros Hm HQ w. destruct (Hm w) as (l & E & H). exists l. eauto. Qed.

(** Silent steps in front of, and behind, a computation. *)
Lemma emits_after {A B} (m : M A) (k : A → M B)
    (Q : list X → Outcome B → Prop) :
  preserves (same trace) m → (∀ a, emits trace (k a) Q) →
  (∀ e, Q [] (Threw e)) → emits trace (bind m k) Q.
Proof.
  intros Hm Hk HQ.
  eapply emits_bind with (Q1 := λ l _, l = []) (Q2 := λ _, Q);
    [by apply emits_silent|done|by intros l e ->|by intros a l1 l2 o ->].
Qed.

Lemma emits_before {A B} (m : M A) (k : A → M B)
    (Q : list X → Outcome A → Prop)
    (Q' : list X → Outcome B → Prop) :
  emits trace m Q → (∀ a, preserves (same trace) (k a)) → (∀ a, total (k a)) →
  (∀ l e, Q l (Threw e) → Q' l (Threw e)) →
  (∀ l a b, Q l (Ok a) → Q' l (Ok b)) → emits trace (bind m k) Q'.
Proof.
  intros Hm Hk Ht Hthrew Hok w. unfold bind.
  destruct (Hm w) as (l & E & H). destruct (m w) as [w1 [a|e]]; simpl in *.
  - exists l. destruct (Ht a w1) as [b Hb]. rewrite Hb. split; [|by eapply Hok].
    rewrite <- E. apply Hk.
  - exists l. split; [done|]. by apply Hthrew.
Qed.

End Emission.

(** Sub-sequences of a short list of stages. *)
Ltac stages :=
  subst; simpl;
  solve [ eauto 8 using sublist_nil_l, sublist_skip, sublist_cons ].

(** Every sub-sequence of the explicit list in [H], one goal each. *)
Ltac sublists H :=
  repeat first
    [ apply sublist_nil_r in H as ->
    | apply sublist_cons_r in H as [H|(? & -> & H)] ].

Section StatusWrites.

Context (env : Env).

Lemma update_emits (id : nat) (u : AIProcessingUpdate) (s : Status) :
  up_processing_status u = Some s →
  emits status_writes (DocumentModel.updateAIProcessingResults env id u) (writes_at_most (id, s)).
Proof.
  intros Hs w. unfold DocumentModel.updateAIProcessingResults, DocumentModel.statement.
  destruct (db_up env (db_calls w)); simpl; [|exists []; by rewrite app_nil_r].
  destruct (forallb _ _); simpl; [|exists []; by rewrite app_nil_r].
  rewrite Hs. destruct (existsb _ _); eexists; split; try reflexivity; simpl; auto.
Qed.


Lemma classifyDocument_silent (text p : string) :
  silent (AIService.classifyDocument env text p).
Proof. apply classifyDocument_table. Qed.

Lemma generateSummary_silent (text p : string) (t : option string) :
  silent (AIService.generateSummary env text p t).
Proof. apply generateSummary_table. Qed.

Variables (id : nat) (path : string).

(** The enrichment attempt: [processing], then [completed] when nothing
    throws. *)
Lemma enrich_emits :
  emits status_writes (ProcessingQueue.enrich env id path)
    (λ l o, match o with
            | Ok _ => l `sublist_of` [(id, processing); (id, completed)]
            | Threw _ => l `sublist_of` [(id, processing)]
            end).
Proof.
  unfold ProcessingQueue.enrich.
  eapply emits_bind with
    (Q2 := λ _ l o, match o with
                    | Ok _ => l `sublist_of` [(id, completed)]
                    | Threw _ => l = []
                    end).
  - by apply (update_emits id (status_only processing) processing).
  - intros _. apply emits_after; [keeps_field| |done].
    intros _. apply emits_after; [apply classifyDocument_silent| |done].
    intros c. apply emits_after; [keeps_field| |done].
    intros _. apply emits_after; [apply generateSummary_silent| |done].
    intros s. eapply emits_before.
    + by apply (update_emits id (ProcessingQueue.combined_results c s) completed).
    + intros _. keeps_field.
    + intros _. apply total_log.
    + by intros l e ->.
    + intros l a b [->| ->]; [apply sublist_nil_l|done].
  - intros l e ->. apply sublist_nil_l.
  - intros _ l1 l2 o [->| ->]; destruct o; intros H; simpl; stages.
Qed.

(** The handler: [failed], then [completed] when the fall-back goes
    through. *)
Lemma fall_back_emits (aiError : string) :
  emits status_writes (ProcessingQueue.fall_back env id path aiError)
    (λ l _, l `sublist_of` [(id, failed); (id, completed)]).
Proof.
  unfold ProcessingQueue.fall_back.
  apply emits_after; [keeps_field| |intros; apply sublist_nil_l].
  intros _.
  eapply emits_bind with
    (Q2 := λ _ l _, l `sublist_of` [(id, completed)]).
  - by apply (update_emits id (status_only failed) failed).
  - intros _.
    eapply emits_try with
      (Q1 := λ l _, l `sublist_of` [(id, completed)])
      (Q2 := λ _ l _, l = []).
    + apply emits_after; [apply classifyDocument_silent| |intros; apply sublist_nil_l].
      intros c. eapply emits_before.
      * by apply (update_emits id (ProcessingQueue.fallback_results c) completed).
      * intros _. keeps_field.
      * intros _. apply total_log.
      * intros l e ->. apply sublist_nil_l.
      * intros l a b [->| ->]; stages.
    + intros e. apply emits_silent; [keeps|done].
    + done.
    + intros e l1 l2 o H ->. by rewrite app_nil_r.
  - intros l e ->. apply sublist_nil_l.
  - intros _ l1 l2 o [->| ->] H; stages.
Qed.

Lemma enrich_or_fall_back_emits :
  emits status_writes (try_catch (ProcessingQueue.enrich env id path)
           (ProcessingQueue.fall_back env id path))
    (λ l _, l `sublist_of` [(id, processing); (id, failed); (id, completed)]).
Proof.
  eapply emits_try; [apply enrich_emits|apply fall_back_emits| |].
  - intros l a H. simpl in H. sublists H; stages.
  - intros e l1 l2 o H1 H2. simpl in H1. sublists H1; stages.
Qed.

End StatusWrites.

Section StatusTheorems.

Lemma statuses_written_emitted {A} (m : M A) (w : World) (l : list (nat * Status)) :
  status_writes (m w).1 = status_writes w ++ l →
  statuses_written m w = List.map snd l.
Proof. intros E. unfold statuses_written. by rewrite E, drop_app_length. Qed.

Lemma processDocument_emits (env : Env) (data : ProcessingJobData) :
  emits status_writes (ProcessingQueue.processDocument env data)
    (λ l _, l `sublist_of`
              [(documentId data, processing); (documentId data, failed);
               (documentId data, completed)]).
Proof.
  unfold ProcessingQueue.processDocument.
  eapply emits_try with
    (Q1 := λ l _, l `sublist_of`
                    [(documentId data, processing); (documentId data, failed);
                     (documentId data, completed)])
    (Q2 := λ _ l _, l = []).
  - apply emits_after; [keeps_field| |intros e; apply sublist_nil_l].
    intros _. apply emits_after; [keeps_field| |intros e; apply sublist_nil_l].
    intros present. apply emits_after; [keeps| |intros e; apply sublist_nil_l].
    intros _. apply emits_after;
      [apply generateFileHash_table| |intros e; apply sublist_nil_l].
    intros _. apply emits_after;
      [apply extractMetadata_table| |intros e; apply sublist_nil_l].
    intros _. apply emits_after; [apply prepare_table| |intros e; apply sublist_nil_l].
    intros _. eapply emits_before.
    + apply enrich_or_fall_back_emits.
    + intros _. keeps_field.
    + intros _. apply total_log.
    + intros l e H. exact H.
    + intros l a b H. exact H.
  - intros e. apply emits_silent; [keeps|done].
  - intros l a H. exact H.
  - intros e l1 l2 o H ->. by rewrite app_nil_r.
Qed.

Lemma manual_trigger_silent (env : Env) (user : User.t) (idParam : option string) :
  preserves (same status_writes) (DocumentController.processDocument env user idParam).
Proof.
  unfold DocumentController.processDocument, DocumentController.with_document_id,
    DocumentModel.findById.
  keeps; apply classifyDocument_table.
Qed.

Lemma sublist_map_snd (l k : list (nat * Status)) :
  l `sublist_of` k → List.map snd l `sublist_of` List.map snd k.
Proof. apply (fmap_sublist snd). Qed.

End StatusTheorems.

(** C1, as stated, fails.  Upload of one file while the summary service
    reports a confidence of 1.5: the update that would store it is refused
    by the [CHECK] constraint, the handler writes [failed], the fall-back
    classification goes through and the same run then writes [completed]
    over it.  The statuses stored for the record are pending, processing,
    failed, completed, which is not a forward-only sequence. *)
Lemma failed_then_completed :
  statuses_written
    (DocumentController.uploadDocuments Scenario.overconfident Scenario.upload_request)
    (Scenario.after_multer Scenario.notice_bytes)
  = [pending; processing; failed; completed]
  ∧ StatusSpec.forward_only
      (statuses_written
         (DocumentController.uploadDocuments Scenario.overconfident Scenario.upload_request)
         (Scenario.after_multer Scenario.notice_bytes)) = false.
Proof. split; vm_compute; reflexivity. Qed.

(** C1, amended.  The statuses one processing run stores for its record
    are, in this order, a sub-sequence of processing, failed, completed:
    nothing is written after completed and pending is never written, but
    failed is not final, since the handler that writes it goes on to the
    fall-back classification and writes completed when that goes through.
    The manual trigger stores no status at all. *)
Theorem run_writes_processing_failed_completed
    (env : Env) (data : ProcessingJobData) (user : User.t) (idParam : option string)
    (w : World) :
  statuses_written (ProcessingQueue.processDocument env data) w
    `sublist_of` [processing; failed; completed]
  ∧ statuses_written (DocumentController.processDocument env user idParam) w = [].
Proof.
  split.
  - destruct (processDocument_emits env data w) as (l & E & H).
    rewrite (statuses_written_emitted _ _ _ E).
    by apply sublist_map_snd in H.
  - unfold statuses_written. rewrite (manual_trigger_silent env user idParam w).
    by rewrite drop_all.
Qed.

(** ** The search route *)

Section Search.

Import DocumentController RelevanceSpec.

(** A search that answers with results has asked the store for the
    trimmed query, and returns its rows scored and sorted. *)
Lemma searchDocuments_results (env : Env) (user : User.t) (query : ListQuery)
    (w w' : World) (r : Json SearchResults) (body : SearchResults) :
  searchDocuments env user query w = (w', Ok r) →
  payload r = Some body →
  ∃ q docs w1,
    q_q query = Some q ∧ Js.trim q ≠ EmptyString ∧
    documents w1 = documents w ∧ db_calls w1 = db_calls w ∧
    search_store env user query (Js.trim q) w1 = (w', Ok (docs, total_found body)) ∧
    search_query body = Js.trim q ∧
    results body =
      Array_sort by_relevance
        (List.map (λ doc, {| hit_document := doc;
                             relevance_score := calculateRelevanceScore (Js.trim q) doc |})
           docs).
Proof.
  unfold searchDocuments, try_catch.
  destruct (q_q query) as [q|] eqn:Hq; simpl.
  2:{ intros [= <- <-]. discriminate. }
  destruct (String.length (Js.trim q) =? 0)%nat eqn:Hlen; simpl.
  { intros [= <- <-]. discriminate. }
  unfold bind at 1. simpl.
  match goal with
  | |- context [bind _ _ ?w0] => set (w1 := w0)
  end.
  unfold bind.
  destruct (search_store env user query (Js.trim q) w1) as [w2 [[docs total]|e]] eqn:Hs;
    simpl.
  - intros [= <- <-] [= <-]. exists q, docs, w1. simpl.
    repeat split; try done.
    intros He. rewrite He in Hlen. discriminate.
  - intros [= <- <-]. discriminate.
Qed.

End Search.



(** ** Department isolation *)

Section Isolation.

Import DocumentController.

Context (env : Env) (user : User.t).
Hypothesis not_admin : User.role user ≠ "admin".

Lemma scoped_to_own_department (department : option string) :
  scoped_department user department = Some (User.department user).
Proof.
  unfold scoped_department.
  by destruct (String.eqb_spec (User.role user) "admin").
Qed.

Lemma matches_department (f : Filters) (d : Doc.t) :
  f_department f = Some (User.department user) →
  DocumentModel.matches f d = true →
  Doc.department d = User.department user.
Proof.
  unfold DocumentModel.matches, DocumentModel.opt_matches. intros ->.
  rewrite !andb_true_iff. intros [[[[H _] _] _] _].
  by apply String.eqb_eq in H.
Qed.

Lemma window_Forall (P : Doc.t → Prop) (page limit : Z) (rows : list Doc.t) :
  Forall P rows → Forall P (DocumentModel.window page limit rows).
Proof. intros H. unfold DocumentModel.window. by apply Forall_take, Forall_drop. Qed.

Lemma paginated_Forall (P : Doc.t → Prop) (page limit : ParseInt.number)
    (rows : list Doc.t) (w w' : World) (res : list Doc.t * nat) :
  Forall P rows →
  DocumentModel.paginated page limit rows w = (w', Ok res) →
  Forall P res.1.
Proof.
  intros H. unfold DocumentModel.paginated.
  destruct page, limit; try (intros [= <- <-]; discriminate); try discriminate.
  intros [= _ <-]. simpl. by apply window_Forall.
Qed.

Lemma filtered_rows_own (f : Filters) (keep : Doc.t → bool) (rows : list Doc.t) :
  f_department f = Some (User.department user) →
  Forall (λ d, Doc.department d = User.department user)
    (List.rev (List.filter (λ d, DocumentModel.matches f d && keep d) rows)).
Proof.
  intros Hf. apply List.Forall_forall. intros d Hin.
  apply in_rev, filter_In in Hin as [_ Hin].
  apply andb_true_iff in Hin as [Hin _]. by eapply matches_department.
Qed.

Lemma store_list_own (f : Filters) (page limit : ParseInt.number)
    (w w' : World) (res : list Doc.t * nat) :
  f_department f = Some (User.department user) →
  DocumentModel.getDocuments env f page limit w = (w', Ok res) →
  Forall (λ d, Doc.department d = User.department user) res.1.
Proof.
  intros Hf. unfold DocumentModel.getDocuments, DocumentModel.statement.
  destruct (db_up env (db_calls w)); [|discriminate].
  apply paginated_Forall.
  rewrite <- (filter_ext (λ d, DocumentModel.matches f d && true));
    [by apply filtered_rows_own|].
  intros d. by rewrite andb_true_r.
Qed.

Lemma store_search_own (q : string) (f : Filters) (page limit : ParseInt.number)
    (w w' : World) (res : list Doc.t * nat) :
  f_department f = Some (User.department user) →
  DocumentModel.searchDocuments env q f page limit w = (w', Ok res) →
  Forall (λ d, Doc.department d = User.department user) res.1.
Proof.
  intros Hf. unfold DocumentModel.searchDocuments, DocumentModel.statement.
  destruct (db_up env (db_calls w)); [|discriminate].
  apply paginated_Forall. by apply filtered_rows_own.
Qed.

Lemma getDocuments_own (query : ListQuery) (w w' : World)
    (r : Json DocumentList) (body : DocumentList) :
  getDocuments env user query w = (w', Ok r) →
  payload r = Some body →
  Forall (λ d, Doc.department d = User.department user) (dl_documents body).
Proof.
  unfold getDocuments, try_catch, bind.
  match goal with
  | |- context [DocumentModel.getDocuments env ?f ?p ?l w] =>
      destruct (DocumentModel.getDocuments env f p l w) as [w1 [res|e]] eqn:Hs
  end; simpl.
  - intros [= <- <-] [= <-]. simpl. eapply store_list_own; [|exact Hs].
    apply scoped_to_own_department.
  - intros [= <- <-]. discriminate.
Qed.

Lemma searchDocuments_own (query : ListQuery) (w w' : World)
    (r : Json SearchResults) (body : SearchResults) :
  searchDocuments env user query w = (w', Ok r) →
  payload r = Some body →
  Forall (λ h, Doc.department (hit_document h) = User.department user) (results body).
Proof.
  intros Hrun Hbody.
  destruct (searchDocuments_results _ _ _ _ _ _ _ Hrun Hbody)
    as (q & docs & w1 & _ & _ & _ & _ & Hstore & _ & ->).
  rewrite Array_sort_perm. apply Forall_fmap.
  eapply (store_search_own _ _ _ _ _ _ (docs, total_found body)); [|exact Hstore].
  apply scoped_to_own_department.
Qed.

Lemma getDocumentById_cases (idParam : option string) (w w' : World) (r : Json Doc.t) :
  getDocumentById env user idParam w = (w', Ok r) →
  ∀ d, payload r = Some d → Doc.department d = User.department user.
Proof.
  unfold getDocumentById, with_document_id, try_catch.
  destruct (if_truthy idParam) as [s|]; simpl.
  2:{ intros [= <- <-] d. discriminate. }
  destruct (ParseInt.parseInt s) as [|z]; simpl.
  { intros [= <- <-] d. discriminate. }
  unfold bind.
  destruct (DocumentModel.findById env z w) as [w1 [[doc|]|e]]; simpl.
  - unfold department_denied.
    destruct (String.eqb_spec (User.role user) "admin") as [|_]; [done|]. simpl.
    destruct (String.eqb_spec (Doc.department doc) (User.department user)) as [He|_]; simpl.
    + intros [= <- <-] d [= <-]. exact He.
    + intros [= <- <-] d. discriminate.
  - intros [= <- <-] d. discriminate.
  - intros [= <- <-] d. discriminate.
Qed.

Lemma getDocumentById_refused (s : string) (z : Z) (d : Doc.t) (w : World) :
  if_truthy (Some s) = Some s →
  ParseInt.parseInt s = ParseInt.Num z →
  db_up env (db_calls w) = true →
  List.find (DocumentModel.has_id z) (documents w) = Some d →
  Doc.department d ≠ User.department user →
  (getDocumentById env user (Some s) w).2
  = Ok (json_fail 403 "Access denied - document not in your department" None).
Proof.
  intros Hs Hz Hdb Hfind Hdep.
  unfold getDocumentById, with_document_id, try_catch. rewrite Hs, Hz. simpl.
  unfold bind, DocumentModel.findById, DocumentModel.statement. rewrite Hdb. simpl.
  rewrite Hfind. unfold department_denied.
  destruct (String.eqb_spec (User.role user) "admin") as [|_]; [done|]. simpl.
  by destruct (String.eqb_spec (Doc.department d) (User.department user)).
Qed.

End Isolation.

(** C5.  For a user whose role is not admin: every record the list route
    and the search route return is of the user's own department; the record
    [getDocumentById] returns is of the user's department, and a record of
    another department is answered with 403 "Access denied" and no record.
    (The list and search routes hand the user's department to the store as a
    filter; the store is the one modelled from the specification.) *)
Theorem department_isolation (env : Env) (user : User.t) (w : World) :
  User.role user ≠ "admin" →
  (∀ query w' r body,
     DocumentController.getDocuments env user query w = (w', Ok r) →
     payload r = Some body →
     Forall (λ d, Doc.department d = User.department user) (dl_documents body))
  ∧ (∀ query w' r body,
       DocumentController.searchDocuments env user query w = (w', Ok r) →
       payload r = Some body →
       Forall (λ h, Doc.department (hit_document h) = User.department user) (results body))
  ∧ (∀ idParam w' r d,
       DocumentController.getDocumentById env user idParam w = (w', Ok r) →
       payload r = Some d →
       Doc.department d = User.department user)
  ∧ (∀ s z d,
       DocumentController.if_truthy (Some s) = Some s →
       ParseInt.parseInt s = ParseInt.Num z →
       db_up env (db_calls w) = true →
       List.find (DocumentModel.has_id z) (documents w) = Some d →
       Doc.department d ≠ User.department user →
       (DocumentController.getDocumentById env user (Some s) w).2
       = Ok (json_fail 403 "Access denied - document not in your department" None)).
Proof.
  intros Hrole. repeat split.
  - intros query w' r body. by apply getDocuments_own.
  - intros query w' r body. by apply searchDocuments_own.
  - intros idParam w' r d H. by eapply getDocumentById_cases.
  - intros s z d. by apply getDocumentById_refused.
Qed.

Lemma department_isolation_witness :
  User.role Scenario.officer ≠ "admin"
  ∧ (DocumentController.getDocumentById Scenario.offline Scenario.officer (Some "2")
       Library.world).2
    = Ok (json_fail 403 "Access denied - document not in your department" None).
Proof.
  assert (Hrole : User.role Scenario.officer ≠ "admin") by discriminate.
  split; [exact Hrole|].
  destruct (department_isolation Scenario.offline Scenario.officer Library.world Hrole)
    as (_ & _ & _ & Hrefused).
  apply (Hrefused "2" 2%Z Library.budget); [reflexivity..|discriminate].
Defined.

(** ** Deleting a document whose file is gone *)

Section Running.

(** Running a computation whose first step is known. *)
Lemma run_bind {A B} (m : M A) (k : A → M B) (w w1 : World) (a : A) :
  m w = (w1, Ok a) → bind m k w = k a w1.
Proof. intros H. unfold bind. by rewrite H. Qed.

Lemma run_bind_threw {A B} (m : M A) (k : A → M B) (w w1 : World) (e : string) :
  m w = (w1, Threw e) → bind m k w = (w1, Threw e).
Proof. intros H. unfold bind. by rewrite H. Qed.

Lemma run_try {A} (m : M A) (h : string → M A) (w w1 : World) (a : A) :
  m w = (w1, Ok a) → try_catch m h w = (w1, Ok a).
Proof. intros H. unfold try_catch. by rewrite H. Qed.

Lemma run_try_threw {A} (m : M A) (h : string → M A) (w w1 : World) (e : string) :
  m w = (w1, Threw e) → try_catch m h w = h e w1.
Proof. intros H. unfold try_catch. by rewrite H. Qed.

End Running.

Section Delete.

Import DocumentController.

Lemma find_filter_out (z : Z) (rows : list Doc.t) :
  List.find (DocumentModel.has_id z)
    (List.filter (λ d, negb (DocumentModel.has_id z d)) rows) = None.
Proof.
  induction rows as [|d rows IH]; simpl; [done|].
  destruct (DocumentModel.has_id z d) eqn:Hd; simpl; [done|]. by rewrite Hd.
Qed.

Lemma deleteDocument_missing_file (env : Env) (user : User.t) (w : World)
    (s : string) (z : Z) (d : Doc.t) :
  if_truthy (Some s) = Some s →
  ParseInt.parseInt s = ParseInt.Num z →
  db_up env (db_calls w) = true →
  db_up env (S (db_calls w)) = true →
  List.find (DocumentModel.has_id z) (documents w) = Some d →
  User.role user = "admin" ∨ Doc.uploaded_by d = User.id user →
  disk w !! Doc.file_path d = None →
  deleteDocument env user (Some s) w
  = ({| disk := disk w;
        documents := List.filter (λ d, negb (DocumentModel.has_id z d)) (documents w);
        next_id := next_id w;
        logs := logs w ++ [deleted_line user d];
        status_writes := status_writes w;
        db_calls := S (S (db_calls w));
        classify_calls := classify_calls w;
        summary_calls := summary_calls w |},
     Ok {| status := 200; success := true;
           message := Some "Document deleted successfully";
           error := None; payload := Some tt |}).
Proof.
  intros Hs Hz Hdb1 Hdb2 Hfind Hauth Hgone.
  unfold deleteDocument, with_document_id. rewrite Hs, Hz.
  apply run_try.
  unfold bind at 1. unfold DocumentModel.findById, DocumentModel.statement. rewrite Hdb1.
  simpl. rewrite Hfind.
  assert (Hok : negb (String.eqb (User.role user) "admin")
                && negb (Doc.uploaded_by d =? User.id user)%nat = false).
  { destruct Hauth as [->| ->]; [done|]. rewrite Nat.eqb_refl. by rewrite andb_false_r. }
  rewrite Hok.
  unfold bind, fs.existsSync. simpl. rewrite Hgone. simpl.
  unfold DocumentModel.deleteDocument, DocumentModel.statement. simpl. rewrite Hdb2.
  reflexivity.
Qed.

End Delete.

(** C8, as stated, fails in its last part.  The officer deletes a document
    they uploaded whose file is no longer on disk: the record goes and the
    answer is a success, but nothing is logged at level warn or error. *)
Lemma missing_file_not_reported :
  disk Library.world !! Doc.file_path Library.drill = None
  ∧ (DocumentController.deleteDocument Scenario.offline Scenario.officer (Some "1")
       Library.world).2
    = Ok {| status := 200; success := true;
            message := Some "Document deleted successfully";
            error := None; payload := Some tt |}
  ∧ LogSpec.anomaly_logged
      (DocumentController.deleteDocument Scenario.offline Scenario.officer (Some "1"))
      Library.world = false.
Proof. repeat split; vm_compute; reflexivity. Qed.

(** C8, amended.  When the uploader or an admin deletes a record whose file
    is already missing from disk, and the database takes the look-up and the
    delete, the record is deleted and the answer is 200 with [success]; the
    missing file is passed over in silence: the one log entry is the usual
    info line "Document deleted: ...", and no warning or error is logged. *)
Theorem delete_passes_over_missing_file
    (env : Env) (user : User.t) (w : World) (s : string) (z : Z) (d : Doc.t) :
  DocumentController.if_truthy (Some s) = Some s →
  ParseInt.parseInt s = ParseInt.Num z →
  db_up env (db_calls w) = true →
  db_up env (S (db_calls w)) = true →
  List.find (DocumentModel.has_id z) (documents w) = Some d →
  User.role user = "admin" ∨ Doc.uploaded_by d = User.id user →
  disk w !! Doc.file_path d = None →
  (DocumentController.deleteDocument env user (Some s) w).2
  = Ok {| status := 200; success := true;
          message := Some "Document deleted successfully";
          error := None; payload := Some tt |}
  ∧ List.find (DocumentModel.has_id z)
      (documents (DocumentController.deleteDocument env user (Some s) w).1) = None
  ∧ new_logs (DocumentController.deleteDocument env user (Some s)) w
    = [{| level := LogInfo;
          text := "Document deleted: " ++ Doc.original_filename d
                  ++ " by user " ++ User.email user |}]
  ∧ LogSpec.anomaly_logged (DocumentController.deleteDocument env user (Some s)) w = false.
Proof.
  intros Hs Hz Hdb1 Hdb2 Hfind Hauth Hgone.
  unfold LogSpec.anomaly_logged, new_logs.
  rewrite (deleteDocument_missing_file env user w s z d) by done. simpl.
  rewrite drop_app_length. repeat split; try done. apply find_filter_out.
Qed.

Lemma delete_passes_over_missing_file_witness :
  DocumentController.if_truthy (Some "1") = Some "1"
  ∧ ParseInt.parseInt "1" = ParseInt.Num 1
  ∧ disk Library.world !! Doc.file_path Library.drill = None
  ∧ List.find (DocumentModel.has_id 1)
      (documents (DocumentController.deleteDocument Scenario.offline Scenario.officer
                    (Some "1") Library.world).1) = None
  ∧ new_logs (DocumentController.deleteDocument Scenario.offline Scenario.officer (Some "1"))
      Library.world
    = [{| level := LogInfo;
          text := "Document deleted: fire_safety_drill.pdf by user officer@kmrl.example" |}].
Proof.
  assert (Hs : DocumentController.if_truthy (Some "1") = Some "1") by reflexivity.
  assert (Hz : ParseInt.parseInt "1" = ParseInt.Num 1) by reflexivity.
  assert (Hgone : disk Library.world !! Doc.file_path Library.drill = None)
    by (vm_compute; reflexivity).
  destruct (delete_passes_over_missing_file Scenario.offline Scenario.officer Library.world
              "1" 1%Z Library.drill Hs Hz eq_refl eq_refl eq_refl (or_intror eq_refl) Hgone)
    as (_ & Hrow & Hlog & _).
  repeat split; done.
Defined.

(** ** The upload loop: one closing log line per file *)

Section UploadLog.

Import RelevanceSpec.

Lemma preserves_log_line (P : LogEntry → Prop) (l : LogLevel) (msg : string) :
  P {| level := l; text := msg |} → preserves (log_grows P) (log_line l msg).
Proof. intros H w. exists [{| level := l; text := msg |}]. split; [done|]. by constructor. Qed.

Lemma preserves_quiet (P : LogEntry → Prop) {A} (m : M A) :
  preserves (same logs) m → preserves (log_grows P) m.
Proof. intros H w. exists []. rewrite app_nil_r. split; [apply H|constructor]. Qed.

Lemma log_grows_emits (P : LogEntry → Prop) {A} (m : M A) :
  preserves (log_grows P) m → emits logs m (λ l _, Forall P l).
Proof. intros H w. destruct (H w) as (l & E & F). by exists l. Qed.

End UploadLog.

(** A computation logs inner lines only: split it, then each leaf is a log
    line (checked by evaluation) or leaves the log alone. *)
Ltac inner_lines :=
  repeat keeps_step;
  first [ apply preserves_log_line; split; reflexivity
        | apply preserves_quiet; solve [keeps_field | reflexivity | intros ?; reflexivity]
        | by eexists []; rewrite app_nil_r
        | idtac ].

Section UploadLoop.

Import DocumentController LogSpec RelevanceSpec.

Context (env : Env).

Lemma addDocumentForProcessing_inner_lines (data : ProcessingJobData) :
  preserves (log_grows inner_line) (ProcessingQueue.addDocumentForProcessing env data).
Proof.
  unfold ProcessingQueue.addDocumentForProcessing, ProcessingQueue.processDocument,
    ProcessingQueue.enrich, ProcessingQueue.fall_back,
    DocumentProcessor.prepareDocumentForMLProcessing, DocumentProcessor.validateDocument,
    DocumentProcessor.moveToProcessingQueue, DocumentProcessor.extractMetadata,
    DocumentProcessor.generateFileHash, AIService.classifyDocument,
    AIService.generateSummary, DocumentModel.updateAIProcessingResults.
  inner_lines.
Qed.

Lemma emits_log_line (l : LogLevel) (msg : string) :
  emits logs (log_line l msg) (λ l' o, l' = [{| level := l; text := msg |}] ∧ o = Ok tt).
Proof. intros w. by eexists. Qed.

Lemma inner_lines_count (l : list LogEntry) :
  Forall inner_line l → count reports_upload l = 0 ∧ count reports_failure l = 0.
Proof.
  intros H. split; apply count_none; eapply Forall_impl; try exact H; by intros e [? ?].
Qed.

Lemma upload_one_outcome (req : UploadRequest) (department : string) (file : File.t)
    (acc : list UploadedDocument) :
  emits logs (upload_one env req department file acc) (one_outcome acc).
Proof.
  unfold upload_one.
  eapply emits_try with
    (Q1 := λ l o, match o with
                  | Ok docs => (∃ x, docs = acc ++ [x]) ∧ count reports_upload l = 1
                               ∧ count reports_failure l = 0
                  | Threw _ => count reports_upload l = 0 ∧ count reports_failure l = 0
                  end)
    (Q2 := λ _ l o, o = Ok acc ∧ count reports_upload l = 0 ∧ count reports_failure l = 1).
  - apply emits_after; [| |by intros e].
    { unfold DocumentModel.create. keeps. }
    intros document.
    eapply emits_bind with
      (Q1 := λ l _, Forall inner_line l)
      (Q2 := λ _ l o, (∃ x, o = Ok (acc ++ [x])) ∧ count reports_upload l = 1
                      ∧ count reports_failure l = 0).
    + apply log_grows_emits, addDocumentForProcessing_inner_lines.
    + intros _. eapply emits_bind with (Q2 := λ _ l o, l = [] ∧ ∃ x, o = Ok (acc ++ [x])).
      * apply emits_log_line.
      * intros _. intros w. exists []. rewrite app_nil_r. simpl. eauto.
      * intros l e [_ ?]. discriminate.
      * intros _ l1 l2 o [-> _] [-> [x ->]]. split; [by exists x|]. by split.
    + intros l e H. by apply inner_lines_count.
    + intros _ l1 l2 o H1 ([x ->] & Hu & Hf).
      apply inner_lines_count in H1 as [Hu1 Hf1].
      rewrite !count_app, Hu, Hf, Hu1, Hf1. split; [by exists x|]. by split.
  - intros e. eapply emits_bind with (Q2 := λ _ l o, l = [] ∧ o = Ok acc).
    + apply emits_log_line.
    + intros _ w. exists []. by rewrite app_nil_r.
    + intros l e' [_ ?]. discriminate.
    + intros _ l1 l2 o [-> _] [-> ->]. by split.
  - intros l docs (Hx & Hu & Hf). exists docs. split; [done|]. left. by split.
  - intros e l1 l2 o [Hu1 Hf1] (-> & Hu & Hf). exists acc. split; [done|]. right.
    rewrite !count_app, Hu, Hf, Hu1, Hf1. by split.
Qed.

(** The whole loop: as many closing lines as files, one entry pushed per
    info line. *)
Lemma upload_each_outcome (req : UploadRequest) (department : string)
    (files : list File.t) (acc : list UploadedDocument) :
  emits logs (upload_each env req department files acc)
    (λ l o, ∃ docs, o = Ok docs ∧
       length docs = length acc + count reports_upload l ∧
       count reports_upload l + count reports_failure l = length files).
Proof.
  revert acc. induction files as [|file rest IH]; intros acc; simpl.
  - intros w. exists []. rewrite app_nil_r. split; [done|]. exists acc. simpl.
    split; [done|]. unfold count. simpl. lia.
  - eapply emits_bind; [apply upload_one_outcome|intros docs1; apply IH| |].
    + intros l e (docs & ? & _). discriminate.
    + intros docs1 l1 l2 o (docs & [= <-] & Hone) (docs2 & -> & Hlen & Hall).
      exists docs2. split; [done|]. rewrite !count_app.
      destruct Hone as [([x ->] & Hu & Hf)|(-> & Hu & Hf)].
      * rewrite length_app in Hlen. simpl in Hlen. lia.
      * lia.
Qed.

End UploadLoop.

(** ** What an upload does to the disk *)

Section Moving.

Context (src dst : string).

Lemma moved_refl (w : World) : moved src dst w w.
Proof. by left. Qed.

Lemma moved_bind_l {A B} (m : M A) (k : A → M B) :
  preserves (same disk) m → (∀ a, preserves (moved src dst) (k a)) →
  preserves (moved src dst) (bind m k).
Proof.
  intros Hm Hk w. unfold bind. specialize (Hm w). unfold same in Hm.
  destruct (m w) as [w1 [a|e]]; simpl in *.
  - specialize (Hk a w1). unfold moved in *. rewrite <- Hm. exact Hk.
  - by left.
Qed.

Lemma moved_bind_r {A B} (m : M A) (k : A → M B) :
  preserves (moved src dst) m → (∀ a, preserves (same disk) (k a)) →
  preserves (moved src dst) (bind m k).
Proof.
  intros Hm Hk w. unfold bind. specialize (Hm w).
  destruct (m w) as [w1 [a|e]]; simpl in *; [|done].
  specialize (Hk a w1). unfold same, moved in *. by rewrite Hk.
Qed.

Lemma moved_try_l {A} (m : M A) (h : string → M A) :
  preserves (same disk) m → (∀ e, preserves (moved src dst) (h e)) →
  preserves (moved src dst) (try_catch m h).
Proof.
  intros Hm Hh w. unfold try_catch. specialize (Hm w). unfold same in Hm.
  destruct (m w) as [w1 [a|e]]; simpl in *.
  - by left.
  - specialize (Hh e w1). unfold moved in *. rewrite <- Hm. exact Hh.
Qed.

Lemma moved_try_r {A} (m : M A) (h : string → M A) :
  preserves (moved src dst) m → (∀ e, preserves (same disk) (h e)) →
  preserves (moved src dst) (try_catch m h).
Proof.
  intros Hm Hh w. unfold try_catch. specialize (Hm w).
  destruct (m w) as [w1 [a|e]]; simpl in *; [done|].
  specialize (Hh e w1). unfold same, moved in *. by rewrite Hh.
Qed.

Lemma renameSync_moved : preserves (moved src dst) (fs.renameSync src dst).
Proof.
  intros w. unfold fs.renameSync.
  destruct (disk w !! src) as [c|] eqn:Hc; simpl; [|by left].
  right. by exists c.
Qed.

End Moving.

Section Disk.

Context (env : Env).

Lemma updateAIProcessingResults_disk (id : nat) (u : AIProcessingUpdate) :
  preserves (same disk) (DocumentModel.updateAIProcessingResults env id u).
Proof. unfold DocumentModel.updateAIProcessingResults. keeps. Qed.

Lemma classifyDocument_disk (text p : string) :
  preserves (same disk) (AIService.classifyDocument env text p).
Proof. unfold AIService.classifyDocument. keeps. Qed.

Lemma generateSummary_disk (text p : string) (t : option string) :
  preserves (same disk) (AIService.generateSummary env text p t).
Proof. unfold AIService.generateSummary. keeps. Qed.

Lemma enrich_or_fall_back_disk (id : nat) (p : string) :
  preserves (same disk)
    (try_catch (ProcessingQueue.enrich env id p) (ProcessingQueue.fall_back env id p)).
Proof.
  unfold ProcessingQueue.enrich, ProcessingQueue.fall_back.
  keeps; first [apply updateAIProcessingResults_disk | apply classifyDocument_disk
               | apply generateSummary_disk].
Qed.

Lemma prepare_moved (p : string) :
  preserves (moved p (queued env p))
    (DocumentProcessor.prepareDocumentForMLProcessing env p).
Proof.
  unfold DocumentProcessor.prepareDocumentForMLProcessing.
  apply moved_try_r; [|intros e; keeps].
  apply moved_bind_l; [unfold DocumentProcessor.validateDocument; keeps|]. intros valid.
  apply moved_bind_l; [keeps|]. intros _.
  apply moved_bind_l;
    [unfold DocumentProcessor.extractMetadata, DocumentProcessor.generateFileHash; keeps|].
  intros metadata.
  apply moved_bind_r; [|intros t; keeps].
  unfold DocumentProcessor.moveToProcessingQueue.
  apply moved_try_r; [|intros e; keeps].
  apply moved_bind_r; [apply renameSync_moved|intros _; keeps].
Qed.

Lemma processDocument_moved (data : ProcessingJobData) :
  preserves (moved (filePath data) (queued env (filePath data)))
    (ProcessingQueue.processDocument env data).
Proof.
  unfold ProcessingQueue.processDocument.
  apply moved_try_r; [|intros e; keeps].
  apply moved_bind_l; [keeps|]. intros _.
  apply moved_bind_l; [keeps|]. intros present.
  apply moved_bind_l; [keeps|]. intros _.
  apply moved_bind_l; [unfold DocumentProcessor.generateFileHash; keeps|]. intros _.
  apply moved_bind_l;
    [unfold DocumentProcessor.extractMetadata, DocumentProcessor.generateFileHash; keeps|].
  intros _.
  apply moved_bind_r; [apply prepare_moved|]. intros _.
  apply preserves_bind; [apply _|apply enrich_or_fall_back_disk|intros _; keeps].
Qed.

Lemma upload_one_moved (req : UploadRequest) (department : string) (file : File.t)
    (acc : list UploadedDocument) :
  preserves (moved (File.path file) (queued env (File.path file)))
    (DocumentController.upload_one env req department file acc).
Proof.
  unfold DocumentController.upload_one.
  apply moved_try_r; [|intros e; keeps].
  apply moved_bind_l; [unfold DocumentModel.create; keeps|]. intros document.
  apply moved_bind_r; [|intros _; keeps].
  unfold ProcessingQueue.addDocumentForProcessing.
  apply moved_try_r; [|intros e; keeps].
  apply (processDocument_moved
           {| documentId := Doc.id document; filePath := File.path file;
              userId := User.id (ur_user req); job_department := department |}).
Qed.

End Disk.

(** ** Paths *)

Section Paths.

Lemma append_cons (a : ascii) (s t : string) :
  (String a s ++ t)%string = String a (s ++ t).
Proof. reflexivity. Qed.

Lemma append_empty_r (t : string) : (t ++ EmptyString)%string = t.
Proof. induction t as [|a t IH]; [done|]. by rewrite append_cons, IH. Qed.

Lemma append_assoc_char (t : string) (c : ascii) (s : string) :
  (t ++ String c s)%string = ((t ++ String c EmptyString) ++ s)%string.
Proof. induction t as [|a t IH]; [done|]. by rewrite !append_cons, IH. Qed.

Lemma slash_free_snoc (t : string) (c : ascii) :
  slash_free t = true → Ascii.eqb c Path.slash = false →
  slash_free (t ++ String c EmptyString) = true.
Proof.
  intros Ht Hc. induction t as [|a t IH]; [simpl; by rewrite Hc|].
  rewrite append_cons. simpl in *.
  apply andb_true_iff in Ht as [-> Ht]. simpl. by apply IH.
Qed.

Lemma after_last_slash_free (s t : string) :
  slash_free t = true → slash_free (Path.after_last_slash (t ++ s) s) = true.
Proof.
  revert t. induction s as [|c s IH]; intros t Ht; simpl.
  - by rewrite append_empty_r.
  - destruct (Ascii.eqb c Path.slash) eqn:Hc.
    + by apply (IH EmptyString).
    + rewrite append_assoc_char. by apply IH, slash_free_snoc.
Qed.

Lemma basename_slash_free (p : string) : slash_free (Path.basename p) = true.
Proof. apply (after_last_slash_free p EmptyString). done. Qed.

Lemma after_last_slash_none (acc s : string) :
  slash_free s = true → Path.after_last_slash acc s = acc.
Proof.
  revert acc. induction s as [|c s IH]; intros acc; simpl; [done|].
  intros H. apply andb_true_iff in H as [Hc Hs].
  apply negb_true_iff in Hc. rewrite Hc. by apply IH.
Qed.

Lemma after_last_slash_join (acc dir name : string) :
  slash_free name = true →
  Path.after_last_slash acc (Path.join dir name) = name.
Proof.
  intros Hname. unfold Path.join. revert acc.
  induction dir as [|c dir IH]; intros acc.
  - change (EmptyString ++ String Path.slash name)%string with (String Path.slash name).
    simpl. by apply after_last_slash_none.
  - rewrite append_cons. simpl. destruct (Ascii.eqb c Path.slash); apply IH.
Qed.

Lemma basename_join (dir name : string) :
  slash_free name = true → Path.basename (Path.join dir name) = name.
Proof. apply after_last_slash_join. Qed.

Lemma join_inj (dir a b : string) : Path.join dir a = Path.join dir b → a = b.
Proof.
  unfold Path.join. induction dir as [|c dir IH].
  - by intros [= ->].
  - rewrite !append_cons. intros [= H]. by apply IH.
Qed.

Context (env : Env).

Lemma basename_queued (p : string) : Path.basename (queued env p) = Path.basename p.
Proof. apply basename_join, basename_slash_free. Qed.

(** Two files stored under different base names occupy four different
    places, before and after the move. *)
Lemma places_apart (p q : string) :
  Path.basename p ≠ Path.basename q →
  q ≠ p ∧ q ≠ queued env p ∧ queued env q ≠ p ∧ queued env q ≠ queued env p.
Proof.
  intros Hne. repeat split; intros H; apply Hne.
  - by rewrite H.
  - by rewrite H, basename_queued.
  - by rewrite <- H, basename_queued.
  - apply join_inj in H. by rewrite H.
Qed.

Lemma moved_elsewhere (p t q : string) (w w' : World) :
  moved p t w w' → q ≠ p → q ≠ t → disk w' !! q = disk w !! q.
Proof.
  intros [->|(c & _ & ->)] Hp Ht; [done|].
  by rewrite lookup_insert_ne, lookup_delete_ne.
Qed.

Lemma moved_here (p t : string) (w w' : World) (c : list Byte.byte) :
  moved p t w w' → disk w !! p = Some c →
  disk w' !! p = Some c ∨ disk w' !! t = Some c.
Proof.
  intros [->|(c' & Hc' & ->)] Hc; [by left|].
  right. rewrite lookup_insert_eq. congruence.
Qed.

Lemma upload_each_keeps_place (req : UploadRequest) (department : string)
    (files : list File.t) (acc : list UploadedDocument) (w : World)
    (q : string) (c : list Byte.byte) :
  Forall (λ f, stored_as f ≠ Path.basename q) files →
  disk w !! q = Some c ∨ disk w !! queued env q = Some c →
  let w' := (DocumentController.upload_each env req department files acc w).1 in
  disk w' !! q = Some c ∨ disk w' !! queued env q = Some c.
Proof.
  revert acc w. induction files as [|f files IH]; intros acc w Hfiles Hc; simpl; [done|].
  apply Forall_cons in Hfiles as [Hf Hfiles].
  pose proof (upload_one_moved env req department f acc w) as Hmoved.
  unfold bind. destruct (DocumentController.upload_one env req department f acc w)
    as [w1 [docs|e]]; simpl in *.
  - apply IH; [done|].
    destruct (places_apart _ _ Hf) as (H1 & H2 & H3 & H4).
    by rewrite !(moved_elsewhere _ _ _ _ _ Hmoved).
  - destruct (places_apart _ _ Hf) as (H1 & H2 & H3 & H4).
    by rewrite !(moved_elsewhere _ _ _ _ _ Hmoved).
Qed.

(** No file of the request is lost: its bytes stay where multer put them or
    lie in the queue directory under the same name. *)
Lemma upload_each_keeps_files (req : UploadRequest) (department : string)
    (files : list File.t) (acc : list UploadedDocument) (w : World) :
  NoDup (List.map stored_as files) →
  ∀ f c, In f files → disk w !! File.path f = Some c →
    let w' := (DocumentController.upload_each env req department files acc w).1 in
    disk w' !! File.path f = Some c ∨ disk w' !! queued env (File.path f) = Some c.
Proof.
  revert acc w. induction files as [|f0 files IH]; intros acc w Hnd f c Hin Hc; [done|].
  simpl in Hnd. apply NoDup_cons in Hnd as [Hfresh Hnd].
  assert (Hothers : Forall (λ f, stored_as f ≠ stored_as f0) files).
  { apply List.Forall_forall. intros g Hg He. apply Hfresh.
    rewrite <- He. apply list_elem_of_In, in_map, Hg. }
  pose proof (upload_one_moved env req department f0 acc w) as Hmoved.
  simpl. unfold bind.
  destruct (DocumentController.upload_one env req department f0 acc w)
    as [w1 [docs|e]] eqn:Hone; simpl in *.
  - destruct Hin as [<-|Hin].
    + apply (upload_each_keeps_place req department files docs w1 (File.path f0) c Hothers).
      by eapply moved_here.
    + apply IH; [done..|].
      assert (Hne : stored_as f0 ≠ stored_as f).
      { intros He. apply Hfresh. rewrite He. apply list_elem_of_In, in_map, Hin. }
      destruct (places_apart _ _ Hne) as (H1 & H2 & _).
      by rewrite (moved_elsewhere _ _ _ _ _ Hmoved).
  - destruct Hin as [<-|Hin].
    + by eapply moved_here.
    + left. assert (Hne : stored_as f0 ≠ stored_as f).
      { intros He. apply Hfresh. rewrite He. apply list_elem_of_In, in_map, Hin. }
      destruct (places_apart _ _ Hne) as (H1 & H2 & _).
      by rewrite (moved_elsewhere _ _ _ _ _ Hmoved).
Qed.

End Paths.

(** ** The upload route *)

Section UploadResponse.

Import DocumentController LogSpec.

Context (env : Env).

(** With a file and a department, the route is its loop followed by the
    201 answer. *)
Lemma uploadDocuments_created (req : UploadRequest) (department : string) (w : World) :
  ur_files req ≠ [] →
  ur_department req = Some department → department ≠ EmptyString →
  ∃ docs,
    upload_each env req department (ur_files req) [] w
    = ((uploadDocuments env req w).1, Ok docs)
    ∧ (uploadDocuments env req w).2
      = Ok (json_ok 201 (Some (uploaded_message (length docs))) docs).
Proof.
  intros Hfiles Hdep Hne.
  destruct (upload_each_outcome env req department (ur_files req) [] w)
    as (l & _ & docs & Hok & _).
  destruct (upload_each env req department (ur_files req) [] w) as [w1 o] eqn:Hrun.
  simpl in Hok. subst o. exists docs.
  assert (Hall : uploadDocuments env req w
                 = (w1, Ok (json_ok 201 (Some (uploaded_message (length docs))) docs))).
  { unfold uploadDocuments. apply run_try.
    destruct (ur_files req) as [|f files] eqn:Hf; [done|].
    change (length (f :: files) =? 0)%nat with false. cbv iota.
    unfold if_truthy. rewrite Hdep. unfold Js.truthy.
    destruct (String.eqb_spec department EmptyString) as [|_]; [done|].
    cbn [negb]. cbv iota. by rewrite (run_bind _ _ _ _ _ Hrun). }
  by rewrite Hall.
Qed.

End UploadResponse.

(** ** Running the pipeline on a file that is there *)

Section Hoare.

Lemma hoare_bind {A B} (P : World → Prop) (m : M A) (k : A → M B)
    (Q1 : Outcome A → World → Prop) (Q : Outcome B → World → Prop) :
  hoare P m Q1 →
  (∀ a, hoare (Q1 (Ok a)) (k a) Q) →
  (∀ e w, Q1 (Threw e) w → Q (Threw e) w) →
  hoare P (bind m k) Q.
Proof.
  intros Hm Hk Hthrew w Hw. unfold bind. specialize (Hm w Hw).
  destruct (m w) as [w1 [a|e]]; simpl in *; [by apply Hk|by apply Hthrew].
Qed.

Lemma hoare_try {A} (P : World → Prop) (m : M A) (h : string → M A)
    (Q1 Q : Outcome A → World → Prop) :
  hoare P m Q1 →
  (∀ e, hoare (Q1 (Threw e)) (h e) Q) →
  (∀ a w, Q1 (Ok a) w → Q (Ok a) w) →
  hoare P (try_catch m h) Q.
Proof.
  intros Hm Hh Hok w Hw. unfold try_catch. specialize (Hm w Hw).
  destruct (m w) as [w1 [a|e]]; simpl in *; [by apply Hok|by apply Hh].
Qed.

Lemma hoare_weaken {A} (P P' : World → Prop) (m : M A) (Q Q' : Outcome A → World → Prop) :
  hoare P m Q → (∀ w, P' w → P w) → (∀ o w, Q o w → Q' o w) → hoare P' m Q'.
Proof. intros Hm HP HQ w Hw. apply HQ, Hm, HP, Hw. Qed.

(** A step that cannot throw and keeps what [P] looks at. *)
Lemma hoare_pass {A} (P : World → Prop) (m : M A) :
  total m → (∀ w, P w → P (m w).1) →
  hoare P m (λ o w, (∃ a, o = Ok a) ∧ P w).
Proof. intros Ht Hk w Hw. split; [apply Ht|by apply Hk]. Qed.

End Hoare.

Section Store.

Context (env : Env).
Hypothesis Hdb : database_up env.

Context (front : list Doc.t) (n : nat).
Hypothesis Hfront : Forall (λ d, Doc.id d < n) front.

Lemma update_rows_front (u : AIProcessingUpdate) :
  DocumentModel.update_rows n u front = front.
Proof.
  unfold DocumentModel.update_rows. clear Hdb.
  induction front as [|d l IH]; simpl; [done|].
  apply Forall_cons in Hfront as [Hd Hl]. rewrite (IH Hl).
  destruct (Nat.eqb_spec (Doc.id d) n) as [He|_]; [lia|done].
Qed.

Lemma filter_front : List.filter (λ d, (Doc.id d =? n)%nat) front = [].
Proof.
  clear Hdb. induction front as [|d l IH]; simpl; [done|].
  apply Forall_cons in Hfront as [Hd Hl].
  destruct (Nat.eqb_spec (Doc.id d) n) as [He|_]; [lia|by apply IH].
Qed.

(** An update of the last row: it is applied when the new row passes the
    [CHECK] constraints, and refused as a whole when it does not. *)
Lemma update_last_row (u : AIProcessingUpdate) (r : Doc.t) (next : nat) :
  Doc.id r = n →
  hoare (last_row front next r)
    (DocumentModel.updateAIProcessingResults env n u)
    (λ o w, if check_row (DocumentModel.apply_update u r)
            then o = Ok tt ∧ last_row front next (DocumentModel.apply_update u r) w
            else (∃ e, o = Threw e) ∧ last_row front next r w).
Proof.
  intros Hid w [Hrows Hnext].
  unfold DocumentModel.updateAIProcessingResults, DocumentModel.statement.
  rewrite Hdb. simpl. rewrite Hrows, List.filter_app, filter_front. simpl.
  rewrite Hid, Nat.eqb_refl. simpl. rewrite andb_true_r.
  destruct (check_row (DocumentModel.apply_update u r)); simpl.
  - split; [done|]. split; [|done].
    unfold DocumentModel.update_rows. rewrite map_app. simpl.
    rewrite Hid, Nat.eqb_refl. f_equal. apply update_rows_front.
  - split; [by eexists|]. by split.
Qed.

Lemma status_only_passes (s : Status) (r : Doc.t) :
  unscored r → check_row (DocumentModel.apply_update (status_only s) r) = true.
Proof. intros [H1 H2]. unfold check_row. simpl. by rewrite H1, H2. Qed.


End Store.

Section Totality.

Context (env : Env).

Lemma classifyDocument_total (text p : string) :
  total (AIService.classifyDocument env text p).
Proof.
  unfold AIService.classifyDocument. apply total_try. intros e.
  apply total_bind; [apply total_log|]. intros _.
  apply total_bind; [apply total_log|]. intros _. apply total_ret.
Qed.

Lemma generateSummary_total (text p : string) (t : option string) :
  total (AIService.generateSummary env text p t).
Proof.
  unfold AIService.generateSummary. apply total_try. intros e.
  apply total_bind; [apply total_log|]. intros _.
  apply total_bind; [apply total_log|]. intros _. apply total_ret.
Qed.

End Totality.

Section Resolution.

Context (env : Env).
Hypothesis Hdb : database_up env.

Context (front : list Doc.t) (n next : nat) (p : string).
Hypothesis Hfront : Forall (λ d, Doc.id d < n) front.

Lemma hoare_bind_pass {A B} (P : World → Prop) (m : M A) (k : A → M B)
    (Q : Outcome B → World → Prop) :
  total m → (∀ w, P w → P (m w).1) → (∀ a, hoare P (k a) Q) →
  hoare P (bind m k) Q.
Proof.
  intros Ht Hk Hnext w Hw. unfold bind. destruct (Ht w) as [a Ha].
  specialize (Hk w Hw). destruct (m w) as [w1 o]; simpl in *; subst o.
  by apply Hnext.
Qed.

Lemma hoare_bind_update {B} (u : AIProcessingUpdate) (r : Doc.t) (k : unit → M B)
    (Q : Outcome B → World → Prop) :
  Doc.id r = n →
  (check_row (DocumentModel.apply_update u r) = true →
   hoare (last_row front next (DocumentModel.apply_update u r)) (k tt) Q) →
  (check_row (DocumentModel.apply_update u r) = false →
   ∀ e w, last_row front next r w → Q (Threw e) w) →
  hoare (last_row front next r)
    (bind (DocumentModel.updateAIProcessingResults env n u) k) Q.
Proof.
  intros Hid Hpass Hfail w Hw. unfold bind.
  pose proof (update_last_row env Hdb front n Hfront u r next Hid w Hw) as Hu.
  destruct (DocumentModel.updateAIProcessingResults env n u w) as [w1 o]; simpl in *.
  destruct (check_row (DocumentModel.apply_update u r)).
  - destruct Hu as [-> Hw1]. by apply Hpass.
  - destruct Hu as [[e ->] Hw1]. by apply Hfail.
Qed.

(** Steps that leave the table alone keep the last row. *)
Lemma last_row_kept {A} (m : M A) (r : Doc.t) :
  table_fields_kept m → ∀ w, last_row front next r w → last_row front next r (m w).1.
Proof.
  intros (Hd & Hn & _) w [H1 H2]. split.
  - by rewrite (Hd w).
  - by rewrite (Hn w).
Qed.

Lemma log_line_table (l : LogLevel) (msg : string) : table_fields_kept (log_line l msg).
Proof. repeat split; keeps_field. Qed.


Lemma completed_after (u : AIProcessingUpdate) (r : Doc.t) :
  up_processing_status u = Some completed →
  Doc.processing_status (DocumentModel.apply_update u r) = completed.
Proof. intros H. simpl. by rewrite H. Qed.




End Resolution.

Section FilePresent.

Context (env : Env) (p : string) (c : list Byte.byte).

Lemma existsSync_run (w : World) :
  disk w !! p = Some c → fs.existsSync p w = (w, Ok true).
Proof.
  intros Hc. unfold fs.existsSync. rewrite Hc.
  by rewrite bool_decide_eq_true_2.
Qed.

Lemma generateFileHash_run (w : World) :
  disk w !! p = Some c →
  DocumentProcessor.generateFileHash env p w = (w, Ok (sha256 env c)).
Proof.
  intros Hc. unfold DocumentProcessor.generateFileHash, try_catch, bind, fs.readFileSync.
  by rewrite Hc.
Qed.

Lemma extractMetadata_run (w : World) :
  disk w !! p = Some c →
  ∃ md, DocumentProcessor.extractMetadata env p w = (w, Ok md).
Proof.
  intros Hc. unfold DocumentProcessor.extractMetadata.
  eexists. apply run_try.
  unfold bind at 1. unfold fs.statSync_size. rewrite Hc.
  by rewrite (run_bind _ _ _ _ _ (generateFileHash_run w Hc)).
Qed.

Lemma validateDocument_run (w : World) :
  disk w !! p = Some c →
  DocumentProcessor.validateDocument p w = (w, Ok (0 <? length c)%nat).
Proof.
  intros Hc. unfold DocumentProcessor.validateDocument. apply run_try.
  rewrite (run_bind _ _ _ _ _ (existsSync_run w Hc)). simpl.
  unfold bind, fs.statSync_size. by rewrite Hc.
Qed.

Lemma moveToProcessingQueue_run (dir : string) (w : World) :
  disk w !! p = Some c →
  ∃ w', DocumentProcessor.moveToProcessingQueue p dir w
        = (w', Ok (Path.join dir (Path.basename p))).
Proof.
  intros Hc. unfold DocumentProcessor.moveToProcessingQueue.
  eexists. apply run_try. unfold bind at 1. unfold fs.renameSync. rewrite Hc.
  reflexivity.
Qed.

Lemma prepare_run (w : World) :
  disk w !! p = Some c → c ≠ [] →
  ∃ a, (DocumentProcessor.prepareDocumentForMLProcessing env p w).2 = Ok a.
Proof.
  intros Hc Hne. unfold DocumentProcessor.prepareDocumentForMLProcessing.
  destruct (extractMetadata_run w Hc) as [md Hmd].
  destruct (moveToProcessingQueue_run (DocumentProcessor.mlQueueDir env) w Hc) as [w' Hmv].
  eexists. erewrite run_try; [reflexivity|].
  rewrite (run_bind _ _ _ _ _ (validateDocument_run w Hc)).
  assert (Hlen : (0 <? length c)%nat = true) by (destruct c; [done|reflexivity]).
  rewrite Hlen. simpl. unfold bind at 1. simpl.
  rewrite (run_bind _ _ _ _ _ Hmd), (run_bind _ _ _ _ _ Hmv).
  reflexivity.
Qed.

End FilePresent.

Section ProcessResolves.

Context (env : Env).
Hypothesis Hdb : database_up env.

Context (front : list Doc.t) (n next : nat).
Hypothesis Hfront : Forall (λ d, Doc.id d < n) front.

Lemma hoare_bind_ok {A B} (P P' : World → Prop) (m : M A) (k : A → M B)
    (Q : Outcome B → World → Prop) :
  hoare P m (λ o w, (∃ a, o = Ok a) ∧ P' w) →
  (∀ a, hoare P' (k a) Q) →
  hoare P (bind m k) Q.
Proof.
  intros Hm Hk. eapply hoare_bind; [exact Hm| |].
  - intros a w [_ Hw]. by apply Hk.
  - intros e w [[a Ha] _]. discriminate.
Qed.

(** A step that reads the file and changes nothing. *)
Lemma hoare_read {A} (P : World → Prop) (m : M A) :
  (∀ w, P w → ∃ a, m w = (w, Ok a)) →
  hoare P m (λ o w, (∃ a, o = Ok a) ∧ P w).
Proof. intros Hm w Hw. destruct (Hm w Hw) as [a ->]. simpl. eauto. Qed.

(** A step that reads the file, changes nothing and returns [a0]. *)
Lemma hoare_bind_read {A B} (P : World → Prop) (m : M A) (a0 : A) (k : A → M B)
    (Q : Outcome B → World → Prop) :
  (∀ w, P w → m w = (w, Ok a0)) → hoare P (k a0) Q → hoare P (bind m k) Q.
Proof. intros Hm Hk w Hw. rewrite (run_bind _ _ _ _ _ (Hm w Hw)). by apply Hk. Qed.

(** [processDocument] on a file that is on disk and not empty reaches its
    inner [try]/[catch], and leaves the last row as that leaves it. *)
Lemma processDocument_after (Qrow : Doc.t → Prop) (data : ProcessingJobData)
    (r0 : Doc.t) (c : list Byte.byte) :
  documentId data = n → c ≠ [] →
  hoare (last_row front next r0)
    (try_catch (ProcessingQueue.enrich env n (filePath data))
       (ProcessingQueue.fall_back env n (filePath data)))
    (λ _ w, ∃ r, last_row front next r w ∧ Qrow r) →
  hoare (λ w, last_row front next r0 w ∧ disk w !! filePath data = Some c)
    (ProcessingQueue.processDocument env data)
    (λ _ w, ∃ r, last_row front next r w ∧ Qrow r).
Proof.
  intros Hn Hne Hinner. unfold ProcessingQueue.processDocument. rewrite Hn.
  set (p := filePath data) in *.
  set (P := λ w, last_row front next r0 w ∧ disk w !! p = Some c).
  eapply hoare_try with
    (Q1 := λ _ w, ∃ r, last_row front next r w ∧ Qrow r).
  2:{ intros e w (r & Hw & Hr). exists r. split; [|done].
      by apply (last_row_kept front next (bind (logger.error _) (λ _, throw e)));
        [repeat split; keeps|]. }
  2:{ done. }
  apply (hoare_bind_pass P); [apply total_log|by intros w [? ?]|]. intros _.
  apply (hoare_bind_read P _ true).
  { intros w [_ Hc]. by apply (existsSync_run p c). }
  simpl negb. unfold when_.
  apply (hoare_bind_read P _ tt); [done|].
  apply (hoare_bind_read P _ (sha256 env c)).
  { intros w [_ Hc]. by apply generateFileHash_run. }
  apply (hoare_bind_ok P P).
  { apply hoare_read. intros w [_ Hc]. by apply (extractMetadata_run env p c). }
  intros metadata.
  apply (hoare_bind_ok P (last_row front next r0)).
  { intros w [Hw Hc]. split; [by apply (prepare_run env p c)|].
    by apply last_row_kept; [apply prepare_table|]. }
  intros preparedData.
  eapply hoare_bind with
    (Q1 := λ _ w, ∃ r, last_row front next r w ∧ Qrow r).
  - exact Hinner.
  - intros _ w (r & Hw & Hr). by exists r.
  - done.
Qed.

End ProcessResolves.

Section UploadTable.

Import DocumentController.

Context (env : Env).
Hypothesis Hdb : database_up env.

Lemma create_run (data : documentData) (w : World) :
  (dd_project_id data = Some ParseInt.NaN
   ∧ ∃ e, DocumentModel.create env data w = (tick_db w, Threw e))
  ∨ (dd_project_id data ≠ Some ParseInt.NaN
     ∧ ∃ w1,
         DocumentModel.create env data w
         = (w1, Ok (DocumentModel.inserted (next_id w) data))
         ∧ last_row (documents w) (S (next_id w))
             (DocumentModel.inserted (next_id w) data) w1
         ∧ disk w1 = disk w).
Proof.
  unfold DocumentModel.create, DocumentModel.statement. rewrite Hdb.
  destruct (dd_project_id data) as [[|z]|];
    [left; split; [done|by eexists]|right..];
    (split; [done|]); eexists; (split; [reflexivity|]); by repeat split.
Qed.

(** The handling of one file that is on disk and not empty: the insert is
    refused and no row is added, or one row is added and is left as the
    inner [try]/[catch] of the processing leaves it. *)
Lemma upload_one_after (Qrow : Doc.t → Prop) (req : UploadRequest) (department : string)
    (file : File.t) (acc : list UploadedDocument) (w : World) (c : list Byte.byte) :
  ids_below w → disk w !! File.path file = Some c → c ≠ [] →
  hoare (last_row (documents w) (S (next_id w))
           (DocumentModel.inserted (next_id w) (document_data req department file)))
    (try_catch (ProcessingQueue.enrich env (next_id w) (File.path file))
       (ProcessingQueue.fall_back env (next_id w) (File.path file)))
    (λ _ w', ∃ r, last_row (documents w) (S (next_id w)) r w' ∧ Qrow r) →
  ∀ w', w' = (upload_one env req department file acc w).1 →
  (dd_project_id (document_data req department file) = Some ParseInt.NaN
   ∧ documents w' = documents w ∧ next_id w' = next_id w)
  ∨ (∃ r, documents w' = documents w ++ [r] ∧ next_id w' = S (next_id w) ∧ Qrow r).
Proof.
  intros Hids Hc Hne Hinner w' ->. unfold upload_one.
  fold (document_data req department file).
  set (data := document_data req department file) in *.
  destruct (create_run data w) as [[Hnan [e He]]|(_ & w1 & He & Hrow & Hdisk)].
  - left. rewrite (run_try_threw _ _ _ _ _ (run_bind_threw _ _ _ _ _ He)). by split.
  - set (row := DocumentModel.inserted (next_id w) data) in *.
    set (job := {| documentId := Doc.id row; filePath := File.path file;
                   userId := User.id (ur_user req); job_department := department |}).
    assert (Hqueue :
      hoare (λ w0, last_row (documents w) (S (next_id w)) row w0
                   ∧ disk w0 !! filePath job = Some c)
        (ProcessingQueue.addDocumentForProcessing env job)
        (λ _ w', ∃ r, last_row (documents w) (S (next_id w)) r w' ∧ Qrow r)).
    { unfold ProcessingQueue.addDocumentForProcessing.
      eapply hoare_try with
        (Q1 := λ _ w', ∃ r, last_row (documents w) (S (next_id w)) r w' ∧ Qrow r).
      - by apply (processDocument_after env (documents w) (next_id w)
                    (S (next_id w)) Qrow job row c).
      - intros e w2 (r & Hw2 & Hr). exists r. split; [|done].
        by apply (last_row_kept _ _ (bind (logger.error _) (λ _, throw e)));
          [repeat split; keeps|].
      - done. }
    assert (Hafter : ∃ r, last_row (documents w) (S (next_id w)) r
                            (ProcessingQueue.addDocumentForProcessing env job w1).1
                          ∧ Qrow r).
    { apply (Hqueue w1). split; [done|]. simpl. by rewrite Hdisk. }
    destruct Hafter as (r & [Hrows Hnext] & Hr).
    right. exists r. unfold try_catch. rewrite (run_bind _ _ _ _ _ He). fold job.
    unfold bind.
    destruct (ProcessingQueue.addDocumentForProcessing env job w1) as [w2 [[]|e]];
      simpl in *; by repeat split.
Qed.


Lemma ids_below_grown (w w' : World) (r : Doc.t) :
  ids_below w → documents w' = documents w ++ [r] → next_id w' = S (next_id w) →
  Doc.id r = next_id w → ids_below w'.
Proof.
  unfold ids_below. intros Hids -> -> Hr. apply Forall_app. split.
  - eapply Forall_impl; [exact Hids|]. simpl. intros; lia.
  - constructor; [lia|constructor].
Qed.


End UploadTable.

Section UploadLogs.

Import DocumentController LogSpec.

Context (env : Env).

Lemma uploadDocuments_new_logs (req : UploadRequest) (department : string) (w : World)
    (docs : list UploadedDocument) :
  upload_each env req department (ur_files req) [] w
  = ((uploadDocuments env req w).1, Ok docs) →
  length docs = count reports_upload (new_logs (uploadDocuments env req) w)
  ∧ count reports_upload (new_logs (uploadDocuments env req) w)
    + count reports_failure (new_logs (uploadDocuments env req) w)
    = length (ur_files req).
Proof.
  intros Hrun.
  destruct (upload_each_outcome env req department (ur_files req) [] w)
    as (l & Hl & docs' & Hok & Hlen & Hall).
  rewrite Hrun in Hl, Hok. simpl in Hl, Hok. injection Hok as <-.
  unfold new_logs. rewrite Hl, drop_app_length. by split.
Qed.

End UploadLogs.

(** C10.  An upload request with at least one file and a non-empty
    department is answered with 201 and [success = true], whatever happens
    to the single files: the answer carries the entries of the files that
    went through and a message with their number; every file is closed by
    exactly one log line, the info line of an entry or the error line of a
    failure; when every file fails, the answer is still 201, with an empty
    [documents] array and the message "0 document(s) uploaded
    successfully". *)
Theorem upload_answers_201
    (env : Env) (req : UploadRequest) (department : string) (w : World) :
  ur_files req ≠ [] →
  ur_department req = Some department → department ≠ EmptyString →
  ∃ docs,
    (DocumentController.uploadDocuments env req w).2
    = Ok {| status := 201; success := true;
            message := Some (uploaded_message (length docs));
            error := None; payload := Some docs |}
    ∧ length docs
      = count LogSpec.reports_upload (new_logs (DocumentController.uploadDocuments env req) w)
    ∧ count LogSpec.reports_upload (new_logs (DocumentController.uploadDocuments env req) w)
      + count LogSpec.reports_failure (new_logs (DocumentController.uploadDocuments env req) w)
      = length (ur_files req)
    ∧ (count LogSpec.reports_failure (new_logs (DocumentController.uploadDocuments env req) w)
       = length (ur_files req) →
       (DocumentController.uploadDocuments env req w).2
       = Ok {| status := 201; success := true;
               message := Some "0 document(s) uploaded successfully";
               error := None; payload := Some [] |}).
Proof.
  intros Hfiles Hdep Hne.
  destruct (uploadDocuments_created env req department w Hfiles Hdep Hne)
    as (docs & Hrun & Hanswer).
  destruct (uploadDocuments_new_logs env req department w docs Hrun) as [Hlen Hall].
  exists docs. repeat split; try done.
  intros Hfail. rewrite Hanswer.
  assert (Hnone : docs = []) by (apply length_zero_iff_nil; lia).
  by rewrite Hnone.
Qed.

Lemma upload_answers_201_witness :
  ur_files Scenario.upload_request ≠ []
  ∧ ur_department Scenario.upload_request = Some "SAFETY"
  ∧ (DocumentController.uploadDocuments Scenario.database_down Scenario.upload_request
       (Scenario.after_multer Scenario.notice_bytes)).2
    = Ok {| status := 201; success := true;
            message := Some "0 document(s) uploaded successfully";
            error := None; payload := Some [] |}.
Proof.
  assert (Hfiles : ur_files Scenario.upload_request ≠ []) by discriminate.
  assert (Hne : "SAFETY" ≠ EmptyString) by discriminate.
  destruct (upload_answers_201 Scenario.database_down Scenario.upload_request "SAFETY"
              (Scenario.after_multer Scenario.notice_bytes) Hfiles eq_refl Hne)
    as (docs & _ & _ & _ & Hzero).
  split; [exact Hfiles|]. split; [reflexivity|].
  apply Hzero. vm_compute. reflexivity.
Defined.

(** C4.  Whatever the AI service answers, or fails to answer, to the
    classification and summary calls, an upload request with at least one
    file and a non-empty department is answered with 201 and
    [success = true]; every file of the request that was on disk is still
    stored afterwards, where multer put it or under its name in the queue
    directory; and every file of the batch is handled to its closing log
    line, whatever happened to the files before it.  (The stored names of
    one request differ, as multer's do.) *)
Theorem enrichment_failure_never_fails_upload
    (env : Env) (req : UploadRequest) (department : string) (w : World) :
  ur_files req ≠ [] →
  ur_department req = Some department → department ≠ EmptyString →
  NoDup (List.map stored_as (ur_files req)) →
  (∃ docs,
     (DocumentController.uploadDocuments env req w).2
     = Ok {| status := 201; success := true;
             message := Some (uploaded_message (length docs));
             error := None; payload := Some docs |})
  ∧ (∀ f c, In f (ur_files req) → disk w !! File.path f = Some c →
       disk (DocumentController.uploadDocuments env req w).1 !! File.path f = Some c
       ∨ disk (DocumentController.uploadDocuments env req w).1 !! queued env (File.path f)
         = Some c)
  ∧ count LogSpec.reports_upload (new_logs (DocumentController.uploadDocuments env req) w)
    + count LogSpec.reports_failure (new_logs (DocumentController.uploadDocuments env req) w)
    = length (ur_files req).
Proof.
  intros Hfiles Hdep Hne Hnd.
  destruct (uploadDocuments_created env req department w Hfiles Hdep Hne)
    as (docs & Hrun & Hanswer).
  destruct (uploadDocuments_new_logs env req department w docs Hrun) as [_ Hall].
  repeat split; [by exists docs| |done].
  intros f c Hin Hc.
  pose proof (upload_each_keeps_files env req department (ur_files req) [] w Hnd f c Hin Hc)
    as Hkept.
  by rewrite Hrun in Hkept.
Qed.

Lemma enrichment_failure_never_fails_upload_witness :
  ur_files Scenario.upload_request ≠ []
  ∧ NoDup (List.map stored_as (ur_files Scenario.upload_request))
  ∧ disk (Scenario.after_multer Scenario.notice_bytes) !! Scenario.stored_path
    = Some Scenario.notice_bytes
  ∧ (disk (DocumentController.uploadDocuments Scenario.offline Scenario.upload_request
             (Scenario.after_multer Scenario.notice_bytes)).1 !! Scenario.stored_path
     = Some Scenario.notice_bytes
     ∨ disk (DocumentController.uploadDocuments Scenario.offline Scenario.upload_request
               (Scenario.after_multer Scenario.notice_bytes)).1
         !! queued Scenario.offline Scenario.stored_path
       = Some Scenario.notice_bytes).
Proof.
  assert (Hfiles : ur_files Scenario.upload_request ≠ []) by discriminate.
  assert (Hne : "SAFETY" ≠ EmptyString) by discriminate.
  assert (Hnd : NoDup (List.map stored_as (ur_files Scenario.upload_request))).
  { simpl. apply NoDup_cons. split; [apply not_elem_of_nil|apply NoDup_nil_2]. }
  assert (Hc : disk (Scenario.after_multer Scenario.notice_bytes) !! Scenario.stored_path
               = Some Scenario.notice_bytes) by (vm_compute; reflexivity).
  destruct (enrichment_failure_never_fails_upload Scenario.offline Scenario.upload_request
              "SAFETY" (Scenario.after_multer Scenario.notice_bytes) Hfiles eq_refl Hne Hnd)
    as (_ & Hkept & _).
  split; [exact Hfiles|]. split; [exact Hnd|]. split; [exact Hc|].
  apply (Hkept Scenario.notice); [by left|exact Hc].
Defined.




(** ** Stored file names and the fall-back classification *)

Section StoredNames.

Lemma prefix_empty (s : string) : String.prefix EmptyString s = true.
Proof. by destruct s. Qed.

Lemma cannot_end_prefix (run rest word : string) :
  all_chars is_prefix_char run = true →
  cannot_end rest word = true →
  String.prefix word (run ++ rest) = false.
Proof.
  revert word. induction run as [|c run IH]; intros word Hrun Hword.
  - destruct word; simpl in Hword; apply andb_true_iff in Hword as [Hp _];
      by apply negb_true_iff in Hp.
  - rewrite append_cons. simpl in Hrun. apply andb_true_iff in Hrun as [Hc Hrun].
    destruct word as [|a word].
    + simpl in Hword. by rewrite prefix_empty in Hword.
    + simpl. destruct (ascii_dec a c) as [->|]; [|done].
      simpl in Hword. rewrite Hc in Hword.
      apply andb_true_iff in Hword as [_ Hword]. by apply IH.
Qed.

Lemma cannot_begin_prefix (c : ascii) (run rest word : string) :
  all_chars is_prefix_char (String c run) = true →
  cannot_begin rest word = true →
  String.prefix word (String c run ++ rest) = false.
Proof.
  intros Hrun Hword. rewrite append_cons. simpl in Hrun.
  apply andb_true_iff in Hrun as [Hc Hrun].
  destruct word as [|a word]; [done|]. simpl.
  destruct (ascii_dec a c) as [->|]; [|done].
  simpl in Hword. rewrite Hc in Hword. by apply cannot_end_prefix.
Qed.

(** A word that cannot begin in the run and does not occur in the rest does
    not occur in the file name. *)
Lemma includes_behind_run (run rest word : string) :
  all_chars is_prefix_char run = true →
  cannot_begin rest word = true →
  Js.includes rest word = false →
  Js.includes (run ++ rest) word = false.
Proof.
  intros Hrun Hword Hrest. induction run as [|c run IH]; [done|].
  pose proof (cannot_begin_prefix c run rest word Hrun Hword) as Hhere.
  rewrite append_cons in *.
  change (String.prefix word (String c (run ++ rest)) || Js.includes (run ++ rest) word
          = false).
  rewrite Hhere. simpl in Hrun. apply andb_true_iff in Hrun as [_ Hrun]. by apply IH.
Qed.

Lemma includes_after (run rest word : string) :
  Js.includes rest word = true → Js.includes (run ++ rest) word = true.
Proof.
  intros H. induction run as [|c run IH]; [done|].
  rewrite append_cons.
  change (String.prefix word (String c (run ++ rest)) || Js.includes (run ++ rest) word
          = true).
  rewrite IH. apply orb_true_r.
Qed.

Lemma toLowerCase_app (s t : string) :
  Js.toLowerCase (s ++ t) = (Js.toLowerCase s ++ Js.toLowerCase t)%string.
Proof.
  induction s as [|c s IH]; [done|]. rewrite append_cons. simpl. by rewrite IH.
Qed.

Lemma lower_prefix_char (c : ascii) : is_prefix_char c = true → Js.lower_char c = c.
Proof.
  destruct c as [[] [] [] [] [] [] [] []]; vm_compute; congruence.
Qed.

Lemma toLowerCase_run (s : string) :
  all_chars is_prefix_char s = true → Js.toLowerCase s = s.
Proof.
  induction s as [|c s IH]; simpl; [done|].
  intros H. apply andb_true_iff in H as [Hc Hs]. by rewrite lower_prefix_char, IH.
Qed.

Lemma all_chars_app (P : ascii → bool) (s t : string) :
  all_chars P (s ++ t) = all_chars P s && all_chars P t.
Proof.
  induction s as [|c s IH]; [done|]. rewrite append_cons. simpl.
  by rewrite IH, andb_assoc.
Qed.

Lemma all_chars_impl (P Q : ascii → bool) (s : string) :
  (∀ c, P c = true → Q c = true) → all_chars P s = true → all_chars Q s = true.
Proof.
  intros HPQ. induction s as [|c s IH]; simpl; [done|].
  intros H. apply andb_true_iff in H as [Hc Hs]. by rewrite (HPQ c Hc), IH.
Qed.

Lemma prefix_char_slash_free (s : string) :
  all_chars is_prefix_char s = true → slash_free s = true.
Proof.
  induction s as [|c s IH]; simpl; [done|].
  intros H. apply andb_true_iff in H as [Hc Hs]. rewrite (IH Hs), andb_true_r.
  revert Hc. destruct c as [[] [] [] [] [] [] [] []]; vm_compute; congruence.
Qed.

Lemma slash_free_app (s t : string) :
  slash_free (s ++ t) = slash_free s && slash_free t.
Proof.
  induction s as [|c s IH]; [done|]. rewrite append_cons. simpl.
  by rewrite IH, andb_assoc.
Qed.

Lemma from_last_dot_app (run rest e : string) :
  Path.from_last_dot rest = Some e → Path.from_last_dot (run ++ rest) = Some e.
Proof.
  intros H. induction run as [|c run IH]; [done|].
  rewrite append_cons. simpl. by rewrite IH.
Qed.

End StoredNames.

Section SafetyNotice.

Context (env : Env) (department : option string).
Context (timestamp uniqueId : string).
Hypothesis Hstamp : all_chars is_date_char timestamp = true.
Hypothesis Hhex : all_chars is_hex_char uniqueId = true.

Let rest : string := "safety_notice.pdf".
Let run : string := (timestamp ++ "_" ++ uniqueId ++ "_")%string.
Let name : string := Multer.filename timestamp uniqueId "safety_notice.pdf".
Let path : string := Path.join (Multer.destination env department) name.

Lemma append_assoc (s t u : string) : ((s ++ t) ++ u)%string = (s ++ (t ++ u))%string.
Proof. induction s as [|c s IH]; [done|]. by rewrite !append_cons, IH. Qed.

Lemma stored_name_split : name = (run ++ rest)%string.
Proof.
  unfold name, run, rest, Multer.filename.
  change (Multer.safeName "safety_notice.pdf") with "safety_notice.pdf".
  rewrite !append_assoc. reflexivity.
Qed.

Lemma run_chars : all_chars is_prefix_char run = true.
Proof.
  unfold run. rewrite !all_chars_app.
  rewrite (all_chars_impl is_date_char is_prefix_char timestamp), 
          (all_chars_impl is_hex_char is_prefix_char uniqueId); try done.
  - intros c Hc. unfold is_prefix_char. by rewrite Hc, orb_true_r.
  - intros c Hc. unfold is_prefix_char. by rewrite Hc.
Qed.

Lemma stored_basename : Path.basename path = name.
Proof.
  apply basename_join. rewrite stored_name_split, slash_free_app.
  by rewrite (prefix_char_slash_free run run_chars).
Qed.

Lemma stored_lower : Js.toLowerCase (Path.basename path) = (run ++ rest)%string.
Proof.
  rewrite stored_basename, stored_name_split, toLowerCase_app.
  by rewrite (toLowerCase_run run run_chars).
Qed.

Lemma stored_extname : Path.extname path = ".pdf".
Proof.
  unfold Path.extname. rewrite stored_basename, stored_name_split.
  assert (Hrun : ∃ c run', run = String c run').
  { unfold run. destruct timestamp; eexists _, _; reflexivity. }
  destruct Hrun as (c & run' & ->). rewrite append_cons.
  by rewrite (from_last_dot_app run' rest ".pdf").
Qed.

Lemma earlier_word_absent (word : string) :
  In word earlier_words → Js.includes (run ++ rest) word = false.
Proof.
  intros Hin. apply includes_behind_run; [apply run_chars| |];
    unfold earlier_words in Hin; simpl in Hin;
    repeat (destruct Hin as [<-|Hin]; [vm_compute; reflexivity|]); done.
Qed.

Lemma no_earlier_word (words : list string) :
  incl words earlier_words → AIService.any_includes (run ++ rest) words = false.
Proof.
  intros Hincl. unfold AIService.any_includes.
  induction words as [|k words IH]; simpl; [done|].
  rewrite earlier_word_absent by (apply Hincl; by left). simpl.
  apply IH. intros k' Hk'. apply Hincl. by right.
Qed.

(** The fall-back rules on the stored name of [safety_notice.pdf]: the
    three earlier rules do not fire, the safety rule does. *)
Lemma stored_notice_classification :
  document_type (AIService.fallbackClassification EmptyString path None)
  = Some "safety&training"
  ∧ confidence (AIService.fallbackClassification EmptyString path None)
    = Some (90 # 100).
Proof.
  unfold AIService.fallbackClassification. cbv zeta.
  rewrite stored_lower, stored_extname.
  rewrite (no_earlier_word ["maintenance"; "inspection"; "repair"; "operation"; "schedule"]),
          (no_earlier_word ["bill"; "invoice"; "purchase"; "budget"; "financial"; "audit"]),
          (no_earlier_word ["compliance"; "regulation"; "standard"; "audit"]).
  2-4: (intros k Hk; unfold earlier_words; simpl in Hk |- *; tauto).
  assert (Hsafety : AIService.any_includes (run ++ rest)
                      ["safety"; "training"; "hazard"; "incident"; "emergency"] = true).
  { unfold AIService.any_includes. simpl existsb.
    rewrite (includes_after run rest "safety"); [done|]. vm_compute. reflexivity. }
  rewrite Hsafety. split; reflexivity.
Qed.

End SafetyNotice.

Section Offline.

Context (env : Env).
Hypothesis Hdb : database_up env.
Hypothesis Hai : ai_unreachable env.

Lemma classifyDocument_unreachable (text p : string) (w : World) :
  (AIService.classifyDocument env text p w).2
  = Ok (AIService.fallbackClassification text p None).
Proof.
  unfold AIService.classifyDocument, try_catch, bind at 1, bind at 1.
  unfold AIService.post_classification. simpl.
  destruct (proj1 Hai (classify_calls w)) as [reason ->]. reflexivity.
Qed.

Lemma generateSummary_unreachable (text p : string) (t : option string) (w : World) :
  (AIService.generateSummary env text p t w).2 = Ok (AIService.fallbackSummary env text p).
Proof.
  unfold AIService.generateSummary, try_catch, bind at 1, bind at 1.
  unfold AIService.post_summary. simpl.
  destruct (proj2 Hai (summary_calls w)) as [reason ->]. reflexivity.
Qed.

Context (front : list Doc.t) (n next : nat) (p : string).
Hypothesis Hfront : Forall (λ d, Doc.id d < n) front.

Lemma hoare_bind_known {A B} (P : World → Prop) (m : M A) (a0 : A) (k : A → M B)
    (Q : Outcome B → World → Prop) :
  (∀ w, (m w).2 = Ok a0) → (∀ w, P w → P (m w).1) → hoare P (k a0) Q →
  hoare P (bind m k) Q.
Proof.
  intros Hm Hkeep Hk w Hw. unfold bind. specialize (Hm w). specialize (Hkeep w Hw).
  destruct (m w) as [w1 o]; simpl in *; subst o. by apply Hk.
Qed.

Lemma enrich_offline (r0 : Doc.t) :
  Doc.id r0 = n → unscored r0 → check_row (enriched_offline env p r0) = true →
  hoare (last_row front next r0)
    (try_catch (ProcessingQueue.enrich env n p) (ProcessingQueue.fall_back env n p))
    (λ _ w, ∃ r, last_row front next r w ∧ r = enriched_offline env p r0).
Proof.
  intros Hid Hun Hcheck.
  eapply hoare_try with
    (Q1 := λ o w, (∃ a, o = Ok a) ∧ last_row front next (enriched_offline env p r0) w).
  2:{ intros e w [[a Ha] _]. discriminate. }
  2:{ intros a w [_ Hw]. by eexists. }
  unfold ProcessingQueue.enrich.
  apply hoare_bind_update; [done..| |].
  2:{ by rewrite status_only_passes. }
  intros _.
  apply hoare_bind_pass;
    [apply total_log|apply last_row_kept, log_line_table|intros _].
  apply (hoare_bind_known _ _ (AIService.fallbackClassification EmptyString p None));
    [apply classifyDocument_unreachable|apply last_row_kept, classifyDocument_table|].
  apply hoare_bind_pass;
    [apply total_log|apply last_row_kept, log_line_table|intros _].
  apply (hoare_bind_known _ _ (AIService.fallbackSummary env EmptyString p));
    [apply generateSummary_unreachable|apply last_row_kept, generateSummary_table|].
  apply hoare_bind_update; [done..| |].
  - intros _ w Hw. split; [by eexists|exact Hw].
  - fold (enriched_offline env p r0). by rewrite Hcheck.
Qed.

End Offline.

Section OneFile.

Import DocumentController.

Lemma upload_each_single (env : Env) (req : UploadRequest) (department : string)
    (file : File.t) (w : World) :
  (upload_each env req department [file] [] w).1
  = (upload_one env req department file [] w).1.
Proof.
  simpl. unfold bind. by destruct (upload_one env req department file [] w) as [w1 [docs|e]].
Qed.

End OneFile.

(** C6.  The file [safety_notice.pdf], uploaded with department SAFETY
    while no call to the AI service is answered: multer stores it as
    [<date>_<8 hex digits>_safety_notice.pdf] under the department's
    directory; with the file on disk and not empty and a database that
    takes every statement, the request adds one record, whose
    [ai_classification] is "safety&training", whose
    [classification_confidence] is 0.9000 and whose status is completed. *)
Theorem safety_notice_offline
    (env : Env) (w : World) (req : UploadRequest)
    (timestamp uniqueId mimetype : string) (size : nat) (bytes : list Byte.byte) :
  database_up env → ai_unreachable env → ids_below w →
  all_chars is_date_char timestamp = true →
  all_chars is_hex_char uniqueId = true →
  ur_files req
  = [Multer.stored env (Some "SAFETY") timestamp uniqueId "safety_notice.pdf" mimetype size] →
  ur_department req = Some "SAFETY" →
  ur_project_id req = None →
  disk w !! File.path (Multer.stored env (Some "SAFETY") timestamp uniqueId
                         "safety_notice.pdf" mimetype size) = Some bytes →
  bytes ≠ [] →
  ∃ r,
    documents (DocumentController.uploadDocuments env req w).1 = documents w ++ [r]
    ∧ Doc.original_filename r = "safety_notice.pdf"
    ∧ Doc.department r = "SAFETY"
    ∧ Doc.ai_classification r = Some "safety&training"
    ∧ Doc.classification_confidence r = Some 9000%Z
    ∧ Doc.processing_status r = completed.
Proof.
  intros Hdb Hai Hids Hstamp Hhex Hfiles Hdep Hproject Hbytes Hne.
  set (file := Multer.stored env (Some "SAFETY") timestamp uniqueId
                 "safety_notice.pdf" mimetype size) in *.
  assert (Hsome : ur_files req ≠ []) by (rewrite Hfiles; discriminate).
  assert (Hsafety : "SAFETY" ≠ EmptyString) by discriminate.
  destruct (uploadDocuments_created env req "SAFETY" w Hsome Hdep Hsafety)
    as (docs & Hrun & _).
  assert (Hworld : (DocumentController.uploadDocuments env req w).1
                   = (DocumentController.upload_one env req "SAFETY" file [] w).1).
  { rewrite <- upload_each_single, <- Hfiles. by rewrite Hrun. }
  rewrite Hworld.
  set (row0 := DocumentModel.inserted (next_id w) (document_data req "SAFETY" file)).
  destruct (stored_notice_classification env (Some "SAFETY") timestamp uniqueId Hstamp Hhex)
    as [Htype Hconf].
  fold (File.path file) in Htype, Hconf.
  assert (Hcheck : check_row (enriched_offline env (File.path file) row0) = true).
  { unfold check_row, enriched_offline. simpl. by rewrite Hconf. }
  destruct (upload_one_after env Hdb (λ r, r = enriched_offline env (File.path file) row0)
              req "SAFETY" file [] w bytes Hids Hbytes Hne) with (w' :=
              (DocumentController.upload_one env req "SAFETY" file [] w).1)
    as [(Hnan & _)|(r & Hrows & _ & ->)].
  - by apply (enrich_offline env Hdb Hai (documents w) (next_id w) (S (next_id w))
                (File.path file) Hids row0).
  - done.
  - simpl in Hnan. unfold DocumentController.if_truthy in Hnan.
    rewrite Hproject in Hnan. discriminate.
  - exists (enriched_offline env (File.path file) row0). split; [done|].
    unfold enriched_offline. simpl. rewrite Htype, Hconf. by repeat split.
Qed.

Lemma safety_notice_offline_witness :
  database_up Scenario.offline ∧ ai_unreachable Scenario.offline
  ∧ Scenario.notice_bytes ≠ []
  ∧ ∃ r,
      documents (DocumentController.uploadDocuments Scenario.offline Scenario.upload_request
                   (Scenario.after_multer Scenario.notice_bytes)).1
      = documents (Scenario.after_multer Scenario.notice_bytes) ++ [r]
      ∧ Doc.original_filename r = "safety_notice.pdf"
      ∧ Doc.department r = "SAFETY"
      ∧ Doc.ai_classification r = Some "safety&training"
      ∧ Doc.classification_confidence r = Some 9000%Z
      ∧ Doc.processing_status r = completed.
Proof.
  assert (Hdb : database_up Scenario.offline) by (intros n; reflexivity).
  assert (Hai : ai_unreachable Scenario.offline)
    by (split; intros n; eexists; reflexivity).
  assert (Hne : Scenario.notice_bytes ≠ []) by discriminate.
  split; [exact Hdb|]. split; [exact Hai|]. split; [exact Hne|].
  apply (safety_notice_offline Scenario.offline (Scenario.after_multer Scenario.notice_bytes)
           Scenario.upload_request "2024-05-01" "0a1b2c3d" "application/pdf" 4
           Scenario.notice_bytes Hdb Hai).
  - apply Forall_nil_2.
  - reflexivity.
  - reflexivity.
  - reflexivity.
  - reflexivity.
  - reflexivity.
  - vm_compute. reflexivity.
  - exact Hne.
Defined.

(** ** Confidences stay in the unit interval *)

#[global] Instance keeps_range_preorder : PreOrder keeps_range.
Proof.
  split; [intros w H; exact H|].
  intros w1 w2 w3 H1 H2 H. apply H2, H1, H.
Qed.

Section Confidence.

Context (env : Env).

Lemma check_confidence_range (c : option Z) :
  check_confidence c = true → in_unit_interval c.
Proof.
  intros H z ->. simpl in H. apply andb_true_iff in H as [H0 H1].
  apply Z.leb_le in H0, H1. unfold decimal_value, Qle. simpl. lia.
Qed.

Lemma check_row_range (d : Doc.t) :
  check_row d = true →
  in_unit_interval (Doc.classification_confidence d)
  ∧ in_unit_interval (Doc.summary_confidence d).
Proof.
  unfold check_row. intros H. apply andb_true_iff in H as [H1 H2].
  split; by apply check_confidence_range.
Qed.

Lemma same_documents_keeps_range {A} (m : M A) :
  preserves (same documents) m → preserves keeps_range m.
Proof. intros H w Hw. unfold confidences_in_range. by rewrite (H w). Qed.

Lemma create_keeps_range (data : documentData) :
  preserves keeps_range (DocumentModel.create env data).
Proof.
  intros w Hw. unfold DocumentModel.create, DocumentModel.statement.
  destruct (db_up env (db_calls w)); [|exact Hw].
  destruct (dd_project_id data) as [[|z]|]; [exact Hw| |];
    (apply Forall_app; split; [exact Hw|]);
    (apply Forall_cons; split; [|apply Forall_nil_2]);
    split; intros z' Hz'; discriminate Hz'.
Qed.

Lemma update_keeps_range (id : nat) (u : AIProcessingUpdate) :
  preserves keeps_range (DocumentModel.updateAIProcessingResults env id u).
Proof.
  intros w Hw. unfold DocumentModel.updateAIProcessingResults, DocumentModel.statement.
  destruct (db_up env (db_calls w)); [|exact Hw].
  destruct (forallb _ _) eqn:Hcheck; [|exact Hw]. simpl.
  unfold confidences_in_range in *. simpl. unfold DocumentModel.update_rows.
  rewrite forallb_forall in Hcheck.
  apply List.Forall_forall. intros d' Hin.
  apply in_map_iff in Hin as (d & <- & Hd).
  destruct (Doc.id d =? id)%nat eqn:Hid.
  - apply check_row_range, Hcheck, filter_In. by split.
  - rewrite List.Forall_forall in Hw. by apply Hw.
Qed.

Lemma delete_keeps_range (id : Z) :
  preserves keeps_range (DocumentModel.deleteDocument env id).
Proof.
  intros w Hw. unfold DocumentModel.deleteDocument, DocumentModel.statement.
  destruct (db_up env (db_calls w)); [|exact Hw]. simpl.
  unfold confidences_in_range in *. simpl.
  apply List.Forall_forall. intros d Hin. apply filter_In in Hin as [Hin _].
  rewrite List.Forall_forall in Hw. by apply Hw.
Qed.

End Confidence.

(** A computation keeps the confidences in range: split it; each leaf is
    one of the three writes of the store, or leaves the table alone. *)
Ltac in_range :=
  repeat first
    [ apply create_keeps_range
    | apply update_keeps_range
    | apply delete_keeps_range
    | keeps_step ];
  try (apply same_documents_keeps_range;
       solve [keeps_field | intros ?; reflexivity]);
  try (let H := fresh in intros H; exact H).

Section ConfidenceRoutes.

Context (env : Env).

Lemma processDocument_keeps_range (data : ProcessingJobData) :
  preserves keeps_range (ProcessingQueue.processDocument env data).
Proof.
  unfold ProcessingQueue.processDocument,
    ProcessingQueue.enrich, ProcessingQueue.fall_back,
    DocumentProcessor.prepareDocumentForMLProcessing, DocumentProcessor.validateDocument,
    DocumentProcessor.moveToProcessingQueue, DocumentProcessor.extractMetadata,
    DocumentProcessor.generateFileHash, AIService.classifyDocument,
    AIService.generateSummary.
  in_range.
Qed.

Lemma upload_each_keeps_range (req : UploadRequest) (department : string)
    (files : list File.t) (acc : list UploadedDocument) :
  preserves keeps_range (DocumentController.upload_each env req department files acc).
Proof.
  revert acc. induction files as [|f files IH]; intros acc; simpl; [in_range|].
  apply preserves_bind; [apply _| |intros docs; apply IH].
  unfold DocumentController.upload_one, ProcessingQueue.addDocumentForProcessing.
  in_range.
Qed.

Lemma uploadDocuments_keeps_range (req : UploadRequest) :
  preserves keeps_range (DocumentController.uploadDocuments env req).
Proof.
  unfold DocumentController.uploadDocuments. in_range. apply upload_each_keeps_range.
Qed.

Lemma deleteDocument_keeps_range (user : User.t) (idParam : option string) :
  preserves keeps_range (DocumentController.deleteDocument env user idParam).
Proof.
  unfold DocumentController.deleteDocument, DocumentController.with_document_id,
    DocumentModel.findById.
  in_range.
Qed.

Lemma manual_trigger_keeps_range (user : User.t) (idParam : option string) :
  preserves keeps_range (DocumentController.processDocument env user idParam).
Proof.
  unfold DocumentController.processDocument, DocumentController.with_document_id,
    DocumentModel.findById, AIService.classifyDocument.
  in_range.
Qed.

End ConfidenceRoutes.

(** C9.  In a table in which every confidence that is present lies in
    [0, 1] (an empty table, for one), this is still so after an upload with
    its processing, after a processing run, after the manual trigger, after
    a delete and after any single update of the store, whatever the AI
    service has answered: the [CHECK] constraints refuse a row whose
    confidence is out of range, so the update that would merge such a value
    changes nothing. *)
Theorem confidences_stay_in_unit_interval (env : Env) (w : World) :
  confidences_in_range w →
  (∀ req, confidences_in_range (DocumentController.uploadDocuments env req w).1)
  ∧ (∀ data, confidences_in_range (ProcessingQueue.processDocument env data w).1)
  ∧ (∀ user idParam,
       confidences_in_range (DocumentController.processDocument env user idParam w).1)
  ∧ (∀ user idParam,
       confidences_in_range (DocumentController.deleteDocument env user idParam w).1)
  ∧ (∀ id u, confidences_in_range (DocumentModel.updateAIProcessingResults env id u w).1).
Proof.
  intros Hw. repeat split; intros.
  - by apply uploadDocuments_keeps_range.
  - by apply processDocument_keeps_range.
  - by apply manual_trigger_keeps_range.
  - by apply deleteDocument_keeps_range.
  - by apply update_keeps_range.
Qed.

Lemma confidences_stay_in_unit_interval_witness :
  confidences_in_range (Scenario.after_multer Scenario.notice_bytes)
  ∧ confidences_in_range
      (DocumentController.uploadDocuments Scenario.overconfident Scenario.upload_request
         (Scenario.after_multer Scenario.notice_bytes)).1.
Proof.
  assert (Hempty : confidences_in_range (Scenario.after_multer Scenario.notice_bytes))
    by apply Forall_nil_2.
  split; [exact Hempty|].
  destruct (confidences_stay_in_unit_interval Scenario.overconfident
              (Scenario.after_multer Scenario.notice_bytes) Hempty) as [Hupload _].
  apply Hupload.
Defined.

(** C2 fails on the code.  The notice is uploaded (201, one entry, record
    1), and the bytes are on disk, but under the queue directory:
    [prepareDocumentForMLProcessing] has moved the file and the record's
    [file_path] still names the place it left.  The download of record 1
    that follows is answered with 404 "File not found on disk".  The
    download route itself is sound: a record whose file is where
    [file_path] says is streamed byte for byte. *)
Theorem download_after_upload_finds_no_file :
  let uploaded :=
    DocumentController.uploadDocuments Scenario.offline Scenario.upload_request
      (Scenario.after_multer Scenario.notice_bytes) in
  List.map ud_id (default [] (from_option payload None
                                (match uploaded.2 with Ok r => Some r | Threw _ => None end)))
  = [1]
  ∧ List.map Doc.file_path (documents uploaded.1) = [Scenario.stored_path]
  ∧ disk uploaded.1 !! Scenario.stored_path = None
  ∧ disk uploaded.1 !! queued Scenario.offline Scenario.stored_path
    = Some Scenario.notice_bytes
  ∧ (DocumentController.downloadDocument Scenario.offline Scenario.officer (Some "1")
       uploaded.1).2
    = Ok (DownloadJson (json_fail 404 "File not found on disk" None))
  ∧ (DocumentController.downloadDocument Scenario.offline Scenario.officer (Some "3")
       Library.world).2
    = Ok (DownloadStream "application/pdf"
            ("attachment; filename=" ++ String DocumentController.dquote
               ("Safety_manual.pdf" ++ String DocumentController.dquote EmptyString))
            [Byte.x25; Byte.x50]).
Proof. repeat split; vm_compute; reflexivity. Qed.

(** * Further properties of the code *)

(** ** The helpers of the summary route *)

Section Insights.

Import DocumentInsights.

Lemma push_loop_filter {A} (P : A → bool) (l acc : list A) :
  fold_left (λ pushed a, if P a then pushed ++ [a] else pushed) l acc
  = acc ++ List.filter P l.
Proof.
  revert acc. induction l as [|a l IH]; intros acc; simpl; [by rewrite app_nil_r|].
  rewrite IH. destruct (P a); [|done]. by rewrite <- app_assoc.
Qed.

Lemma suggestions_filter (query : string) :
  generateSearchSuggestions query
  = take 5 (List.filter (suggests (Js.toLowerCase query)) kmrlTerms).
Proof. unfold generateSearchSuggestions. by rewrite push_loop_filter. Qed.

Lemma filter_sublist {A} (P : A → bool) (l : list A) : List.filter P l `sublist_of` l.
Proof.
  induction l as [|a l IH]; simpl; [constructor|].
  destruct (P a); by constructor.
Qed.

Lemma take_sublist {A} (n : nat) (l : list A) : take n l `sublist_of` l.
Proof.
  revert n. induction l as [|a l IH]; intros [|n]; simpl; try constructor; try done.
  apply sublist_nil_l.
Qed.

Lemma lower_char_idem (c : ascii) : Js.lower_char (Js.lower_char c) = Js.lower_char c.
Proof. destruct c as [[] [] [] [] [] [] [] []]; vm_compute; reflexivity. Qed.

Lemma toLowerCase_idem (s : string) : Js.toLowerCase (Js.toLowerCase s) = Js.toLowerCase s.
Proof. induction s as [|c s IH]; simpl; [done|]. by rewrite lower_char_idem, IH. Qed.

Lemma includes_self_prefix (s t : string) : String.prefix s (s ++ t) = true.
Proof.
  induction s as [|c s IH]; [apply prefix_empty|].
  rewrite append_cons. simpl. destruct (ascii_dec c c); [exact IH|done].
Qed.

Lemma includes_inside (a word b : string) : Js.includes (a ++ word ++ b) word = true.
Proof.
  apply includes_after. destruct word as [|c word]; [by destruct b|].
  rewrite append_cons.
  change (String.prefix (String c word) (String c (word ++ b))
          || Js.includes (word ++ b) (String c word) = true).
  pose proof (includes_self_prefix (String c word) b) as H.
  rewrite append_cons in H. by rewrite H.
Qed.

End Insights.

(** The priority score is the sum of the urgency points, two points per
    compliance tag and three per keyword that contains one of the five
    safety words, cut off at 100: it never leaves [0, 100], and an urgency
    level outside the four known ones adds nothing. *)
Theorem priority_score_capped_sum (document : Doc.t) (aiSummary : AiSummary) :
  DocumentInsights.calculatePriorityScore document aiSummary
  = Nat.min 100
      (DocumentInsights.urgency_points (Doc.urgency_level document)
       + 2 * length (default [] (as_compliance_tags aiSummary))
       + 3 * count (λ keyword,
                      existsb (λ sk, Js.includes (Js.toLowerCase keyword) sk)
                        DocumentInsights.safetyKeywords)
               (default [] (as_keywords aiSummary)))
  ∧ (DocumentInsights.calculatePriorityScore document aiSummary ≤ 100)%nat
  ∧ (DocumentInsights.urgency_points (Doc.urgency_level document) ≤ 10)%nat.
Proof.
  unfold DocumentInsights.calculatePriorityScore.
  split; [|split; [apply Nat.le_min_r|]].
  - set (points := DocumentInsights.urgency_points (Doc.urgency_level document)).
    destruct (as_compliance_tags aiSummary) as [tags|],
      (as_keywords aiSummary) as [keywords|]; cbn [default];
      rewrite ?forEach_count;
      try (destruct (0 <? length tags)%nat eqn:Htags;
           [apply Nat.ltb_lt in Htags|apply Nat.ltb_ge in Htags]);
      unfold id; cbn [length count List.filter]; lia.
  - unfold DocumentInsights.urgency_points.
    repeat (destruct (String.eqb _ _); [lia|]). lia.
Qed.

(** The cut [slice(0, 3)] of the sharing recommendations never drops one:
    the two rules on the document type exclude each other, so at most
    three lines are ever pushed.  The line "Notify: ..." is there exactly
    when there is a related department. *)
Theorem sharing_recommendations_never_cut (document : Doc.t) (aiSummary : AiSummary) :
  let related := default [] (as_related_departments aiSummary) in
  let type_lines :=
    if bool_decide (as_document_type aiSummary = Some "SAFETY_NOTICE")
    then ["Share with all station controllers"; "Add to safety training materials"]
    else if bool_decide (as_document_type aiSummary = Some "MAINTENANCE_REPORT")
    then ["Forward to preventive maintenance team"; "Archive in maintenance knowledge base"]
    else [] in
  DocumentInsights.getSharingRecommendations document aiSummary
  = type_lines ++ match related with
                  | [] => []
                  | _ => [("Notify: " ++ DocumentInsights.join_comma related)%string]
                  end
  ∧ (length (DocumentInsights.getSharingRecommendations document aiSummary) ≤ 3)%nat.
Proof.
  unfold DocumentInsights.getSharingRecommendations, DocumentInsights.push_if.
  destruct (as_document_type aiSummary) as [t|]; simpl.
  - destruct (String.eqb_spec t "SAFETY_NOTICE") as [->|Hs].
    + destruct (as_related_departments aiSummary) as [[|r related]|]; simpl;
        split; (reflexivity || lia).
    + rewrite (bool_decide_eq_false_2 (Some t = Some "SAFETY_NOTICE")) by congruence.
      destruct (bool_decide (Some t = Some "MAINTENANCE_REPORT"));
        destruct (as_related_departments aiSummary) as [[|r related]|]; simpl;
        split; (reflexivity || lia).
  - destruct (as_related_departments aiSummary) as [[|r related]|]; simpl;
      split; (reflexivity || lia).
Qed.

(** The search suggestions are taken from the fifteen fixed terms, in the
    order of that list and at most five of them; each one contains the
    query in lower case or has its first word in it; and when some term
    passes this test, there is a suggestion. *)
Theorem search_suggestions_from_fixed_terms (query : string) :
  DocumentInsights.generateSearchSuggestions query
    `sublist_of` DocumentInsights.kmrlTerms
  ∧ (length (DocumentInsights.generateSearchSuggestions query) ≤ 5)%nat
  ∧ Forall (λ term, Js.includes term (Js.toLowerCase query) = true
                    ∨ Js.includes (Js.toLowerCase query)
                        (DocumentInsights.first_word term) = true)
      (DocumentInsights.generateSearchSuggestions query)
  ∧ (∀ term, In term DocumentInsights.kmrlTerms →
       Js.includes term (Js.toLowerCase query) = true
       ∨ Js.includes (Js.toLowerCase query) (DocumentInsights.first_word term) = true →
       DocumentInsights.generateSearchSuggestions query ≠ []).
Proof.
  rewrite suggestions_filter.
  set (P := DocumentInsights.suggests (Js.toLowerCase query)).
  split; [|split; [|split]].
  - etrans; [apply take_sublist|apply filter_sublist].
  - rewrite length_take. lia.
  - apply List.Forall_forall. intros term Hin.
    assert (Hf : In term (List.filter P DocumentInsights.kmrlTerms)).
    { apply list_elem_of_In. eapply elem_of_sublist; [|apply take_sublist].
      by apply list_elem_of_In. }
    apply filter_In in Hf as [_ Hp]. unfold P, DocumentInsights.suggests in Hp.
    apply andb_true_iff in Hp as [_ Hp]. by apply orb_true_iff in Hp.
  - intros term Hin Hmatch Hnone.
    assert (Hp : P term = true).
    { unfold P, DocumentInsights.suggests. apply andb_true_iff. split.
      - revert Hin. unfold DocumentInsights.kmrlTerms. simpl.
        intros H. repeat (destruct H as [<-|H]; [reflexivity|]). done.
      - by apply orb_true_iff. }
    assert (Hf : In term (List.filter P DocumentInsights.kmrlTerms))
      by (apply filter_In; by split).
    destruct (List.filter P DocumentInsights.kmrlTerms) as [|t l]; [done|].
    discriminate Hnone.
Qed.

(** A file name that contains "safety" or "emergency", in whatever letter
    case and wherever in the name, is Safety Critical, whatever other words
    of the later rules it contains; and the category depends on the name
    only up to letter case. *)
Theorem safety_names_are_safety_critical
    (document : Doc.t) (before word after : string) :
  Doc.original_filename document = (before ++ word ++ after)%string →
  Js.toLowerCase word = "safety" ∨ Js.toLowerCase word = "emergency" →
  DocumentInsights.categorizeDocument document = "Safety Critical"
  ∧ ∀ other, Js.toLowerCase (Doc.original_filename other)
             = Js.toLowerCase (Doc.original_filename document) →
             DocumentInsights.categorizeDocument other = "Safety Critical".
Proof.
  intros Hname Hword.
  assert (Hin : Js.includes (Js.toLowerCase (Doc.original_filename document)) "safety"
                || Js.includes (Js.toLowerCase (Doc.original_filename document)) "emergency"
                = true).
  { rewrite Hname, !toLowerCase_app. apply orb_true_iff.
    destruct Hword as [-> | ->]; [left|right]; apply includes_inside. }
  split.
  - unfold DocumentInsights.categorizeDocument. by rewrite Hin.
  - intros other Hsame. unfold DocumentInsights.categorizeDocument. by rewrite Hsame, Hin.
Qed.

Lemma safety_names_are_safety_critical_witness :
  DocumentInsights.categorizeDocument Library.manual = "Safety Critical".
Proof.
  exact (proj1 (safety_names_are_safety_critical Library.manual EmptyString "Safety"
                  "_manual.pdf" eq_refl (or_introl eq_refl))).
Defined.

(** The estimated reading time of a file below 2^50 bytes: the number of
    minutes is the least integer that is at least five minutes per
    mebibyte; files up to 12373196 bytes are shown in minutes, larger ones
    in hours and minutes, with a minute part below 60. *)
Theorem read_time_minutes_then_hours (fileSize : N) :
  (fileSize < 2 ^ 50)%N →
  let minutes := DocumentInsights.minutes_of fileSize in
  (fileSize * 5 ≤ minutes * 1048576 ∧ minutes * 1048576 < fileSize * 5 + 1048576)%N
  ∧ ((fileSize ≤ 12373196)%N →
     DocumentInsights.estimateReadTime fileSize = (pretty minutes ++ " min")%string)
  ∧ ((12373196 < fileSize)%N →
     ∃ h m, (1 ≤ h ∧ m < 60 ∧ minutes = h * 60 + m)%N
            ∧ DocumentInsights.estimateReadTime fileSize
              = (pretty h ++ "h " ++ pretty m ++ "m")%string).
Proof.
  intros _ minutes.
  assert (Hceil : (fileSize * 5 ≤ minutes * 1048576
                   ∧ minutes * 1048576 < fileSize * 5 + 1048576)%N).
  { unfold minutes, DocumentInsights.minutes_of.
    pose proof (N.div_mod (fileSize * 5 + 1048575) 1048576 ltac:(done)) as Hdiv.
    pose proof (N.mod_upper_bound (fileSize * 5 + 1048575) 1048576 ltac:(done)) as Hmod.
    revert Hdiv Hmod.
    generalize ((fileSize * 5 + 1048575) `div` 1048576)%N,
               ((fileSize * 5 + 1048575) `mod` 1048576)%N.
    clear. intros q r Hdiv Hmod. lia. }
  split; [exact Hceil|]. unfold DocumentInsights.estimateReadTime. fold minutes.
  split; intros Hsize.
  - assert (Hlt : (minutes <? 60)%N = true).
    { apply N.ltb_lt. destruct Hceil as [_ Hup]. revert Hup Hsize.
      generalize minutes. clear. intros m Hup Hsize. lia. }
    by rewrite Hlt.
  - assert (Hge : (minutes <? 60)%N = false).
    { apply N.ltb_ge. destruct Hceil as [Hlow _]. revert Hlow Hsize.
      generalize minutes. clear. intros m Hlow Hsize. lia. }
    rewrite Hge. exists (minutes / 60)%N, (minutes mod 60)%N. split; [|done].
    pose proof (N.div_mod minutes 60 ltac:(done)) as Hdiv.
    pose proof (N.mod_upper_bound minutes 60 ltac:(done)) as Hmod.
    apply N.ltb_ge in Hge. revert Hdiv Hmod Hge.
    generalize (minutes `div` 60)%N, (minutes `mod` 60)%N, minutes.
    clear. intros q r m Hdiv Hmod Hge. lia.
Qed.

Lemma read_time_minutes_then_hours_witness :
  DocumentInsights.estimateReadTime 1048576 = "5 min".
Proof.
  destruct (read_time_minutes_then_hours 1048576 ltac:(reflexivity)) as (_ & Hmin & _).
  apply Hmin. vm_compute. discriminate.
Defined.

(** ** The file filter, the file types and the stored names *)

Section FileTypes.

Import FileFilter.

Lemma Array_includes_In (l : list string) (x : string) :
  Array_includes l x = true ↔ In x l.
Proof.
  unfold Array_includes. rewrite existsb_exists. split.
  - intros (y & Hin & Heq). apply String.eqb_eq in Heq. by subst.
  - intros Hin. exists x. split; [done|apply String.eqb_refl].
Qed.

(** The three tables of the module list the same eleven extensions. *)
Lemma extension_tables_agree (extension : string) :
  (Array_includes allowedExtensions extension = true
   ↔ (if existsb (String.eqb extension) [".pdf"; ".doc"; ".docx"] then "document"
      else if existsb (String.eqb extension) [".jpg"; ".jpeg"; ".png"; ".bmp"; ".tiff"]
      then "image"
      else if String.eqb extension ".xlsx" then "spreadsheet"
      else if existsb (String.eqb extension) [".dwg"; ".dxf"] then "cad"
      else "unknown") ≠ "unknown")
  ∧ (Array_includes allowedExtensions extension = true
     ↔ default "application/octet-stream"
         (Js.or_else (lookup_key mimeMap extension) (Some "application/octet-stream"))
       ≠ "application/octet-stream").
Proof.
  unfold Array_includes, allowedExtensions, mimeMap. cbn [existsb lookup_key].
  repeat match goal with
         | |- context [String.eqb extension ?lit] =>
             destruct (String.eqb_spec extension lit) as [->|?];
             [vm_compute; repeat split; intros; congruence|]
         end.
  cbn. repeat split; intros; congruence.
Qed.

End FileTypes.

(** [isValidFileType], [getFileType], [getMimeType] and multer's file
    filter draw the same line: a file name has a known type, and a MIME
    type other than the default, exactly when its type is valid, and the
    filter takes exactly the valid ones. *)
Theorem file_type_tables_agree (filename : string) :
  (FileFilter.isValidFileType filename = true
   ↔ FileValidator.getFileType filename ≠ "unknown")
  ∧ (FileFilter.isValidFileType filename = true
     ↔ FileFilter.getMimeType filename ≠ "application/octet-stream")
  ∧ (FileFilter.isValidFileType filename = true
     ↔ FileFilter.fileFilter filename = Ok true).
Proof.
  unfold FileFilter.isValidFileType, FileValidator.getFileType, FileFilter.getMimeType,
    FileFilter.fileFilter. cbv zeta.
  destruct (extension_tables_agree (Js.toLowerCase (Path.extname filename))) as [Ht Hm].
  split; [exact Ht|]. split; [exact Hm|].
  destruct (FileFilter.Array_includes _ _); split; intros; congruence.
Qed.

Section StoredFiles.

Lemma safe_char_slash (c : ascii) : Ascii.eqb (Multer.safe_char c) Path.slash = false.
Proof. destruct c as [[] [] [] [] [] [] [] []]; vm_compute; reflexivity. Qed.

Lemma safeName_slash_free (s : string) : slash_free (Multer.safeName s) = true.
Proof. induction s as [|c s IH]; simpl; [done|]. by rewrite safe_char_slash, IH. Qed.

Lemma safeName_app (s t : string) :
  Multer.safeName (s ++ t) = (Multer.safeName s ++ Multer.safeName t)%string.
Proof. induction s as [|c s IH]; [done|]. rewrite append_cons. simpl. by rewrite IH. Qed.

Lemma safeName_length (s : string) :
  String.length (Multer.safeName s) = String.length s.
Proof. induction s as [|c s IH]; simpl; [done|]. by rewrite IH. Qed.

Lemma safeName_idem (s : string) : Multer.safeName (Multer.safeName s) = Multer.safeName s.
Proof.
  induction s as [|c s IH]; simpl; [done|]. rewrite IH. f_equal.
  destruct c as [[] [] [] [] [] [] [] []]; vm_compute; reflexivity.
Qed.

Lemma safe_char_lower (c : ascii) :
  Multer.safe_char (Js.lower_char c) = Js.lower_char c → Multer.safe_char c = c.
Proof.
  destruct c as [[] [] [] [] [] [] [] []]; vm_compute; intros H;
    first [reflexivity|discriminate H].
Qed.

Lemma safeName_lower (s : string) :
  Multer.safeName (Js.toLowerCase s) = Js.toLowerCase s → Multer.safeName s = s.
Proof.
  induction s as [|c s IH]; simpl; [done|].
  intros [= Hc Hs]. by rewrite (safe_char_lower c Hc), IH.
Qed.

Lemma safeName_extension (e : string) :
  FileFilter.Array_includes FileFilter.allowedExtensions (Js.toLowerCase e) = true →
  Multer.safeName e = e.
Proof.
  intros H. apply safeName_lower. apply Array_includes_In in H.
  unfold FileFilter.allowedExtensions in H. simpl in H.
  repeat (destruct H as [<-|H]; [reflexivity|]). done.
Qed.

Lemma filename_slash_free (timestamp uniqueId originalname : string) :
  slash_free timestamp = true → slash_free uniqueId = true →
  slash_free (Multer.filename timestamp uniqueId originalname) = true.
Proof.
  intros Ht Hu. unfold Multer.filename.
  by rewrite !slash_free_app, Ht, Hu, safeName_slash_free.
Qed.

(** What [from_last_dot] finds is a suffix that opens with the only dot it
    has. *)
Lemma from_last_dot_suffix (s e : string) :
  Path.from_last_dot s = Some e →
  ∃ q e', s = (q ++ e)%string ∧ e = String Path.dot e' ∧ Path.from_last_dot e' = None.
Proof.
  revert e. induction s as [|c s IH]; intros e; simpl; [done|].
  destruct (Path.from_last_dot s) as [e0|] eqn:Hs.
  - intros [= <-]. destruct (IH e0 eq_refl) as (q & e' & -> & -> & Hnone).
    by exists (String c q), e'.
  - destruct (Ascii.eqb_spec c Path.dot) as [->|]; [|done].
    intros [= <-]. by exists EmptyString, s.
Qed.

Lemma from_last_dot_found (q e' : string) :
  Path.from_last_dot e' = None →
  Path.from_last_dot (q ++ String Path.dot e') = Some (String Path.dot e').
Proof. intros H. apply from_last_dot_app. simpl. by rewrite H. Qed.

(** The base name is what the path ends in. *)
Lemma after_last_slash_suffix (acc s : string) :
  Path.after_last_slash acc s = acc ∨ ∃ r, s = (r ++ Path.after_last_slash acc s)%string.
Proof.
  revert acc. induction s as [|c s IH]; intros acc; simpl; [by left|].
  destruct (Ascii.eqb c Path.slash).
  - right. destruct (IH s) as [->|[r Hr]].
    + by exists (String c EmptyString).
    + exists (String c r). rewrite append_cons. by rewrite <- Hr.
  - destruct (IH acc) as [->|[r Hr]]; [by left|].
    right. exists (String c r). rewrite append_cons. by rewrite <- Hr.
Qed.

Lemma basename_suffix (p : string) : ∃ r, p = (r ++ Path.basename p)%string.
Proof.
  destruct (after_last_slash_suffix p p) as [H|H]; [|exact H].
  exists EmptyString. unfold Path.basename. by rewrite H.
Qed.

Lemma string_app_assoc (s t u : string) :
  ((s ++ t) ++ u)%string = (s ++ (t ++ u))%string.
Proof. induction s as [|c s IH]; [done|]. by rewrite !append_cons, IH. Qed.

Lemma string_app_nonempty (s : string) (c : ascii) (t : string) :
  (s ++ String c t)%string ≠ EmptyString.
Proof. by destruct s. Qed.

(** A path with an extension ends in it, after at least one character. *)
Lemma extname_suffix (p e : string) :
  Path.extname p = e → e ≠ EmptyString →
  ∃ front e', p = (front ++ e)%string ∧ front ≠ EmptyString
              ∧ e = String Path.dot e' ∧ Path.from_last_dot e' = None.
Proof.
  unfold Path.extname. intros He Hne.
  destruct (basename_suffix p) as [r Hp].
  destruct (Path.basename p) as [|c rest]; [congruence|].
  destruct (Path.from_last_dot rest) as [e0|] eqn:Hrest; [|congruence].
  subst e0. destruct (from_last_dot_suffix rest e Hrest) as (q & e' & -> & -> & Hnone).
  exists (r ++ String c q)%string, e'. split; [|split; [apply string_app_nonempty|done]].
  rewrite Hp, string_app_assoc. by rewrite append_cons.
Qed.

(** The extension of a name that ends in a dot followed by no other dot,
    after at least one character of a last segment. *)
Lemma extname_found (front e' : string) :
  front ≠ EmptyString → slash_free (front ++ String Path.dot e') = true →
  Path.from_last_dot e' = None →
  Path.extname (front ++ String Path.dot e') = String Path.dot e'.
Proof.
  intros Hfront Hfree Hnone. unfold Path.extname, Path.basename.
  rewrite after_last_slash_none by exact Hfree.
  destruct front as [|c front]; [done|]. rewrite append_cons.
  by rewrite from_last_dot_found.
Qed.

Lemma extname_stored (env : Env) (department : option string)
    (timestamp uniqueId originalname : string) :
  slash_free timestamp = true → slash_free uniqueId = true →
  FileFilter.isValidFileType originalname = true →
  Path.extname (Path.join (Multer.destination env department)
                  (Multer.filename timestamp uniqueId originalname))
  = Path.extname originalname
  ∧ Path.extname (Multer.filename timestamp uniqueId originalname)
    = Path.extname originalname.
Proof.
  intros Ht Hu Hvalid. unfold FileFilter.isValidFileType in Hvalid.
  pose proof (safeName_extension _ Hvalid) as Hsafe.
  assert (Hne : Path.extname originalname ≠ EmptyString).
  { intros He. rewrite He in Hvalid. discriminate Hvalid. }
  destruct (extname_suffix originalname _ eq_refl Hne) as (front & e' & Hname & Hfront & He & Hnone).
  assert (Hfile : Multer.filename timestamp uniqueId originalname
                  = ((timestamp ++ "_" ++ uniqueId ++ "_" ++ Multer.safeName front)
                     ++ String Path.dot e')%string).
  { unfold Multer.filename. rewrite Hname at 1. rewrite safeName_app, Hsafe, He.
    by rewrite !string_app_assoc. }
  assert (Hfree : slash_free (Multer.filename timestamp uniqueId originalname) = true)
    by by apply filename_slash_free.
  assert (Hext : Path.extname (Multer.filename timestamp uniqueId originalname)
                 = Path.extname originalname).
  { rewrite He, Hfile. apply extname_found; [|by rewrite <- Hfile|done].
    rewrite (append_cons "_" EmptyString). apply string_app_nonempty. }
  split; [|exact Hext].
  rewrite <- Hext. unfold Path.extname. rewrite basename_join by exact Hfree.
  unfold Path.basename. by rewrite after_last_slash_none.
Qed.

End StoredFiles.

(** A file that the filter has taken keeps its type under the name multer
    stores it by: the stored path and the stored name have the extension of
    the original name, hence its file type and MIME type, and the stored
    name is itself a valid one. *)
Theorem accepted_file_keeps_its_type
    (env : Env) (department : option string)
    (timestamp uniqueId originalname mimetype : string) (size : nat) :
  slash_free timestamp = true → slash_free uniqueId = true →
  FileFilter.fileFilter originalname = Ok true →
  let file := Multer.stored env department timestamp uniqueId originalname mimetype size in
  Path.extname (File.path file) = Path.extname originalname
  ∧ FileValidator.getFileType (File.path file) = FileValidator.getFileType originalname
  ∧ FileFilter.getMimeType (File.path file) = FileFilter.getMimeType originalname
  ∧ FileFilter.isValidFileType (File.filename file) = true.
Proof.
  intros Ht Hu Hfilter file.
  assert (Hvalid : FileFilter.isValidFileType originalname = true).
  { unfold FileFilter.fileFilter in Hfilter. unfold FileFilter.isValidFileType.
    by destruct (FileFilter.Array_includes _ _). }
  destruct (extname_stored env department timestamp uniqueId originalname Ht Hu Hvalid)
    as [Hpath Hname].
  unfold file, Multer.stored. cbn [File.path File.filename].
  unfold FileValidator.getFileType, FileFilter.getMimeType, FileFilter.isValidFileType.
  rewrite Hpath, Hname. by repeat split.
Qed.

Lemma accepted_file_keeps_its_type_witness :
  FileValidator.getFileType (File.path Scenario.notice) = "document".
Proof.
  destruct (accepted_file_keeps_its_type Scenario.offline (Some "SAFETY")
              "2024-05-01" "0a1b2c3d" "safety_notice.pdf" "application/pdf" 4
              eq_refl eq_refl eq_refl) as (_ & Htype & _).
  exact Htype.
Defined.

(** Whatever the original name is, separators and dots included, multer's
    stored name has no separator: the file lies directly in the directory
    of its department, and the processing moves it to the queue directory
    under that same name.  The clean-up maps every character to one
    character, and a second pass changes nothing. *)
Theorem stored_file_stays_in_its_directory
    (env : Env) (department : option string)
    (timestamp uniqueId originalname mimetype : string) (size : nat) :
  slash_free timestamp = true → slash_free uniqueId = true →
  let file := Multer.stored env department timestamp uniqueId originalname mimetype size in
  slash_free (File.filename file) = true
  ∧ Path.basename (File.path file) = File.filename file
  ∧ queued env (File.path file)
    = Path.join (DocumentProcessor.mlQueueDir env) (File.filename file)
  ∧ String.length (Multer.safeName originalname) = String.length originalname
  ∧ Multer.safeName (Multer.safeName originalname) = Multer.safeName originalname.
Proof.
  intros Ht Hu file.
  assert (Hfree : slash_free (File.filename file) = true).
  { unfold file, Multer.stored. cbn [File.filename]. by apply filename_slash_free. }
  assert (Hbase : Path.basename (File.path file) = File.filename file).
  { unfold file, Multer.stored. cbn [File.path File.filename].
    apply basename_join. by apply filename_slash_free. }
  split; [exact Hfree|]. split; [exact Hbase|]. split; [unfold queued; f_equal; exact Hbase|].
  split; [apply safeName_length|apply safeName_idem].
Qed.

Lemma stored_file_stays_in_its_directory_witness :
  Path.basename (File.path Scenario.notice) = File.filename Scenario.notice.
Proof.
  destruct (stored_file_stays_in_its_directory Scenario.offline (Some "SAFETY")
              "2024-05-01" "0a1b2c3d" "safety_notice.pdf" "application/pdf" 4
              eq_refl eq_refl) as (_ & Hbase & _).
  exact Hbase.
Defined.

Section StoredNamesApart.

Lemma split_at_underscore (s s' t t' : string) :
  all_chars is_part_char s = true → all_chars is_part_char s' = true →
  (s ++ String "_" t)%string = (s' ++ String "_" t')%string →
  s = s' ∧ t = t'.
Proof.
  revert s'. induction s as [|c s IH]; intros [|c' s'] Hs Hs'.
  - by intros [= ->].
  - rewrite append_cons. intros [= <- _]. simpl in Hs'. discriminate Hs'.
  - rewrite append_cons. intros [= -> _]. simpl in Hs. discriminate Hs.
  - rewrite !append_cons. intros [= <- Heq].
    simpl in Hs, Hs'. apply andb_true_iff in Hs as [_ Hs], Hs' as [_ Hs'].
    destruct (IH s' Hs Hs' Heq) as [-> ->]. done.
Qed.

End StoredNamesApart.

(** Stored names tell uploads apart: when the date stamps and the unique
    identifiers have no underscore (as dates and the hexadecimal digits of a
    UUID have none), two stored names, or two stored paths of one
    department, are equal only if the stamps are equal, the identifiers are
    equal and the cleaned original names are equal.  So two files of one
    request that got different identifiers never share a path. *)
Theorem stored_names_tell_uploads_apart
    (env : Env) (department : option string)
    (timestamp timestamp' uniqueId uniqueId' originalname originalname' : string) :
  all_chars is_part_char timestamp = true → all_chars is_part_char timestamp' = true →
  all_chars is_part_char uniqueId = true → all_chars is_part_char uniqueId' = true →
  Path.join (Multer.destination env department)
    (Multer.filename timestamp uniqueId originalname)
  = Path.join (Multer.destination env department)
      (Multer.filename timestamp' uniqueId' originalname') →
  timestamp = timestamp' ∧ uniqueId = uniqueId'
  ∧ Multer.safeName originalname = Multer.safeName originalname'.
Proof.
  intros Ht Ht' Hu Hu' Hpath. apply join_inj in Hpath.
  unfold Multer.filename in Hpath.
  rewrite !(append_cons "_" EmptyString) in Hpath.
  change (EmptyString ++ ?x)%string with x in Hpath.
  destruct (split_at_underscore _ _ _ _ Ht Ht' Hpath) as [-> Hrest].
  destruct (split_at_underscore _ _ _ _ Hu Hu' Hrest) as [-> Hname].
  done.
Qed.

Lemma stored_names_tell_uploads_apart_witness :
  Multer.filename "2024-05-01" "0a1b2c3d" "safety_notice.pdf"
  ≠ Multer.filename "2024-05-01" "0a1b2c3e" "safety_notice.pdf".
Proof.
  intros Heq.
  destruct (stored_names_tell_uploads_apart Scenario.offline (Some "SAFETY")
              "2024-05-01" "2024-05-01" "0a1b2c3d" "0a1b2c3e"
              "safety_notice.pdf" "safety_notice.pdf"
              eq_refl eq_refl eq_refl eq_refl (f_equal _ Heq)) as (_ & Hid & _).
  discriminate Hid.
Defined.

(** ** The authentication and authorisation middleware *)

Section AuthChain.

Import Auth.

Lemma startsWith_split (s start : string) :
  startsWith s start = true →
  s = (start ++ substring_from (String.length start) s)%string.
Proof.
  revert s. induction start as [|a start IH]; intros s; simpl; [done|].
  destruct s as [|c s]; [done|].
  intros H. apply andb_true_iff in H as [Hc Hs]. apply Ascii.eqb_eq in Hc as ->.
  rewrite append_cons. f_equal. by apply IH.
Qed.

Lemma startsWith_app (start rest : string) : startsWith (start ++ rest) start = true.
Proof.
  induction start as [|a start IH]; [done|].
  rewrite append_cons. simpl. by rewrite Ascii.eqb_refl, IH.
Qed.

Lemma substring_from_app (start rest : string) :
  substring_from (String.length start) (start ++ rest) = rest.
Proof. induction start as [|a start IH]; [done|]. rewrite append_cons. simpl. exact IH. Qed.

Lemma requireRole_next (allowedRoles : list string) (kmrlUser : option KmrlUser) :
  requireRole allowedRoles kmrlUser = Next
  ↔ ∃ user, kmrlUser = Some user ∧ In (ku_role user) allowedRoles.
Proof.
  unfold requireRole. destruct kmrlUser as [user|].
  - destruct (FileFilter.Array_includes allowedRoles (ku_role user)) eqn:Hin; simpl.
    + apply Array_includes_In in Hin. split; [intros _; by exists user|done].
    + split; [done|]. intros (u & [= <-] & Hu). apply Array_includes_In in Hu.
      congruence.
  - split; [done|]. by intros (u & Hu & _).
Qed.

End AuthChain.

(** A route behind [authenticateToken] and [requireRole] (as [create-user]
    is, behind [requireAdmin]) is reached exactly by the requests whose
    [Authorization] header is "Bearer " followed by a token that
    [jwt.verify] decodes to claims with one of the allowed roles; whatever
    else the header holds, the handler is not called. *)
Theorem role_guard_reached_only_with_valid_token
    (verify : string → Auth.Verified) (allowedRoles : list string)
    (authorization : option string) :
  Auth.behind verify (Auth.requireRole allowedRoles) authorization = Auth.Next
  ↔ ∃ token claims,
      authorization = Some ("Bearer " ++ token)%string
      ∧ verify token = Auth.Decoded claims
      ∧ In (Auth.ku_role claims) allowedRoles.
Proof.
  unfold Auth.behind, Auth.authenticateToken. split.
  - destruct authorization as [authHeader|]; [|done].
    destruct (negb (String.eqb authHeader EmptyString)
              && Auth.startsWith authHeader "Bearer ") eqn:Hhead; [|done].
    apply andb_true_iff in Hhead as [_ Hstart].
    pose proof (startsWith_split _ _ Hstart) as Hsplit. simpl String.length in Hsplit.
    destruct (verify (Auth.substring_from 7 authHeader)) as [claims| | |name] eqn:Hverify;
      try done.
    intros Hrole. apply requireRole_next in Hrole as (user & [= <-] & Hin).
    exists (Auth.substring_from 7 authHeader), claims. by rewrite <- Hsplit.
  - intros (token & claims & -> & Hverify & Hin).
    pose proof (startsWith_app "Bearer " token) as Hstart.
    pose proof (substring_from_app "Bearer " token) as Hsub. simpl String.length in Hsub.
    rewrite Hstart, Hsub, Hverify.
    assert (Hne : String.eqb ("Bearer " ++ token) EmptyString = false).
    { by rewrite (append_cons "B"). }
    rewrite Hne. cbn [negb andb].
    apply (proj2 (requireRole_next allowedRoles (Some claims))). by exists claims.
Qed.

(** The role guards are monotone in the list of roles: whoever passes
    [requireAdmin] passes [requireManager].  A request without a user is
    answered 401 by both, and a senior officer passes the second guard but
    is answered 403 by the first. *)
Theorem admin_guard_implies_manager_guard (kmrlUser : option Auth.KmrlUser) :
  (∀ allowed allowed' : list string,
     (∀ role, In role allowed → In role allowed') →
     Auth.requireRole allowed kmrlUser = Auth.Next →
     Auth.requireRole allowed' kmrlUser = Auth.Next)
  ∧ (Auth.requireAdmin kmrlUser = Auth.Next → Auth.requireManager kmrlUser = Auth.Next)
  ∧ (∀ user, kmrlUser = Some user → Auth.ku_role user = "senior_officer" →
       Auth.requireManager kmrlUser = Auth.Next
       ∧ Auth.requireAdmin kmrlUser = Auth.Respond 403 "Insufficient permissions").
Proof.
  assert (Hmono : ∀ allowed allowed' : list string,
            (∀ role, In role allowed → In role allowed') →
            Auth.requireRole allowed kmrlUser = Auth.Next →
            Auth.requireRole allowed' kmrlUser = Auth.Next).
  { intros allowed allowed' Hsub Hnext.
    apply requireRole_next in Hnext as (user & Huser & Hin).
    apply requireRole_next. exists user. split; [done|]. by apply Hsub. }
  split; [exact Hmono|]. split.
  - apply Hmono. intros role Hin. simpl in *. tauto.
  - intros user -> Hrole. unfold Auth.requireManager, Auth.requireAdmin, Auth.requireRole.
    by rewrite Hrole.
Qed.

(** ** The AI client *)

Section AiClient.

Context (env : Env).

Lemma classifyDocument_falls_back (text p : string) (w : World) :
  (∃ reason, classify_reply env (classify_calls w) = Rejected reason)
  ∨ (∃ data, classify_reply env (classify_calls w) = Resolved data ∧ c_success data = false) →
  (AIService.classifyDocument env text p w).2
  = Ok (AIService.fallbackClassification text p None).
Proof.
  unfold AIService.classifyDocument, try_catch, bind at 1, bind at 1.
  unfold AIService.post_classification. simpl.
  intros [[reason ->]|(data & -> & Hfail)]; [reflexivity|]. by rewrite Hfail.
Qed.

Lemma generateSummary_falls_back (text p : string) (t : option string) (w : World) :
  (∃ reason, summary_reply env (summary_calls w) = Rejected reason)
  ∨ (∃ data, summary_reply env (summary_calls w) = Resolved data
             ∧ (s_success data = false ∨ s_summary data = None)) →
  (AIService.generateSummary env text p t w).2 = Ok (AIService.fallbackSummary env text p).
Proof.
  unfold AIService.generateSummary, try_catch, bind at 1, bind at 1.
  unfold AIService.post_summary. simpl.
  intros [[reason ->]|(data & -> & [Hfail|Hnone])]; [reflexivity| |].
  - by rewrite Hfail.
  - destruct (s_success data); by rewrite ?Hnone.
Qed.

Lemma classifyDocument_calls (text p : string) (w : World) :
  classify_calls (AIService.classifyDocument env text p w).1 = S (classify_calls w)
  ∧ summary_calls (AIService.classifyDocument env text p w).1 = summary_calls w.
Proof.
  split;
    unfold AIService.classifyDocument, try_catch, bind at 1, bind at 1;
    unfold AIService.post_classification; simpl;
    (destruct (classify_reply env (classify_calls w)) as [reason|data]; simpl; [done|]);
    by destruct (c_success data).
Qed.

Lemma generateSummary_calls (text p : string) (t : option string) (w : World) :
  summary_calls (AIService.generateSummary env text p t w).1 = S (summary_calls w)
  ∧ classify_calls (AIService.generateSummary env text p t w).1 = classify_calls w.
Proof.
  split;
    unfold AIService.generateSummary, try_catch, bind at 1, bind at 1;
    unfold AIService.post_summary; simpl;
    (destruct (summary_reply env (summary_calls w)) as [reason|data]; simpl; [done|]);
    (destruct (s_success data); [|done]); by destruct (s_summary data).
Qed.

End AiClient.

(** The two calls of the AI client never throw, whatever the service does:
    each makes exactly one request, touches neither the table nor the disk,
    and returns the result of the local rules when the request is rejected
    or answered without success (for the summary also when the answer
    carries no summary text). *)
Theorem ai_client_never_throws
    (env : Env) (text filePath : string) (documentType : option string) (w : World) :
  let classified := AIService.classifyDocument env text filePath w in
  let summarised := AIService.generateSummary env text filePath documentType w in
  (∃ result, classified.2 = Ok result)
  ∧ (∃ result, summarised.2 = Ok result)
  ∧ classify_calls classified.1 = S (classify_calls w)
  ∧ summary_calls summarised.1 = S (summary_calls w)
  ∧ (documents classified.1 = documents w ∧ disk classified.1 = disk w)
  ∧ (documents summarised.1 = documents w ∧ disk summarised.1 = disk w)
  ∧ ((∃ reason, classify_reply env (classify_calls w) = Rejected reason)
     ∨ (∃ data, classify_reply env (classify_calls w) = Resolved data
                ∧ c_success data = false) →
     classified.2 = Ok (AIService.fallbackClassification text filePath None))
  ∧ ((∃ reason, summary_reply env (summary_calls w) = Rejected reason)
     ∨ (∃ data, summary_reply env (summary_calls w) = Resolved data
                ∧ (s_success data = false ∨ s_summary data = None)) →
     summarised.2 = Ok (AIService.fallbackSummary env text filePath)).
Proof.
  intros classified summarised. unfold classified, summarised.
  split; [apply classifyDocument_total|]. split; [apply generateSummary_total|].
  split; [apply classifyDocument_calls|]. split; [apply generateSummary_calls|].
  split.
  { split; [apply (proj1 (classifyDocument_table env text filePath))
           |apply classifyDocument_disk]. }
  split.
  { split; [apply (proj1 (generateSummary_table env text filePath documentType))
           |apply generateSummary_disk]. }
  split; [apply classifyDocument_falls_back|apply generateSummary_falls_back].
Qed.

Section FallbackRules.

(** One case of the rules: the condition of the first [if] that is left. *)
Ltac rule_case :=
  match goal with
  | |- context [if ?c then _ else _] => destruct c eqn:?
  end.

Lemma fallback_department (d : string) (relevance : list string) :
  d ≠ EmptyString →
  d ∈ remove_dups
        (if Js.truthy (Some d) && negb (existsb (String.eqb d) relevance)
         then d :: relevance else relevance).
Proof.
  intros Hne. apply elem_of_remove_dups. unfold Js.truthy.
  destruct (String.eqb_spec d EmptyString) as [|_]; [done|]. simpl.
  destruct (existsb (String.eqb d) relevance) eqn:Hin; simpl; [|by left].
  apply existsb_exists in Hin as (x & Hx & Heq).
  apply String.eqb_eq in Heq as <-. by apply list_elem_of_In.
Qed.

Lemma fallbackClassification_shape (text filePath : string) (department : option string) :
  let result := AIService.fallbackClassification text filePath department in
  (∃ q, confidence result = Some q ∧ In q fallback_confidences)
  ∧ (∃ t, document_type result = Some t ∧ In t fallback_labels
          ∧ summary result = Some (t ++ " document: " ++ Path.basename filePath)%string)
  ∧ keywords result = key_points result
  ∧ (∀ d, department = Some d → d ≠ EmptyString →
       ∃ l, department_relevance result = Some l ∧ d ∈ l).
Proof.
  unfold AIService.fallbackClassification. cbv zeta.
  do 6 (try rule_case); cbv beta iota;
    (split; [eexists; split; [reflexivity|simpl; tauto]|]);
    (split; [eexists; split; [reflexivity|split; [simpl; tauto|reflexivity]]|]);
    (split; [reflexivity|]);
    intros d -> Hne; (eexists; split; [reflexivity|]);
    by apply fallback_department.
Qed.

End FallbackRules.

(** The local classification rules always give one of seven labels with a
    confidence of 0.60, 0.85 or 0.90, which the [CHECK] constraint of the
    table accepts; the summary names the label and the base name of the
    file; the key words are all the key points (the cut at five never
    drops one); and a department that is passed is among the relevant
    ones. *)
Theorem fallback_classification_is_well_formed
    (text filePath : string) (department : option string) :
  let result := AIService.fallbackClassification text filePath department in
  (∃ q, confidence result = Some q ∧ In q fallback_confidences
        ∧ check_confidence (Some (to_decimal_5_4 q)) = true)
  ∧ (∃ t, document_type result = Some t ∧ In t fallback_labels
          ∧ summary result = Some (t ++ " document: " ++ Path.basename filePath)%string)
  ∧ keywords result = key_points result
  ∧ (∀ d, department = Some d → d ≠ EmptyString →
       ∃ l, department_relevance result = Some l ∧ d ∈ l).
Proof.
  intros result.
  destruct (fallbackClassification_shape text filePath department)
    as ((q & Hq & Hin) & Hrest).
  split; [|exact Hrest].
  exists q. split; [exact Hq|]. split; [exact Hin|].
  simpl in Hin. destruct Hin as [<-|[<-|[<-|[]]]]; reflexivity.
Qed.

(** A file whose name contains "audit" is never labelled
    compliance&regulatory by the local rules, although that rule lists the
    word: the finance rule lists it too and comes first. *)
Theorem audit_files_are_never_compliance
    (text filePath : string) (department : option string) :
  Js.includes (Js.toLowerCase (Path.basename filePath)) "audit" = true →
  document_type (AIService.fallbackClassification text filePath department)
  = Some "maintenance&operation"
  ∨ document_type (AIService.fallbackClassification text filePath department)
    = Some "finance&procurement".
Proof.
  intros Haudit. unfold AIService.fallbackClassification. cbv zeta.
  match goal with
  | |- context [if ?c then _ else _] => destruct c
  end; [by left|].
  assert (Hfinance :
    AIService.any_includes (Js.toLowerCase (Path.basename filePath))
      ["bill"; "invoice"; "purchase"; "budget"; "financial"; "audit"] = true).
  { unfold AIService.any_includes. apply existsb_exists. exists "audit".
    split; [simpl; tauto|exact Haudit]. }
  rewrite Hfinance. by right.
Qed.

Lemma audit_files_are_never_compliance_witness :
  document_type
    (AIService.fallbackClassification EmptyString
       "/srv/uploads/documents/legal/2024-05-01_0a1b2c3d_compliance_audit.pdf" None)
  = Some "finance&procurement".
Proof.
  destruct (audit_files_are_never_compliance EmptyString
              "/srv/uploads/documents/legal/2024-05-01_0a1b2c3d_compliance_audit.pdf"
              None eq_refl) as [H|H]; [discriminate H|exact H].
Defined.

Section FallbackSharing.

Ltac rule_case :=
  match goal with
  | |- context [if ?c then _ else _] => destruct c eqn:?
  end.

Lemma remove_dups_nonempty (l : list string) : l ≠ [] → remove_dups l ≠ [].
Proof.
  destruct l as [|x l]; [done|]. intros _ Hnil.
  assert (Hx : x ∈ remove_dups (x :: l)) by (apply elem_of_remove_dups; by left).
  rewrite Hnil in Hx. by apply not_elem_of_nil in Hx.
Qed.

Lemma fallback_relevance_nonempty (text filePath : string) (department : option string) :
  ∃ l, department_relevance (AIService.fallbackClassification text filePath department)
       = Some l ∧ l ≠ [].
Proof.
  unfold AIService.fallbackClassification. cbv zeta.
  do 6 (try rule_case); cbv beta iota; cbn [department_relevance];
    (eexists; split; [reflexivity|]); apply remove_dups_nonempty;
    destruct department as [d|]; try done;
    by destruct (Js.truthy (Some d) && _).
Qed.

End FallbackSharing.

(** For a summary built from the local classification rules, the sharing
    recommendations are the one line "Notify: ..." with the relevant
    departments: the two rules on the document type never fire, since
    SAFETY_NOTICE and MAINTENANCE_REPORT are not among the labels of the
    local rules. *)
Theorem fallback_summaries_get_only_a_notify_line
    (document : Doc.t) (text filePath : string) (department : option string) :
  ∃ related,
    department_relevance (AIService.fallbackClassification text filePath department)
    = Some related
    ∧ related ≠ []
    ∧ DocumentInsights.getSharingRecommendations document
        (DocumentInsights.summary_of_result
           (AIService.fallbackClassification text filePath department))
      = [("Notify: " ++ DocumentInsights.join_comma related)%string].
Proof.
  destruct (fallback_relevance_nonempty text filePath department) as (related & Hrel & Hne).
  destruct (fallbackClassification_shape text filePath department)
    as (_ & (t & Ht & Hin & _) & _).
  exists related. split; [exact Hrel|]. split; [exact Hne|].
  unfold DocumentInsights.getSharingRecommendations, DocumentInsights.summary_of_result.
  cbn [as_document_type as_related_departments]. rewrite Ht, Hrel. cbn [default].
  assert (Hs : bool_decide (Some t = Some "SAFETY_NOTICE") = false).
  { apply bool_decide_eq_false_2. intros [= ->]. simpl in Hin.
    repeat (destruct Hin as [Hin|Hin]; [discriminate Hin|]). done. }
  assert (Hm : bool_decide (Some t = Some "MAINTENANCE_REPORT") = false).
  { apply bool_decide_eq_false_2. intros [= ->]. simpl in Hin.
    repeat (destruct Hin as [Hin|Hin]; [discriminate Hin|]). done. }
  rewrite Hs, Hm. unfold DocumentInsights.push_if.
  destruct related as [|r related]; [done|]. reflexivity.
Qed.

(** ** The document processor and the processing run *)

Section Processor.

Context (env : Env) (p : string).

Lemma extractMetadata_exact (c : list Byte.byte) (w : World) :
  disk w !! p = Some c →
  DocumentProcessor.extractMetadata env p w = (w, Ok (metadata_of env p c)).
Proof.
  intros Hc. unfold DocumentProcessor.extractMetadata.
  apply run_try.
  unfold bind at 1. unfold fs.statSync_size. rewrite Hc.
  by rewrite (run_bind _ _ _ _ _ (generateFileHash_run env p c w Hc)).
Qed.

Lemma validateDocument_exact (w : World) :
  DocumentProcessor.validateDocument p w
  = (w, Ok (match disk w !! p with Some c => (0 <? length c)%nat | None => false end)).
Proof.
  destruct (disk w !! p) as [c|] eqn:Hc; [by apply validateDocument_run|].
  unfold DocumentProcessor.validateDocument, try_catch, bind, fs.existsSync.
  rewrite Hc. rewrite bool_decide_eq_false_2; [done|]. intros [? ?]. done.
Qed.

Lemma prepare_valid (c : list Byte.byte) (w : World) :
  disk w !! p = Some c → c ≠ [] →
  let run := DocumentProcessor.prepareDocumentForMLProcessing env p w in
  run.2 = Ok (queued env p, metadata_of env p c)
  ∧ disk run.1 = <[queued env p := c]> (delete p (disk w))
  ∧ documents run.1 = documents w.
Proof.
  intros Hc Hne run. unfold run, DocumentProcessor.prepareDocumentForMLProcessing.
  assert (Hlen : (0 <? length c)%nat = true) by (destruct c; [done|reflexivity]).
  assert (Hmove : DocumentProcessor.moveToProcessingQueue p (DocumentProcessor.mlQueueDir env) w
                  = ((log_line LogInfo ("Document moved to processing queue: " ++ queued env p)
                        (set_disk (<[queued env p := c]> (delete p (disk w))) w)).1,
                     Ok (queued env p))).
  { unfold DocumentProcessor.moveToProcessingQueue. apply run_try.
    unfold bind at 1. unfold fs.renameSync. rewrite Hc. reflexivity. }
  erewrite run_try.
  2:{ rewrite (run_bind _ _ _ _ _ (validateDocument_exact w)), Hc, Hlen.
      simpl. unfold bind at 1. simpl.
      rewrite (run_bind _ _ _ _ _ (extractMetadata_exact c w Hc)).
      rewrite (run_bind _ _ _ _ _ Hmove). reflexivity. }
  by repeat split.
Qed.

Lemma prepare_invalid (w : World) :
  no_content w p →
  let run := DocumentProcessor.prepareDocumentForMLProcessing env p w in
  run.2 = Threw "Invalid document file"
  ∧ disk run.1 = disk w ∧ documents run.1 = documents w.
Proof.
  intros Hnone run. unfold run, DocumentProcessor.prepareDocumentForMLProcessing.
  unfold try_catch. rewrite (run_bind _ _ _ _ _ (validateDocument_exact w)).
  by destruct Hnone as [-> | ->].
Qed.

End Processor.

(** [prepareDocumentForMLProcessing] on a file with content returns its
    place in the queue directory and its metadata (size, type, extension,
    base name, digest of the content), and moves the content there; on a
    file that is missing or empty it throws "Invalid document file" and
    leaves the disk alone.  Hence a second call on the same path throws,
    unless the file already lay in the queue directory. *)
Theorem prepare_moves_a_file_with_content
    (env : Env) (filePath : string) (w : World) :
  let run := DocumentProcessor.prepareDocumentForMLProcessing env filePath w in
  (∀ content, disk w !! filePath = Some content → content ≠ [] →
     run.2 = Ok (queued env filePath, metadata_of env filePath content)
     ∧ disk run.1 = <[queued env filePath := content]> (delete filePath (disk w))
     ∧ (queued env filePath ≠ filePath →
        (DocumentProcessor.prepareDocumentForMLProcessing env filePath run.1).2
        = Threw "Invalid document file"))
  ∧ (no_content w filePath →
     run.2 = Threw "Invalid document file" ∧ disk run.1 = disk w)
  ∧ documents run.1 = documents w.
Proof.
  intros run. split; [|split].
  - intros content Hc Hne.
    destruct (prepare_valid env filePath content w Hc Hne) as (Hrun & Hdisk & _).
    split; [exact Hrun|]. split; [exact Hdisk|]. intros Hapart.
    apply prepare_invalid. left. unfold run. simpl in Hdisk. rewrite Hdisk.
    rewrite lookup_insert_ne by done. apply lookup_delete_eq.
  - intros Hnone. destruct (prepare_invalid env filePath w Hnone) as (Hrun & Hdisk & _).
    by split.
  - destruct (disk w !! filePath) as [[|b content]|] eqn:Hc.
    + apply (prepare_invalid env filePath w). by right.
    + by apply (prepare_valid env filePath (b :: content) w).
    + apply (prepare_invalid env filePath w). by left.
Qed.

Section SecondRun.

Context (env : Env) (data : ProcessingJobData) (c : list Byte.byte)
  (d0 : gmap string (list Byte.byte)).
Hypothesis Hc : d0 !! filePath data = Some c.
Hypothesis Hne : c ≠ [].

Lemma hoare_same_disk {A} (m : M A) (d : gmap string (list Byte.byte)) :
  preserves (same disk) m → hoare (λ w, disk w = d) m (λ _ w, disk w = d).
Proof. intros Hm w Hw. by rewrite (Hm w). Qed.

(** A processing run on a file with content leaves it in the queue
    directory, however the enrichment goes. *)
Lemma processDocument_disk :
  hoare (λ w, disk w = d0)
    (ProcessingQueue.processDocument env data)
    (λ _ w, disk w = <[queued env (filePath data) := c]> (delete (filePath data) d0)).
Proof.
  unfold ProcessingQueue.processDocument.
  set (p := filePath data) in *.
  set (d1 := <[queued env p := c]> (delete p d0)).
  set (P := λ w : World, disk w = d0).
  assert (Hfile : ∀ w, P w → disk w !! p = Some c).
  { intros w Hw. unfold P in Hw. by rewrite Hw. }
  eapply hoare_try with (Q1 := λ _ w, disk w = d1); [|intros e|done].
  2:{ apply hoare_same_disk. keeps. }
  apply (hoare_bind_pass P); [apply total_log|by intros w ?|]. intros _.
  apply (hoare_bind_read P _ true).
  { intros w Hw. by apply (existsSync_run p c), Hfile. }
  simpl negb. unfold when_.
  apply (hoare_bind_read P _ tt); [done|].
  apply (hoare_bind_read P _ (sha256 env c)).
  { intros w Hw. by apply generateFileHash_run, Hfile. }
  apply (hoare_bind_read P _ (metadata_of env p c)).
  { intros w Hw. by apply extractMetadata_exact, Hfile. }
  eapply hoare_bind with (Q1 := λ _ w, disk w = d1).
  - intros w Hw.
    destruct (prepare_valid env p c w (Hfile w Hw) Hne) as (_ & Hdisk & _).
    simpl in Hdisk. rewrite Hdisk. unfold d1. by rewrite Hw.
  - intros _. apply hoare_same_disk.
    apply preserves_bind; [apply _|apply enrich_or_fall_back_disk|intros _; keeps].
  - done.
Qed.

Lemma existsSync_missing (p : string) (w : World) :
  disk w !! p = None → fs.existsSync p w = (w, Ok false).
Proof.
  intros Hgone. unfold fs.existsSync. rewrite Hgone.
  rewrite bool_decide_eq_false_2; [done|]. intros [? ?]. done.
Qed.

(** Once the file has left its path, a run stops at its first check. *)
Lemma processDocument_file_gone (w : World) :
  disk w !! filePath data = None →
  let run := ProcessingQueue.processDocument env data w in
  run.2 = Threw "File not found"
  ∧ documents run.1 = documents w ∧ status_writes run.1 = status_writes w
  ∧ disk run.1 = disk w.
Proof.
  intros Hgone run.
  set (w1 := (logger.info ("Starting processing for document " ++ pretty (documentId data))
                w).1).
  set (w2 := (logger.error ("Processing failed for " ++ pretty (documentId data) ++ ": "
                            ++ "File not found") w1).1).
  assert (Hrun : run = (w2, Threw "File not found")).
  { unfold run, ProcessingQueue.processDocument.
    erewrite run_try_threw; [reflexivity|].
    erewrite run_bind; [|reflexivity]. fold w1.
    erewrite run_bind; [|by apply existsSync_missing].
    reflexivity. }
  rewrite Hrun. by repeat split.
Qed.

End SecondRun.

(** The processing run is not repeatable.  A run on a file with content
    moves the file to the queue directory, whatever the database and the
    AI service do; a second run of the same job finds no file: it throws
    "File not found", stores no status and changes no record.  (Unless the
    file lay in the queue directory to begin with.) *)
Theorem second_processing_run_finds_no_file
    (env : Env) (data : ProcessingJobData) (w : World) (content : list Byte.byte) :
  disk w !! filePath data = Some content → content ≠ [] →
  queued env (filePath data) ≠ filePath data →
  let first := ProcessingQueue.processDocument env data w in
  let second := ProcessingQueue.processDocument env data first.1 in
  disk first.1 = <[queued env (filePath data) := content]> (delete (filePath data) (disk w))
  ∧ second.2 = Threw "File not found"
  ∧ statuses_written (ProcessingQueue.processDocument env data) first.1 = []
  ∧ documents second.1 = documents first.1
  ∧ disk second.1 = disk first.1.
Proof.
  intros Hc Hne Hapart first second.
  assert (Hdisk : disk first.1
                  = <[queued env (filePath data) := content]>
                      (delete (filePath data) (disk w))).
  { apply (processDocument_disk env data content (disk w) Hc Hne w). reflexivity. }
  assert (Hgone : disk first.1 !! filePath data = None).
  { rewrite Hdisk, lookup_insert_ne by done. apply lookup_delete_eq. }
  destruct (processDocument_file_gone env data first.1 Hgone) as (Hrun & Hdocs & Hsw & Hd).
  split; [exact Hdisk|]. split; [exact Hrun|]. split; [|by split].
  unfold statuses_written. rewrite Hsw. by rewrite drop_all.
Qed.

Lemma second_processing_run_finds_no_file_witness :
  (ProcessingQueue.processDocument Scenario.offline
     {| documentId := 1; filePath := Scenario.stored_path; userId := 7;
        job_department := "SAFETY" |}
     (ProcessingQueue.processDocument Scenario.offline
        {| documentId := 1; filePath := Scenario.stored_path; userId := 7;
           job_department := "SAFETY" |}
        (Scenario.after_multer Scenario.notice_bytes)).1).2
  = Threw "File not found".
Proof.
  destruct (second_processing_run_finds_no_file Scenario.offline
              {| documentId := 1; filePath := Scenario.stored_path; userId := 7;
                 job_department := "SAFETY" |}
              (Scenario.after_multer Scenario.notice_bytes) Scenario.notice_bytes)
    as (_ & Hsecond & _).
  - vm_compute. reflexivity.
  - discriminate.
  - vm_compute. discriminate.
  - exact Hsecond.
Defined.

(** ** Uploads while the AI service is unreachable *)

Section OfflineUploads.

Import DocumentController.

Context (env : Env).
Hypothesis Hdb : database_up env.
Hypothesis Hai : ai_unreachable env.

Lemma enriched_offline_labelled (p : string) (r0 : Doc.t) :
  Doc.file_path r0 = p →
  check_row (enriched_offline env p r0) = true
  ∧ labelled_offline (enriched_offline env p r0).
Proof.
  intros Hp. unfold labelled_offline, check_row, enriched_offline.
  cbn [DocumentModel.apply_update ProcessingQueue.combined_results status_only
       Doc.processing_status Doc.ai_classification Doc.classification_confidence
       Doc.summary_confidence Doc.ai_summary Doc.file_path
       up_processing_status up_ai_classification up_classification_confidence
       up_ai_summary up_summary_confidence up_ai_keywords default].
  rewrite Hp.
  destruct (fallbackClassification_shape EmptyString p None)
    as ((q & Hq & Hin) & (t & Ht & _) & _).
  rewrite Hq, Ht. unfold AIService.fallbackSummary. cbn [sr_summary sr_confidence].
  simpl in Hin.
  destruct Hin as [<-|[<-|[<-|[]]]];
    (split; [reflexivity|]); (split; [reflexivity|]); (split; [reflexivity|]);
    (split; [eexists; split; [reflexivity|simpl; tauto]|]); split; reflexivity.
Qed.

Lemma upload_one_offline (req : UploadRequest) (department : string) (file : File.t)
    (acc : list UploadedDocument) (w : World) (c : list Byte.byte) :
  ids_below w → disk w !! File.path file = Some c → c ≠ [] →
  ∀ w', w' = (upload_one env req department file acc w).1 →
  (documents w' = documents w ∧ next_id w' = next_id w)
  ∨ (∃ r, documents w' = documents w ++ [r] ∧ next_id w' = S (next_id w)
          ∧ Doc.id r = next_id w ∧ Doc.file_path r = File.path file
          ∧ labelled_offline r).
Proof.
  intros Hids Hc Hne w' Hw'.
  set (row0 := DocumentModel.inserted (next_id w) (document_data req department file)).
  destruct (enriched_offline_labelled (File.path file) row0 eq_refl) as [Hcheck Hlabel].
  destruct (upload_one_after env Hdb
              (λ r, r = enriched_offline env (File.path file) row0)
              req department file acc w c Hids Hc Hne) with (w' := w')
    as [(_ & H1 & H2)|(r & H1 & H2 & ->)]; [|done|by left|].
  - by apply (enrich_offline env Hdb Hai (documents w) (next_id w) (S (next_id w))
                (File.path file) Hids row0).
  - right. exists (enriched_offline env (File.path file) row0).
    split; [done|]. split; [done|]. split; [reflexivity|]. split; [reflexivity|].
    exact Hlabel.
Qed.

Lemma upload_each_offline (req : UploadRequest) (department : string)
    (files : list File.t) (acc : list UploadedDocument) (w : World) :
  ids_below w →
  NoDup (List.map stored_as files) →
  Forall (λ f, ∃ c, disk w !! File.path f = Some c ∧ c ≠ []) files →
  ∃ created,
    documents (upload_each env req department files acc w).1 = documents w ++ created
    ∧ Forall (λ r, labelled_offline r ∧ In (Doc.file_path r) (List.map File.path files))
        created.
Proof.
  revert acc w. induction files as [|f files IH]; intros acc w Hids Hnd Hfiles; simpl.
  - exists []. by rewrite app_nil_r.
  - apply NoDup_cons in Hnd as [Hfresh Hnd].
    apply Forall_cons in Hfiles as [(c & Hc & Hne) Hfiles].
    destruct (upload_one_outcome env req department f acc w) as (l & _ & docs & Hok & _).
    pose proof (upload_one_moved env req department f acc w) as Hmoved.
    pose proof (upload_one_offline req department f acc w c Hids Hc Hne _ eq_refl) as Hone.
    unfold bind.
    destruct (upload_one env req department f acc w) as [w1 o]; simpl in *. subst o.
    assert (Hstill : Forall (λ f, ∃ c, disk w1 !! File.path f = Some c ∧ c ≠ []) files).
    { apply List.Forall_forall. intros g Hg.
      rewrite List.Forall_forall in Hfiles. destruct (Hfiles g Hg) as (cg & Hcg & Hneg).
      exists cg. split; [|done].
      assert (Hapart : stored_as f ≠ stored_as g).
      { intros He. apply Hfresh. rewrite He. apply list_elem_of_In, in_map, Hg. }
      destruct (places_apart env _ _ Hapart) as (H1 & H2 & _).
      by rewrite (moved_elsewhere _ _ _ _ _ Hmoved). }
    assert (Hlater : ∀ created,
              Forall (λ r, labelled_offline r
                           ∧ In (Doc.file_path r) (List.map File.path files)) created →
              Forall (λ r, labelled_offline r
                           ∧ (File.path f = Doc.file_path r
                              ∨ In (Doc.file_path r) (List.map File.path files))) created).
    { intros created Hall. eapply Forall_impl; [exact Hall|].
      intros r [? ?]. split; [done|by right]. }
    destruct Hone as [[Hrows Hnext]|(r & Hrows & Hnext & Hr & Hpath & Hres)].
    + destruct (IH docs w1) as (created & Hc1 & Hall); [|done|done|].
      { unfold ids_below. by rewrite Hrows, Hnext. }
      exists created. split; [by rewrite Hc1, Hrows|by apply Hlater].
    + destruct (IH docs w1) as (created & Hc1 & Hall); [|done|done|].
      { by eapply ids_below_grown. }
      exists (r :: created). split; [by rewrite Hc1, Hrows, <- app_assoc|].
      constructor; [|by apply Hlater]. split; [done|by left].
Qed.

End OfflineUploads.

(** While no call to the AI service is answered, an upload still completes
    every record it creates: with the files on disk and not empty and a
    database that takes every statement, each record the request adds is
    completed, carries the label and the confidence (0.60, 0.85 or 0.90)
    that the local rules give to its own stored path, the summary
    confidence 0.60 and the summary "Document summary for <stored name>";
    and the answer is 201. *)
Theorem offline_uploads_are_completed_by_the_local_rules
    (env : Env) (req : UploadRequest) (department : string) (w : World) :
  database_up env → ai_unreachable env → ids_below w →
  ur_files req ≠ [] →
  ur_department req = Some department → department ≠ EmptyString →
  NoDup (List.map stored_as (ur_files req)) →
  Forall (λ f, ∃ c, disk w !! File.path f = Some c ∧ c ≠ []) (ur_files req) →
  ∃ created docs,
    documents (DocumentController.uploadDocuments env req w).1 = documents w ++ created
    ∧ Forall (λ r, labelled_offline r
                   ∧ In (Doc.file_path r) (List.map File.path (ur_files req))) created
    ∧ (DocumentController.uploadDocuments env req w).2
      = Ok (json_ok 201 (Some (uploaded_message (length docs))) docs).
Proof.
  intros Hdb Hai Hids Hfiles Hdep Hne Hnd Hpresent.
  destruct (uploadDocuments_created env req department w Hfiles Hdep Hne)
    as (docs & Hrun & Hanswer).
  destruct (upload_each_offline env Hdb Hai req department (ur_files req) [] w
              Hids Hnd Hpresent) as (created & Hrows & Hall).
  exists created, docs. rewrite Hrun in Hrows. by repeat split.
Qed.

Lemma offline_uploads_are_completed_by_the_local_rules_witness :
  ∃ created docs,
    documents (DocumentController.uploadDocuments Scenario.offline Scenario.upload_request
                 (Scenario.after_multer Scenario.notice_bytes)).1
    = documents (Scenario.after_multer Scenario.notice_bytes) ++ created
    ∧ Forall (λ r, labelled_offline r
                   ∧ In (Doc.file_path r)
                       (List.map File.path (ur_files Scenario.upload_request))) created
    ∧ (DocumentController.uploadDocuments Scenario.offline Scenario.upload_request
         (Scenario.after_multer Scenario.notice_bytes)).2
      = Ok (json_ok 201 (Some (uploaded_message (length docs))) docs).
Proof.
  apply (offline_uploads_are_completed_by_the_local_rules Scenario.offline
           Scenario.upload_request "SAFETY" (Scenario.after_multer Scenario.notice_bytes)).
  - intros n. reflexivity.
  - split; intros n; eexists; reflexivity.
  - apply Forall_nil_2.
  - discriminate.
  - reflexivity.
  - discriminate.
  - simpl. apply NoDup_cons. split; [apply not_elem_of_nil|apply NoDup_nil_2].
  - constructor; [|constructor]. exists Scenario.notice_bytes.
    split; [vm_compute; reflexivity|discriminate].
Defined.

(** ** The routes on one document *)

Section IdRoutes.

Import DocumentController.

Context (env : Env) (user : User.t).

Lemma findById_run (z : Z) (w : World) :
  DocumentModel.findById env z w
  = if db_up env (db_calls w)
    then (tick_db w, Ok (List.find (DocumentModel.has_id z) (documents w)))
    else (tick_db w, Threw "database error").
Proof. unfold DocumentModel.findById, DocumentModel.statement. by destruct (db_up env _). Qed.

Lemma with_document_id_malformed {P} (idParam : option string) (k : Z → M (Json P))
    (w : World) :
  malformed_id idParam →
  with_document_id idParam k w
  = (w, Ok (json_fail 400 (malformed_id_message idParam) None)).
Proof.
  unfold malformed_id, malformed_id_message, with_document_id.
  intros [-> | (s & -> & ->)]; reflexivity.
Qed.

Lemma department_denied_false (d : Doc.t) :
  department_denied user d = false ↔ may_read user d.
Proof.
  unfold department_denied, may_read.
  destruct (String.eqb_spec (User.role user) "admin") as [Hr|Hr];
    destruct (String.eqb_spec (Doc.department d) (User.department user)) as [Hd|Hd];
    simpl; split; try done; try tauto; by intros [?|?].
Qed.

End IdRoutes.

(** A request whose [id] parameter is missing or is not a number is
    answered 400 by each of the four routes on one document, before
    anything else happens: no statement is sent to the database, nothing is
    logged, no file is touched. *)
Theorem malformed_id_is_refused_before_any_lookup
    (env : Env) (user : User.t) (idParam : option string) (w : World) :
  malformed_id idParam →
  let refusal {P} : Json P := json_fail 400 (malformed_id_message idParam) None in
  DocumentController.getDocumentById env user idParam w = (w, Ok refusal)
  ∧ DocumentController.downloadDocument env user idParam w = (w, Ok (DownloadJson refusal))
  ∧ DocumentController.deleteDocument env user idParam w = (w, Ok refusal)
  ∧ DocumentController.processDocument env user idParam w = (w, Ok refusal).
Proof.
  intros Hbad refusal. unfold refusal.
  split; [|split; [|split]].
  - unfold DocumentController.getDocumentById. apply run_try.
    by apply with_document_id_malformed.
  - unfold DocumentController.downloadDocument, malformed_id_message. apply run_try.
    destruct Hbad as [-> | (s & -> & ->)]; reflexivity.
  - unfold DocumentController.deleteDocument. apply run_try.
    by apply with_document_id_malformed.
  - unfold DocumentController.processDocument. apply run_try.
    by apply with_document_id_malformed.
Qed.

Lemma malformed_id_is_refused_before_any_lookup_witness :
  DocumentController.deleteDocument Scenario.offline Scenario.officer (Some "abc")
    Library.world
  = (Library.world, Ok (json_fail 400 "Invalid document ID" None)).
Proof.
  assert (Hbad : malformed_id (Some "abc")).
  { right. exists "abc". split; reflexivity. }
  destruct (malformed_id_is_refused_before_any_lookup Scenario.offline Scenario.officer
              (Some "abc") Library.world Hbad) as (_ & _ & Hdelete & _).
  exact Hdelete.
Defined.

Section Download.

Import DocumentController.

Context (env : Env) (user : User.t).

(** The download route never changes the table or the disk. *)
Lemma downloadDocument_reads (idParam : option string) :
  preserves (same documents) (downloadDocument env user idParam)
  ∧ preserves (same disk) (downloadDocument env user idParam).
Proof.
  split; unfold downloadDocument, DocumentModel.findById; keeps.
Qed.

Lemma downloadDocument_stream (idParam : option string) (w : World)
    (content_type content_disposition : string) (body : list Byte.byte) :
  (downloadDocument env user idParam w).2
  = Ok (DownloadStream content_type content_disposition body) →
  ∃ s z d, idParam = Some s ∧ ParseInt.parseInt s = ParseInt.Num z
    ∧ List.find (DocumentModel.has_id z) (documents w) = Some d
    ∧ may_read user d
    ∧ disk w !! Doc.file_path d = Some body
    ∧ content_type = Doc.mime_type d.
Proof.
  unfold downloadDocument, try_catch.
  unfold if_truthy. destruct idParam as [s|]; [|discriminate].
  destruct (Js.truthy (Some s)); [|discriminate].
  destruct (ParseInt.parseInt s) as [|z] eqn:Hz; [discriminate|].
  unfold bind at 1. rewrite findById_run.
  destruct (db_up env (db_calls w)); [|discriminate].
  destruct (List.find (DocumentModel.has_id z) (documents w)) as [d|] eqn:Hfind;
    [|discriminate].
  destruct (department_denied user d) eqn:Hdenied; [discriminate|].
  apply department_denied_false in Hdenied.
  unfold bind at 1. unfold fs.existsSync. cbn [fst snd tick_db disk].
  destruct (disk w !! Doc.file_path d) as [c|] eqn:Hc.
  - rewrite bool_decide_eq_true_2 by by eexists. cbn [negb].
    unfold bind at 1. unfold fs.readFileSync.
    change (disk (tick_db w)) with (disk w). rewrite Hc.
    unfold bind, logger.info, log_line, ret. cbn [fst snd].
    intros [= <- _ <-]. by exists s, z, d.
  - rewrite bool_decide_eq_false_2; [discriminate|]. intros [? ?]. done.
Qed.

End Download.

(** Whatever the download route streams is the content of the file of a
    record of the table that the user may read (an admin, or a user of the
    record's department), sent under the record's MIME type; and the route
    changes neither the table nor the disk. *)
Theorem download_streams_only_readable_records
    (env : Env) (user : User.t) (idParam : option string) (w : World)
    (content_type content_disposition : string) (body : list Byte.byte) :
  (DocumentController.downloadDocument env user idParam w).2
  = Ok (DownloadStream content_type content_disposition body) →
  (∃ d, In d (documents w) ∧ may_read user d
        ∧ disk w !! Doc.file_path d = Some body
        ∧ content_type = Doc.mime_type d)
  ∧ documents (DocumentController.downloadDocument env user idParam w).1 = documents w
  ∧ disk (DocumentController.downloadDocument env user idParam w).1 = disk w.
Proof.
  intros Hstream.
  destruct (downloadDocument_stream env user idParam w _ _ _ Hstream)
    as (s & z & d & _ & _ & Hfind & Hread & Hbody & Htype).
  destruct (downloadDocument_reads env user idParam) as [Hdocs Hdisk].
  split; [|split; [apply Hdocs|apply Hdisk]].
  exists d. apply find_some in Hfind as [Hin _]. by repeat split.
Qed.

Lemma download_streams_only_readable_records_witness :
  ∃ d, In d (documents Library.world) ∧ may_read Scenario.officer d
       ∧ disk Library.world !! Doc.file_path d = Some [Byte.x25; Byte.x50]
       ∧ "application/pdf" = Doc.mime_type d.
Proof.
  refine (proj1 (download_streams_only_readable_records Scenario.offline Scenario.officer
                   (Some "3") Library.world "application/pdf" _ [Byte.x25; Byte.x50] _)).
  vm_compute. reflexivity.
Defined.

Section DeleteRoute.

Import DocumentController.

Context (env : Env) (user : User.t).

Lemma may_delete_refused (d : Doc.t) :
  negb (String.eqb (User.role user) "admin")
  && negb (Doc.uploaded_by d =? User.id user)%nat = false
  ↔ may_delete user d.
Proof.
  unfold may_delete.
  destruct (String.eqb_spec (User.role user) "admin") as [Hr|Hr];
    destruct (Nat.eqb_spec (Doc.uploaded_by d) (User.id user)) as [Hu|Hu];
    simpl; split; try done; try tauto; by intros [?|?].
Qed.

Lemma if_truthy_parsed (s : string) (z : Z) :
  ParseInt.parseInt s = ParseInt.Num z → if_truthy (Some s) = Some s.
Proof.
  intros Hz. unfold if_truthy, Js.truthy.
  destruct (String.eqb_spec s EmptyString) as [->|]; [discriminate Hz|done].
Qed.

Lemma deleteDocument_run (idParam : option string) (w : World) :
  ∃ w' r, deleteDocument env user idParam w = (w', Ok r)
          ∧ delete_run env user idParam w w' r.
Proof.
  destruct (if_truthy idParam) as [s|] eqn:Hs.
  2:{ eexists _, _. split; [|apply delete_malformed; by left].
      unfold deleteDocument. apply run_try. apply with_document_id_malformed. by left. }
  assert (Hid : idParam = Some s).
  { unfold if_truthy in Hs. by destruct (Js.truthy idParam); [|discriminate]. }
  destruct (ParseInt.parseInt s) as [|z] eqn:Hz.
  { eexists _, _. split; [|apply delete_malformed; right; by exists s].
    unfold deleteDocument. apply run_try. apply with_document_id_malformed.
    right. by exists s. }
  unfold deleteDocument, with_document_id, try_catch. rewrite Hs, Hz.
  unfold bind at 1. rewrite findById_run.
  destruct (db_up env (db_calls w)) eqn:Hdb1.
  2:{ eexists _, _. split; [reflexivity|]. by eapply delete_lookup_failed. }
  destruct (List.find (DocumentModel.has_id z) (documents w)) as [d|] eqn:Hfind.
  2:{ eexists _, _. split; [reflexivity|]. by eapply delete_not_found. }
  destruct (negb (String.eqb (User.role user) "admin")
            && negb (Doc.uploaded_by d =? User.id user)%nat) eqn:Hauth.
  { eexists _, _. split; [reflexivity|]. eapply delete_denied; try done.
    intros Hmay. apply may_delete_refused in Hmay. congruence. }
  apply may_delete_refused in Hauth.
  unfold bind at 1. unfold fs.existsSync. change (disk (tick_db w)) with (disk w).
  unfold DocumentModel.deleteDocument, DocumentModel.statement.
  destruct (disk w !! Doc.file_path d) as [c|] eqn:Hc.
  - rewrite bool_decide_eq_true_2 by by eexists.
    unfold when_, bind, fs.unlinkSync. change (disk (tick_db w)) with (disk w).
    rewrite Hc. cbn [fst snd set_disk tick_db db_calls].
    destruct (db_up env (S (db_calls w))) eqn:Hdb2.
    + eexists _, _. split; [reflexivity|]. by eapply delete_done.
    + eexists _, _. split; [reflexivity|]. by eapply delete_statement_failed.
  - rewrite bool_decide_eq_false_2 by (intros [? ?]; done).
    unfold when_, bind, ret. cbn [fst snd tick_db db_calls].
    destruct (db_up env (S (db_calls w))) eqn:Hdb2.
    + eexists _, _. split; [reflexivity|].
      eapply delete_done; try done. cbn [disk set_table tick_db log_line logger.info fst].
      by rewrite delete_id.
    + eexists _, _. split; [reflexivity|].
      eapply delete_statement_failed; try done.
      cbn [disk set_table tick_db log_line logger.error fst]. by rewrite delete_id.
Qed.

End DeleteRoute.

(** A delete request is answered 200 only when the record was there and
    the caller is an admin or its uploader; then the record is out of the
    table and its file off the disk (whether or not the file was there
    before), and a following request for the record is answered 404. *)
Theorem delete_answers_200_only_after_removing_both
    (env : Env) (user : User.t) (idParam : option string) (w : World) (r : Json unit) :
  (DocumentController.deleteDocument env user idParam w).2 = Ok r →
  status r = 200 →
  ∃ s z d,
    idParam = Some s ∧ ParseInt.parseInt s = ParseInt.Num z
    ∧ List.find (DocumentModel.has_id z) (documents w) = Some d
    ∧ may_delete user d
    ∧ let w' := (DocumentController.deleteDocument env user idParam w).1 in
      documents w' = List.filter (λ d, negb (DocumentModel.has_id z d)) (documents w)
      ∧ List.find (DocumentModel.has_id z) (documents w') = None
      ∧ disk w' = delete (Doc.file_path d) (disk w)
      ∧ disk w' !! Doc.file_path d = None
      ∧ (db_up env (db_calls w') = true →
         (DocumentController.getDocumentById env user idParam w').2
         = Ok (json_fail 404 "Document not found" None)).
Proof.
  intros Hrun Hstatus.
  destruct (deleteDocument_run env user idParam w) as (w' & r0 & Hdel & Hcase).
  rewrite Hdel in *. simpl in Hrun. injection Hrun as ->.
  inversion Hcase as [ | | | | |s z d w0 Hid Hz Hfind Hmay Hdocs Hdisk Hcalls];
    subst; try discriminate Hstatus.
  exists s, z, d. split; [done|]. split; [done|]. split; [done|]. split; [done|].
  cbn [fst].
  assert (Hgone : List.find (DocumentModel.has_id z) (documents w') = None).
  { rewrite Hdocs. apply find_filter_out. }
  split; [exact Hdocs|]. split; [exact Hgone|]. split; [exact Hdisk|].
  split; [rewrite Hdisk; apply lookup_delete_eq|].
  intros Hdb. unfold DocumentController.getDocumentById, DocumentController.with_document_id.
  rewrite (if_truthy_parsed s z Hz), Hz.
  unfold try_catch, bind. rewrite findById_run, Hdb, Hgone. reflexivity.
Qed.

Lemma delete_answers_200_only_after_removing_both_witness :
  ∃ s z d,
    Some "1" = Some s ∧ ParseInt.parseInt s = ParseInt.Num z
    ∧ List.find (DocumentModel.has_id z) (documents Library.world) = Some d
    ∧ may_delete Scenario.officer d
    ∧ let w' := (DocumentController.deleteDocument Scenario.offline Scenario.officer
                   (Some "1") Library.world).1 in
      documents w'
      = List.filter (λ d, negb (DocumentModel.has_id z d)) (documents Library.world)
      ∧ List.find (DocumentModel.has_id z) (documents w') = None
      ∧ disk w' = delete (Doc.file_path d) (disk Library.world)
      ∧ disk w' !! Doc.file_path d = None
      ∧ (db_up Scenario.offline (db_calls w') = true →
         (DocumentController.getDocumentById Scenario.offline Scenario.officer
            (Some "1") w').2
         = Ok (json_fail 404 "Document not found" None)).
Proof.
  apply (delete_answers_200_only_after_removing_both Scenario.offline Scenario.officer
           (Some "1") Library.world
           {| status := 200; success := true;
              message := Some "Document deleted successfully";
              error := None; payload := Some tt |}).
  - vm_compute. reflexivity.
  - reflexivity.
Defined.

(** A delete request that is not answered 200 leaves every record in the
    table; answered 400, 403 or 404 it leaves the disk alone too.  The
    answer 500 does not: when the database takes the look-up and refuses
    the [DELETE] that follows, the record of an existing file stays in the
    table while its file is already gone. *)
Theorem delete_without_success_keeps_the_record
    (env : Env) (user : User.t) (idParam : option string) (w : World) (r : Json unit) :
  (DocumentController.deleteDocument env user idParam w).2 = Ok r →
  status r ≠ 200 →
  let w' := (DocumentController.deleteDocument env user idParam w).1 in
  documents w' = documents w
  ∧ (status r ≠ 500 → disk w' = disk w)
  ∧ (∀ s z d content,
       idParam = Some s → ParseInt.parseInt s = ParseInt.Num z →
       List.find (DocumentModel.has_id z) (documents w) = Some d →
       may_delete user d → db_up env (db_calls w) = true →
       disk w !! Doc.file_path d = Some content →
       status r = 500 ∧ In d (documents w') ∧ disk w' !! Doc.file_path d = None).
Proof.
  intros Hrun Hstatus.
  destruct (deleteDocument_run env user idParam w) as (w' & r0 & Hdel & Hcase).
  rewrite Hdel in *. simpl in Hrun. injection Hrun as ->. cbn [fst].
  assert (Hbad : ∀ s z, idParam = Some s → ParseInt.parseInt s = ParseInt.Num z →
                        ¬ malformed_id idParam).
  { intros s z -> Hz [Hnone|(s' & Hs' & Hnan)];
      rewrite (if_truthy_parsed s z Hz) in *; congruence. }
  inversion Hcase as
    [Hmal
    |s z w0 e Hid Hz Hdb Hdocs Hdisk
    |s z Hid Hz Hfind
    |s z d Hid Hz Hfind Hmay
    |s z d w0 e Hid Hz Hfind Hmay Hdb1 Hdb2 Hdocs Hdisk
    |s z d w0 Hid Hz Hfind Hmay Hdocs Hdisk Hcalls]; subst.
  - split; [done|]. split; [done|].
    intros s z d content Hid Hz. by destruct (Hbad s z Hid Hz).
  - split; [done|]. split; [done|]. intros s' z' d content [= <-] Hz' Hfind Hmay Hdb1.
    congruence.
  - split; [done|]. split; [done|]. intros s' z' d content [= <-] Hz' Hfind'.
    congruence.
  - split; [done|]. split; [done|]. intros s' z' d' content [= <-] Hz' Hfind' Hmay'.
    assert (z' = z) by congruence. subst z'.
    assert (d' = d) by congruence. subst d'. done.
  - split; [done|]. split; [done|]. intros s' z' d' content [= <-] Hz' Hfind' _ _ Hc.
    assert (z' = z) by congruence. subst z'.
    assert (d' = d) by congruence. subst d'.
    split; [done|]. split.
    + rewrite Hdocs. by apply find_some in Hfind as [? _].
    + rewrite Hdisk. apply lookup_delete_eq.
  - done.
Qed.

Lemma delete_without_success_keeps_the_record_witness :
  documents (DocumentController.deleteDocument Scenario.offline Scenario.engineer
               (Some "1") Library.world).1
  = documents Library.world.
Proof.
  refine (proj1 (delete_without_success_keeps_the_record Scenario.offline Scenario.engineer
                   (Some "1") Library.world
                   (json_fail 403 "Access denied - you can only delete your own documents"
                      None) _ _)).
  - vm_compute. reflexivity.
  - discriminate.
Defined.

Section ManualTrigger.

Import DocumentController.

Context (env : Env) (user : User.t).

Lemma manual_trigger_reads (idParam : option string) :
  preserves (same documents) (processDocument env user idParam)
  ∧ preserves (same disk) (processDocument env user idParam).
Proof.
  split; unfold processDocument, with_document_id, DocumentModel.findById.
  - keeps; apply classifyDocument_table.
  - keeps; apply classifyDocument_disk.
Qed.

Lemma manual_trigger_run (idParam : option string) (w : World) :
  ∃ r, (processDocument env user idParam w).2 = Ok r
       ∧ message r ≠ Some "AI processing failed"
       ∧ (status r = 200 →
          ∃ s z d result,
            idParam = Some s ∧ ParseInt.parseInt s = ParseInt.Num z
            ∧ List.find (DocumentModel.has_id z) (documents w) = Some d
            ∧ may_read user d
            ∧ payload r = Some result
            ∧ (AIService.classifyDocument env EmptyString (Doc.file_path d) (tick_db w)).2
              = Ok result).
Proof.
  destruct (if_truthy idParam) as [s|] eqn:Hs.
  2:{ exists (json_fail 400 (malformed_id_message idParam) None).
      split; [|split; [|intros [=]]].
      - unfold processDocument. erewrite run_try; [reflexivity|].
        apply with_document_id_malformed. by left.
      - unfold malformed_id_message. rewrite Hs. discriminate. }
  assert (Hid : idParam = Some s).
  { unfold if_truthy in Hs. by destruct (Js.truthy idParam); [|discriminate]. }
  destruct (ParseInt.parseInt s) as [|z] eqn:Hz.
  { exists (json_fail 400 (malformed_id_message idParam) None).
    split; [|split; [|intros [=]]].
    - unfold processDocument. erewrite run_try; [reflexivity|].
      apply with_document_id_malformed. right. by exists s.
    - unfold malformed_id_message. rewrite Hs. discriminate. }
  unfold processDocument, with_document_id. rewrite Hs, Hz.
  destruct (db_up env (db_calls w)) eqn:Hdb.
  2:{ exists (json_fail 500 "Failed to process document" (Some "database error")).
      split; [|split; [discriminate|intros [=]]].
      erewrite run_try_threw; [reflexivity|]. apply run_bind_threw.
      rewrite findById_run, Hdb. reflexivity. }
  assert (Hfound : DocumentModel.findById env z w
                   = (tick_db w, Ok (List.find (DocumentModel.has_id z) (documents w)))).
  { by rewrite findById_run, Hdb. }
  destruct (List.find (DocumentModel.has_id z) (documents w)) as [d|] eqn:Hfind.
  2:{ exists (json_fail 404 "Document not found" None).
      split; [|split; [discriminate|intros [=]]].
      erewrite run_try; [reflexivity|]. rewrite (run_bind _ _ _ _ _ Hfound). reflexivity. }
  destruct (department_denied user d) eqn:Hdenied.
  { exists (json_fail 403 "Access denied - document not in your department" None).
    split; [|split; [discriminate|intros [=]]].
    erewrite run_try; [reflexivity|]. rewrite (run_bind _ _ _ _ _ Hfound).
    cbv beta iota. rewrite Hdenied. reflexivity. }
  destruct (classifyDocument_total env EmptyString (Doc.file_path d) (tick_db w))
    as [result Hresult].
  destruct (AIService.classifyDocument env EmptyString (Doc.file_path d) (tick_db w))
    as [w2 o] eqn:Hclassify.
  simpl in Hresult. subst o.
  exists (json_ok 200 (Some "Document processed successfully") result).
  split; [|split; [discriminate|]].
  - erewrite run_try; [reflexivity|]. rewrite (run_bind _ _ _ _ _ Hfound).
    cbv beta iota. rewrite Hdenied.
    erewrite run_try; [reflexivity|]. rewrite (run_bind _ _ _ _ _ Hclassify). reflexivity.
  - intros _. exists s, z, d, result. apply department_denied_false in Hdenied.
    rewrite Hclassify. by repeat split.
Qed.

End ManualTrigger.

(** The manual trigger always answers, and never with "AI processing
    failed": the classification cannot throw, so the handler of that error
    is never entered.  It changes neither the table nor the disk.  When it
    answers 200, the result is the classification of the file path of a
    record the user may read. *)
Theorem manual_trigger_never_reports_an_ai_failure
    (env : Env) (user : User.t) (idParam : option string) (w : World) :
  let run := DocumentController.processDocument env user idParam w in
  (∃ r, run.2 = Ok r
        ∧ message r ≠ Some "AI processing failed"
        ∧ (status r = 200 →
           ∃ d result,
             In d (documents w) ∧ may_read user d ∧ payload r = Some result
             ∧ (AIService.classifyDocument env EmptyString (Doc.file_path d) (tick_db w)).2
               = Ok result))
  ∧ documents run.1 = documents w
  ∧ disk run.1 = disk w.
Proof.
  intros run. unfold run.
  destruct (manual_trigger_reads env user idParam) as [Hdocs Hdisk].
  split; [|split; [apply Hdocs|apply Hdisk]].
  destruct (manual_trigger_run env user idParam w) as (r & Hrun & Hmsg & Hok).
  exists r. split; [exact Hrun|]. split; [exact Hmsg|].
  intros H200. destruct (Hok H200) as (s & z & d & result & _ & _ & Hfind & Hread & Hpay & Hres).
  exists d, result. apply find_some in Hfind as [Hin _]. by repeat split.
Qed.

(** ** The upload and search routes: refusals and the entries of the answer *)

Section UploadEntries.

Import DocumentController.

Context (env : Env) (req : UploadRequest) (department : string).

Lemma create_row (data : documentData) (w w1 : World) (row : Doc.t) :
  DocumentModel.create env data w = (w1, Ok row) →
  row = DocumentModel.inserted (next_id w) data.
Proof.
  unfold DocumentModel.create, DocumentModel.statement.
  destruct (db_up env (db_calls w)); [|discriminate].
  destruct (dd_project_id data) as [[|z]|]; [discriminate|..]; by intros [= _ <-].
Qed.

Lemma upload_one_entry (file : File.t) (acc : list UploadedDocument) (w : World) :
  (upload_one env req department file acc w).2 = Ok acc
  ∨ ∃ e, (upload_one env req department file acc w).2 = Ok (acc ++ [e])
         ∧ entry_of req department file e.
Proof.
  unfold upload_one. fold (document_data req department file).
  set (data := document_data req department file).
  destruct (DocumentModel.create env data w) as [w1 [document|e]] eqn:Hcreate.
  2:{ left. by rewrite (run_try_threw _ _ _ _ _ (run_bind_threw _ _ _ _ _ Hcreate)). }
  pose proof (create_row _ _ _ _ Hcreate) as Hrow.
  set (job := {| documentId := Doc.id document; filePath := File.path file;
                 userId := User.id (ur_user req); job_department := department |}).
  destruct (ProcessingQueue.addDocumentForProcessing env job w1) as [w2 [[]|e]] eqn:Hadd.
  - right. eexists. split.
    + erewrite run_try; [reflexivity|].
      rewrite (run_bind _ _ _ _ _ Hcreate). fold job.
      rewrite (run_bind _ _ _ _ _ Hadd). reflexivity.
    + subst document. by repeat split.
  - left. erewrite run_try_threw; [reflexivity|].
    rewrite (run_bind _ _ _ _ _ Hcreate). fold job.
    by rewrite (run_bind_threw _ _ _ _ _ Hadd).
Qed.

Lemma upload_each_entries (files : list File.t) (acc : list UploadedDocument) (w : World) :
  ∃ taken entries,
    taken `sublist_of` files
    ∧ Forall2 (entry_of req department) taken entries
    ∧ (upload_each env req department files acc w).2 = Ok (acc ++ entries).
Proof.
  revert acc w. induction files as [|f files IH]; intros acc w; simpl.
  - exists [], []. split; [constructor|]. split; [constructor|]. by rewrite app_nil_r.
  - unfold bind.
    destruct (upload_one_entry f acc w) as [Hsame|(e & Hpushed & Hentry)];
      destruct (upload_one env req department f acc w) as [w1 o]; simpl in *; subst o.
    + destruct (IH acc w1) as (taken & entries & Hsub & Hall & Hrun).
      exists taken, entries. split; [by constructor|]. by split.
    + destruct (IH (acc ++ [e]) w1) as (taken & entries & Hsub & Hall & Hrun).
      exists (f :: taken), (e :: entries). split; [by constructor|].
      split; [by constructor|]. by rewrite Hrun, <- app_assoc.
Qed.

End UploadEntries.

(** The entries of the 201 answer follow the files of the request: they
    describe, in the order of the request, the files that went through
    (stored name, original name, size, MIME type, the department and the
    urgency of the request), and each entry reports the status pending,
    the one the record was created with, whatever the processing has since
    made of the record. *)
Theorem upload_entries_follow_the_files
    (env : Env) (req : UploadRequest) (department : string) (w : World) :
  ur_files req ≠ [] →
  ur_department req = Some department → department ≠ EmptyString →
  ∃ taken entries,
    taken `sublist_of` ur_files req
    ∧ Forall2 (entry_of req department) taken entries
    ∧ Forall (λ e, ud_processing_status e = pending) entries
    ∧ (DocumentController.uploadDocuments env req w).2
      = Ok (json_ok 201 (Some (uploaded_message (length entries))) entries).
Proof.
  intros Hfiles Hdep Hne.
  destruct (uploadDocuments_created env req department w Hfiles Hdep Hne)
    as (docs & Hrun & Hanswer).
  destruct (upload_each_entries env req department (ur_files req) [] w)
    as (taken & entries & Hsub & Hall & Heach).
  rewrite Hrun in Heach. simpl in Heach. injection Heach as ->.
  exists taken, entries. split; [exact Hsub|]. split; [exact Hall|]. split; [|exact Hanswer].
  clear -Hall. induction Hall as [|f e taken entries He _ IH]; constructor; [|exact IH].
  apply He.
Qed.

Lemma upload_entries_follow_the_files_witness :
  ∃ taken entries,
    taken `sublist_of` ur_files Scenario.upload_request
    ∧ Forall2 (entry_of Scenario.upload_request "SAFETY") taken entries
    ∧ Forall (λ e, ud_processing_status e = pending) entries
    ∧ (DocumentController.uploadDocuments Scenario.overconfident Scenario.upload_request
         (Scenario.after_multer Scenario.notice_bytes)).2
      = Ok (json_ok 201 (Some (uploaded_message (length entries))) entries).
Proof.
  apply (upload_entries_follow_the_files Scenario.overconfident Scenario.upload_request
           "SAFETY" (Scenario.after_multer Scenario.notice_bytes));
    [discriminate|reflexivity|discriminate].
Defined.

(** Requests that fail validation are answered 400 and leave everything as
    it was: an upload without files, an upload without a department, a
    search whose query is missing or blank.  No record is created, no
    statement is sent to the database and nothing is logged. *)
Theorem requests_without_input_are_refused_untouched
    (env : Env) (user : User.t) (req : UploadRequest) (query : ListQuery) (w : World) :
  (ur_files req = [] →
   DocumentController.uploadDocuments env req w
   = (w, Ok (json_fail 400 "No files uploaded" None)))
  ∧ (ur_files req ≠ [] → Js.truthy (ur_department req) = false →
     DocumentController.uploadDocuments env req w
     = (w, Ok (json_fail 400 "Department is required" None)))
  ∧ (q_q query = None ∨ (∃ q, q_q query = Some q ∧ Js.trim q = EmptyString) →
     DocumentController.searchDocuments env user query w
     = (w, Ok (json_fail 400 "Search query (q) is required" None))).
Proof.
  split; [|split].
  - intros Hnone. unfold DocumentController.uploadDocuments. apply run_try.
    by rewrite Hnone.
  - intros Hsome Hdep. unfold DocumentController.uploadDocuments. apply run_try.
    destruct (ur_files req) as [|f files]; [done|]. simpl.
    unfold DocumentController.if_truthy. by rewrite Hdep.
  - intros Hq. unfold DocumentController.searchDocuments. apply run_try.
    destruct Hq as [-> |(q & -> & Hblank)]; [done|]. by rewrite Hblank.
Qed.

(** ** The in-memory store *)

Section InMemory.

Import InMemoryDocument.

Lemma find_app_split {A} (f : A → bool) (l k : list A) :
  List.find f (l ++ k)
  = match List.find f l with Some x => Some x | None => List.find f k end.
Proof. induction l as [|a l IH]; simpl; [done|]. by destruct (f a). Qed.

Lemma find_fresh (z : nat) (docs : list Document) :
  Forall (λ doc, id doc < z) docs →
  List.find (is_id (ParseInt.Num (Z.of_nat z))) docs = None.
Proof.
  induction 1 as [|doc docs Hlt _ IH]; simpl; [done|].
  destruct (Z.eqb_spec (Z.of_nat (id doc)) (Z.of_nat z)); [lia|done].
Qed.

Lemma is_id_with_status (parsed : ParseInt.number) (status : string) (doc : Document) :
  is_id parsed (with_status status doc) = is_id parsed doc.
Proof. by destruct parsed. Qed.

Lemma set_status_ids (parsed : ParseInt.number) (status : string) (docs : list Document) :
  List.map id (set_status parsed status docs) = List.map id docs.
Proof.
  induction docs as [|doc docs IH]; simpl; [done|].
  destruct (is_id parsed doc); simpl; [done|]. by rewrite IH.
Qed.

Lemma set_status_length (parsed : ParseInt.number) (status : string) (docs : list Document) :
  length (set_status parsed status docs) = length docs.
Proof.
  induction docs as [|doc docs IH]; simpl; [done|].
  destruct (is_id parsed doc); simpl; [done|]. by rewrite IH.
Qed.

Lemma find_set_status_same (parsed : ParseInt.number) (status : string)
    (docs : list Document) (doc : Document) :
  List.find (is_id parsed) docs = Some doc →
  List.find (is_id parsed) (set_status parsed status docs) = Some (with_status status doc).
Proof.
  induction docs as [|d docs IH]; simpl; [done|].
  destruct (is_id parsed d) eqn:Hd; simpl.
  - intros [= <-]. by rewrite is_id_with_status, Hd.
  - rewrite Hd. exact IH.
Qed.

Lemma find_set_status_other (parsed other : ParseInt.number) (status : string)
    (docs : list Document) :
  (∀ doc, is_id parsed doc = true → is_id other doc = false) →
  List.find (is_id other) (set_status parsed status docs) = List.find (is_id other) docs.
Proof.
  intros Hapart. induction docs as [|d docs IH]; simpl; [done|].
  destruct (is_id parsed d) eqn:Hd; simpl.
  - by rewrite is_id_with_status, (Hapart d Hd).
  - by rewrite IH.
Qed.

Lemma ids_apart (parsed other : ParseInt.number) (doc : Document) :
  other ≠ parsed → is_id parsed doc = true → is_id other doc = false.
Proof.
  destruct parsed as [|z], other as [|z']; simpl; try done.
  intros Hne Hz. apply Z.eqb_eq in Hz. apply Z.eqb_neq. congruence.
Qed.

End InMemory.

(** Creating a document in the in-memory store gives it the next
    identifier and the status pending; the identifiers stay distinct and
    below the next one; a look-up by that identifier finds the document,
    and every other look-up answers as before.  The store the module
    starts with has no identifier in use. *)
Theorem in_memory_create_then_find
    (data : InMemoryDocument.documentData) (s : InMemoryDocument.Store) :
  in_memory_ids_fresh s →
  let created := InMemoryDocument.create data s in
  in_memory_ids_fresh created.2
  ∧ InMemoryDocument.id created.1 = InMemoryDocument.nextId s
  ∧ InMemoryDocument.validation_status created.1 = "pending"
  ∧ (∀ idParam,
       ParseInt.parseInt idParam = ParseInt.Num (Z.of_nat (InMemoryDocument.nextId s)) →
       InMemoryDocument.findById idParam created.2 = Some created.1)
  ∧ (∀ idParam,
       ParseInt.parseInt idParam ≠ ParseInt.Num (Z.of_nat (InMemoryDocument.nextId s)) →
       InMemoryDocument.findById idParam created.2 = InMemoryDocument.findById idParam s)
  ∧ in_memory_ids_fresh InMemoryDocument.initial.
Proof.
  intros [Hnd Hlt] created. unfold created, InMemoryDocument.create. cbn [fst snd].
  split; [|split; [done|split; [done|split; [|split]]]].
  - split; cbn [InMemoryDocument.documents InMemoryDocument.nextId].
    + rewrite map_app. apply NoDup_app. split; [exact Hnd|]. split.
      * intros x Hx Hnew. apply list_elem_of_In in Hx. apply in_map_iff in Hx as (d & <- & Hd).
        rewrite List.Forall_forall in Hlt. specialize (Hlt d Hd).
        simpl in Hnew. apply list_elem_of_In in Hnew as [Hnew|[]]. simpl in Hnew. lia.
      * simpl. apply NoDup_cons. split; [apply not_elem_of_nil|apply NoDup_nil_2].
    + apply Forall_app. split.
      * eapply Forall_impl; [exact Hlt|]. simpl. intros; lia.
      * constructor; [simpl; lia|constructor].
  - intros idParam Hparse. unfold InMemoryDocument.findById.
    cbn [InMemoryDocument.documents]. rewrite Hparse, find_app_split.
    rewrite (find_fresh _ _ Hlt). simpl. by rewrite Z.eqb_refl.
  - intros idParam Hparse. unfold InMemoryDocument.findById.
    cbn [InMemoryDocument.documents]. rewrite find_app_split.
    destruct (List.find _ (InMemoryDocument.documents s)); [done|]. simpl.
    destruct (ParseInt.parseInt idParam) as [|z]; [done|]. simpl.
    destruct (Z.eqb_spec (Z.of_nat (InMemoryDocument.nextId s)) z); [congruence|done].
  - split; [apply NoDup_nil_2|constructor].
Qed.

Lemma in_memory_create_then_find_witness :
  InMemoryDocument.findById "1"
    (InMemoryDocument.create
       {| InMemoryDocument.dd_filename := "notice.pdf";
          InMemoryDocument.dd_department := "SAFETY";
          InMemoryDocument.dd_extracted_text := Some "Safety notice" |}
       InMemoryDocument.initial).2
  = Some (InMemoryDocument.create
            {| InMemoryDocument.dd_filename := "notice.pdf";
               InMemoryDocument.dd_department := "SAFETY";
               InMemoryDocument.dd_extracted_text := Some "Safety notice" |}
            InMemoryDocument.initial).1.
Proof.
  assert (Hfresh : in_memory_ids_fresh InMemoryDocument.initial).
  { split; [apply NoDup_nil_2|constructor]. }
  destruct (in_memory_create_then_find
              {| InMemoryDocument.dd_filename := "notice.pdf";
                 InMemoryDocument.dd_department := "SAFETY";
                 InMemoryDocument.dd_extracted_text := Some "Safety notice" |}
              InMemoryDocument.initial Hfresh) as (_ & _ & _ & Hfind & _).
  apply Hfind. reflexivity.
Defined.

(** [updateValidationStatus] on an identifier that is in the store returns
    the document with the new status and stores it: a look-up by the
    identifier then finds it, every other look-up answers as before, and
    the identifiers and the number of documents are unchanged.  On an
    identifier that is not in the store (or is not a number) it returns
    nothing and changes nothing. *)
Theorem in_memory_status_update
    (idParam status : string) (s : InMemoryDocument.Store) :
  let updated := InMemoryDocument.updateValidationStatus idParam status s in
  (∀ doc, InMemoryDocument.findById idParam s = Some doc →
     updated.1 = Some (InMemoryDocument.with_status status doc)
     ∧ InMemoryDocument.findById idParam updated.2
       = Some (InMemoryDocument.with_status status doc)
     ∧ (∀ other, ParseInt.parseInt other ≠ ParseInt.parseInt idParam →
          InMemoryDocument.findById other updated.2 = InMemoryDocument.findById other s)
     ∧ List.map InMemoryDocument.id (InMemoryDocument.documents updated.2)
       = List.map InMemoryDocument.id (InMemoryDocument.documents s)
     ∧ InMemoryDocument.nextId updated.2 = InMemoryDocument.nextId s)
  ∧ (InMemoryDocument.findById idParam s = None → updated = (None, s))
  ∧ (ParseInt.parseInt idParam = ParseInt.NaN → updated = (None, s)).
Proof.
  intros updated. unfold updated, InMemoryDocument.updateValidationStatus,
    InMemoryDocument.findById.
  split; [|split].
  - intros doc Hfind. rewrite Hfind. cbn [fst snd InMemoryDocument.documents
                                            InMemoryDocument.nextId].
    split; [done|]. split; [by apply find_set_status_same|].
    split; [|split; [apply set_status_ids|done]].
    intros other Hother. apply find_set_status_other.
    intros d. by apply ids_apart.
  - intros Hnone. by rewrite Hnone.
  - intros Hnan. rewrite Hnan.
    assert (Hnone : List.find (InMemoryDocument.is_id ParseInt.NaN)
                      (InMemoryDocument.documents s) = None).
    { induction (InMemoryDocument.documents s) as [|d docs IH]; simpl; done. }
    by rewrite Hnone.
Qed.

Section InMemoryStats.

Import InMemoryDocument.

Lemma existsb_eqb_In (x : string) (l : list string) :
  existsb (String.eqb x) l = true ↔ In x l.
Proof.
  rewrite existsb_exists. split.
  - intros (y & Hy & Heq). apply String.eqb_eq in Heq. by subst.
  - intros Hin. exists x. split; [done|apply String.eqb_refl].
Qed.

Lemma unique_spec (seen l : list string) :
  NoDup (unique seen l)
  ∧ ∀ x, In x (unique seen l) ↔ In x l ∧ ¬ In x seen.
Proof.
  revert seen. induction l as [|y l IH]; intros seen; simpl.
  - split; [apply NoDup_nil_2|]. intros x. tauto.
  - destruct (existsb (String.eqb y) seen) eqn:Hy.
    + apply existsb_eqb_In in Hy. destruct (IH seen) as [Hnd Hin].
      split; [exact Hnd|]. intros x. rewrite Hin. split; [tauto|].
      intros [[<-|Hx] Hseen]; [done|tauto].
    + assert (Hfresh : ¬ In y seen).
      { intros Hin. apply existsb_eqb_In in Hin. congruence. }
      destruct (IH (y :: seen)) as [Hnd Hin]. split.
      * apply NoDup_cons. split; [|exact Hnd].
        intros Hy'. apply list_elem_of_In, Hin in Hy'. simpl in Hy'. tauto.
      * intros x. simpl. rewrite Hin. simpl. split.
        -- intros [<-|[Hx Hseen]]; [tauto|]. split; [tauto|]. tauto.
        -- intros [[<-|Hx] Hseen]; [tauto|].
           destruct (String.eqb_spec y x) as [->|Hne]; [tauto|]. right. tauto.
Qed.

Lemma status_counts_bound (docs : list Document) :
  (length (List.filter (with_validation_status "pending") docs)
   + length (List.filter (with_validation_status "processed") docs)
   + length (List.filter (with_validation_status "failed") docs)
   ≤ length docs)%nat.
Proof.
  induction docs as [|d docs IH]; cbn [List.filter length]; [lia|].
  destruct (with_validation_status "pending" d) eqn:Hp;
    destruct (with_validation_status "processed" d) eqn:Hq;
    destruct (with_validation_status "failed" d) eqn:Hf;
    cbn [length]; try lia;
    unfold with_validation_status in Hp, Hq, Hf;
    try apply String.eqb_eq in Hp; try apply String.eqb_eq in Hq;
    try apply String.eqb_eq in Hf; congruence.
Qed.

Lemma filter_length_app {A} (f : A → bool) (l k : list A) :
  length (List.filter f (l ++ k)) = length (List.filter f l) + length (List.filter f k).
Proof. by rewrite List.filter_app, length_app. Qed.

End InMemoryStats.

(** The statistics of the in-memory store: the three status counts never
    add up to more than the number of documents (a document with another
    status is in none of them); the departments are listed once each, and
    exactly those of the stored documents; creating a document adds one to
    the total and one to the pending count and leaves the other two counts
    as they were. *)
Theorem in_memory_stats_count
    (data : InMemoryDocument.documentData) (s : InMemoryDocument.Store) :
  let stats := InMemoryDocument.getStats s in
  let stats' := InMemoryDocument.getStats (InMemoryDocument.create data s).2 in
  (InMemoryDocument.status_pending stats + InMemoryDocument.status_processed stats
   + InMemoryDocument.status_failed stats ≤ InMemoryDocument.total_documents stats)%nat
  ∧ NoDup (InMemoryDocument.departments stats)
  ∧ (∀ d, In d (InMemoryDocument.departments stats)
          ↔ ∃ doc, In doc (InMemoryDocument.documents s)
                   ∧ InMemoryDocument.department doc = d)
  ∧ InMemoryDocument.total_documents stats' = S (InMemoryDocument.total_documents stats)
  ∧ InMemoryDocument.status_pending stats' = S (InMemoryDocument.status_pending stats)
  ∧ InMemoryDocument.status_processed stats' = InMemoryDocument.status_processed stats
  ∧ InMemoryDocument.status_failed stats' = InMemoryDocument.status_failed stats.
Proof.
  intros stats stats'. unfold stats, stats', InMemoryDocument.getStats,
    InMemoryDocument.create.
  cbn [InMemoryDocument.total_documents InMemoryDocument.departments
       InMemoryDocument.status_pending InMemoryDocument.status_processed
       InMemoryDocument.status_failed InMemoryDocument.documents snd].
  destruct (unique_spec [] (List.map InMemoryDocument.department
                              (InMemoryDocument.documents s))) as [Hnd Hin].
  split; [apply status_counts_bound|]. split; [exact Hnd|]. split.
  { intros d. rewrite Hin, in_map_iff. simpl. split.
    - intros [(doc & Hd & Hdoc) _]. by exists doc.
    - intros (doc & Hdoc & Hd). split; [by exists doc|tauto]. }
  rewrite !filter_length_app, length_app. simpl. repeat split; lia.
Qed.

Section InMemoryListing.

Import InMemoryDocument.

Lemma substring_to_prefix (n : nat) (s : string) :
  (String.length (substring_to n s) ≤ n)%nat
  ∧ ∃ rest, s = (substring_to n s ++ rest)%string.
Proof.
  revert s. induction n as [|n IH]; intros s.
  - split; [by destruct s|]. exists s. by destruct s.
  - destruct s as [|c s]; [split; [simpl; lia|by exists EmptyString]|].
    destruct (IH s) as [Hlen [rest Hrest]]. split; [simpl; lia|].
    exists rest. simpl. rewrite append_cons. by rewrite <- Hrest.
Qed.

End InMemoryListing.

(** [findAll] lists the stored documents in the order of their creation,
    each with a preview of at most 100 characters that is the beginning of
    its extracted text (empty when there is no text), and leaves the
    documents themselves as they are. *)
Theorem in_memory_find_all_previews (s : InMemoryDocument.Store) :
  List.map fst (InMemoryDocument.findAll s) = InMemoryDocument.documents s
  ∧ Forall (λ listed,
              (String.length listed.2 ≤ 100)%nat
              ∧ ∃ rest, default EmptyString (InMemoryDocument.extracted_text listed.1)
                        = (listed.2 ++ rest)%string)
      (InMemoryDocument.findAll s).
Proof.
  unfold InMemoryDocument.findAll.
  induction (InMemoryDocument.documents s) as [|doc docs [IHdocs IHall]];
    cbn [List.map fst].
  - split; [done|constructor].
  - split; [by f_equal|]. constructor; [|exact IHall]. cbn [fst snd].
    destruct (Js.truthy (InMemoryDocument.extracted_text doc)).
    + apply substring_to_prefix.
    + split; [simpl; lia|]. by eexists.
Qed.

(** ** The number read from an [id] parameter *)

Section LeadingNumber.

Lemma digit_decimal (c : ascii) :
  ParseInt.digit 10 c = None ↔ is_digit c = false.
Proof. destruct c as [[] [] [] [] [] [] [] []]; vm_compute; split; congruence. Qed.

Lemma digit_not_space (c : ascii) : is_digit c = true → Js.is_space c = false.
Proof. destruct c as [[] [] [] [] [] [] [] []]; vm_compute; congruence. Qed.

Lemma digits_trailing (acc : option Z) (digits rest : string) :
  all_chars is_digit digits = true → trailing_text rest →
  ParseInt.digits 10 acc (digits ++ rest) = ParseInt.digits 10 acc digits.
Proof.
  intros Hdigits Hrest. revert acc.
  induction digits as [|c digits IH]; intros acc.
  - destruct rest as [|c rest]; [done|]. destruct Hrest as (Hc & _).
    change (EmptyString ++ String c rest)%string with (String c rest).
    simpl. apply digit_decimal in Hc. by rewrite Hc.
  - rewrite append_cons. simpl in *. apply andb_true_iff in Hdigits as [_ Hdigits].
    destruct (ParseInt.digit 10 c); [by apply IH|done].
Qed.

Lemma magnitude_decimal (c : ascii) (s : string) :
  is_digit c = true →
  match s with
  | EmptyString => True
  | String c2 _ => c2 ≠ "x"%char ∧ c2 ≠ "X"%char
  end →
  ParseInt.magnitude (String c s) = ParseInt.digits 10 None (String c s).
Proof.
  intros Hc Hs. unfold ParseInt.magnitude.
  destruct c as [[] [] [] [] [] [] [] []]; try discriminate Hc; try reflexivity.
  destruct s as [|c2 s]; [reflexivity|]. destruct Hs as [Hx HX].
  destruct c2 as [[] [] [] [] [] [] [] []]; try reflexivity; congruence.
Qed.

Lemma digits_started (z : Z) (s : string) :
  ∃ z', ParseInt.digits 10 (Some z) s = Some z'.
Proof.
  revert z. induction s as [|c s IH]; intros z; simpl; [by exists z|].
  destruct (ParseInt.digit 10 c); [apply IH|by exists z].
Qed.

Lemma parseInt_trailing (digits rest : string) :
  digits ≠ EmptyString → all_chars is_digit digits = true → trailing_text rest →
  ParseInt.parseInt (digits ++ rest) = ParseInt.parseInt digits
  ∧ ∃ z, ParseInt.parseInt digits = ParseInt.Num z.
Proof.
  intros Hne Hdigits Hrest. destruct digits as [|c digits]; [done|].
  simpl in Hdigits. apply andb_true_iff in Hdigits as [Hc Hdigits].
  assert (Hfirst : ∀ s, ParseInt.parseInt (String c s)
                        = match ParseInt.magnitude (String c s) with
                          | Some m => ParseInt.Num m
                          | None => ParseInt.NaN
                          end).
  { intros s. unfold ParseInt.parseInt. simpl Js.trimStart.
    rewrite (digit_not_space c Hc).
    destruct c as [[] [] [] [] [] [] [] []]; try discriminate Hc; reflexivity. }
  rewrite append_cons, !Hfirst.
  assert (Hnext : match (digits ++ rest)%string with
                  | EmptyString => True
                  | String c2 _ => c2 ≠ "x"%char ∧ c2 ≠ "X"%char
                  end).
  { destruct digits as [|c2 digits].
    - destruct rest as [|c2 rest]; [done|]. by destruct Hrest as (_ & ? & ?).
    - rewrite append_cons. simpl in Hdigits. apply andb_true_iff in Hdigits as [Hc2 _].
      split; intros ->; discriminate Hc2. }
  assert (Hown : match digits with
                 | EmptyString => True
                 | String c2 _ => c2 ≠ "x"%char ∧ c2 ≠ "X"%char
                 end).
  { destruct digits as [|c2 digits]; [done|].
    simpl in Hdigits. apply andb_true_iff in Hdigits as [Hc2 _].
    split; intros ->; discriminate Hc2. }
  rewrite (magnitude_decimal c _ Hc Hnext), (magnitude_decimal c _ Hc Hown).
  rewrite <- append_cons, digits_trailing; [|by simpl; rewrite Hc|done].
  split; [done|]. cbn [ParseInt.digits].
  destruct (ParseInt.digit 10 c) as [d|] eqn:Hdc.
  - destruct (digits_started (default 0 None * 10 + d)%Z digits) as [z ->]. by exists z.
  - exfalso. apply digit_decimal in Hdc. congruence.
Qed.

End LeadingNumber.

(** The routes on one document read only the leading number of the [id]
    parameter: an identifier made of decimal digits followed by other text
    (not opening with a digit, nor with the [x] of a hexadecimal prefix) is
    served exactly as the digits alone, by each of the four routes. *)
Theorem id_routes_read_the_leading_number
    (env : Env) (user : User.t) (digits rest : string) (w : World) :
  digits ≠ EmptyString → all_chars is_digit digits = true → trailing_text rest →
  DocumentController.getDocumentById env user (Some (digits ++ rest)%string) w
  = DocumentController.getDocumentById env user (Some digits) w
  ∧ DocumentController.downloadDocument env user (Some (digits ++ rest)%string) w
    = DocumentController.downloadDocument env user (Some digits) w
  ∧ DocumentController.deleteDocument env user (Some (digits ++ rest)%string) w
    = DocumentController.deleteDocument env user (Some digits) w
  ∧ DocumentController.processDocument env user (Some (digits ++ rest)%string) w
    = DocumentController.processDocument env user (Some digits) w.
Proof.
  intros Hne Hdigits Hrest.
  destruct (parseInt_trailing digits rest Hne Hdigits Hrest) as [Hsame [z Hz]].
  assert (Hlong : DocumentController.if_truthy (Some (digits ++ rest)%string)
                  = Some (digits ++ rest)%string).
  { apply (if_truthy_parsed _ z). by rewrite Hsame. }
  pose proof (if_truthy_parsed _ z Hz) as Hshort.
  unfold DocumentController.getDocumentById, DocumentController.downloadDocument,
    DocumentController.deleteDocument, DocumentController.processDocument,
    DocumentController.with_document_id.
  rewrite Hlong, Hshort, Hsame. by repeat split.
Qed.

Lemma id_routes_read_the_leading_number_witness :
  DocumentController.getDocumentById Scenario.offline Scenario.officer (Some "3abc")
    Library.world
  = DocumentController.getDocumentById Scenario.offline Scenario.officer (Some "3")
      Library.world.
Proof.
  refine (proj1 (id_routes_read_the_leading_number Scenario.offline Scenario.officer
                   "3" "abc" Library.world _ eq_refl _)).
  - discriminate.
  - repeat split; discriminate.
Defined.
